(** * ItchClaim: the sale crawler, the disk cache and the claim engine

    A shallow embedding of [ItchClaim/ItchSale.py], [ItchClaim/ItchGame.py]
    and [ItchClaim/__main__.py].  Python objects become records, methods
    become functions in a state-and-exception monad over one [World] (the
    interpreter's heap of sale objects, the class-level cache, the files on
    disk, the user's library and the trace of observable effects), and the
    origin web site is a parameter of the sections that talk to it. *)

From Stdlib Require Import ZArith Lia Ascii Sorted.
From stdpp Require Import base option list gmap strings pretty.

Open Scope Z_scope.
Set Warnings "-register-all".

(** ** Python runtime fragments *)

(** The exceptions the embedded code can raise.  [SystemExit] is what
    [exit(1)] raises; [RequestException] stands for every transport error
    of the [requests] library; [Dangling] is not a Python exception: it is
    the answer of the heap model to an address that was never allocated. *)
Inductive exn :=
| KeyError (key : string)
| IndexError
| ValueError (msg : string)
| TypeError
| AttributeError (attr : string)
| UnboundLocalError (var : string)
| FileNotFoundError (path : string)
| JSONDecodeError
| RequestException (msg : string)
| SystemExit (code : Z)
| Dangling.

Inductive res (A : Type) :=
| Ok (a : A)
| Raise (e : exn).
Arguments Ok {A} a.
Arguments Raise {A} e.

Definition is_ok {A} (r : res A) : bool :=
  match r with Ok _ => true | Raise _ => false end.

(** A naive [datetime] is the number of microseconds since the epoch; the
    local time zone is taken to be UTC.  [int(d.timestamp())] truncates
    towards zero, [datetime.fromtimestamp(n)] of an [int] is exact. *)
Definition datetime := Z.

Definition fromtimestamp (n : Z) : datetime := n * 1000000.
Definition int_timestamp (d : datetime) : Z := Z.quot d 1000000.
Definition whole_second (d : datetime) : Prop := Z.rem d 1000000 = 0.

(** The values that travel through [json.dumps] and [json.loads].  A
    double is its 64-bit pattern. *)
Inductive pyval :=
| VNone
| VBool (b : bool)
| VInt (n : Z)
| VFloat (bits : Z)
| VStr (s : string)
| VList (l : list pyval)
| VTuple (l : list pyval).

Inductive json :=
| JNull
| JBool (b : bool)
| JInt (n : Z)
| JFloat (bits : Z)
| JStr (s : string)
| JArr (l : list json).

(** [json.dumps] writes [NaN] for every not-a-number and [json.loads]
    reads it back as the one quiet NaN; every other double survives bit
    for bit. *)
Definition is_nan (bits : Z) : bool :=
  (Z.land (Z.shiftr bits 52) 2047 =? 2047) && negb (Z.land bits 4503599627370495 =? 0).

Definition json_float (bits : Z) : Z :=
  if is_nan bits then 9221120237041090560 else bits.

Fixpoint json_dumps (v : pyval) : json :=
  match v with
  | VNone => JNull
  | VBool b => JBool b
  | VInt n => JInt n
  | VFloat f => JFloat (json_float f)
  | VStr s => JStr s
  | VList l => JArr (map json_dumps l)
  | VTuple l => JArr (map json_dumps l)
  end.

Fixpoint json_loads (j : json) : pyval :=
  match j with
  | JNull => VNone
  | JBool b => VBool b
  | JInt n => VInt n
  | JFloat f => VFloat f
  | JStr s => VStr s
  | JArr l => VList (map json_loads l)
  end.

(** ** The observable effects *)

Inductive event :=
| Http (method url : string)     (* one request sent to the network *)
| Listing (category : string) (page : Z)  (* one listing page requested *)
| Print (line : string)
| Sleep (ms : Z).

(** A [requests.Response], as far as the code looks into it. *)
Module Response.
Record t := { status_code : Z; url : string; text : string }.
End Response.

(** ** The entities *)

(** An [ItchSale] instance.  [soup] keeps the page text the parser was
    built from. *)
Module Sale.
Record t := {
  id : Z;
  end_ : option datetime;
  start : option datetime;
  err : option string;
  soup : option string
}.

Definition set_start (v : option datetime) (s : t) : t :=
  {| id := id s; end_ := end_ s; start := v; err := err s; soup := soup s |}.
Definition set_end (v : option datetime) (s : t) : t :=
  {| id := id s; end_ := v; start := start s; err := err s; soup := soup s |}.
Definition set_err (v : option string) (s : t) : t :=
  {| id := id s; end_ := end_ s; start := start s; err := v; soup := soup s |}.
Definition set_soup (v : option string) (s : t) : t :=
  {| id := id s; end_ := end_ s; start := start s; err := err s; soup := v |}.
End Sale.

(** An [ItchGame] instance with every attribute set.  [sale_id] is the one
    attribute the code stores values of more than one Python type in. *)
Module Game.
Record t := {
  id : Z;
  name : string;
  url : string;
  price : option Z;
  claimable : bool;
  sale_id : pyval;
  sale_end : datetime;
  cover_image : string
}.

Definition set_sale_id (v : pyval) (g : t) : t :=
  {| id := id g; name := name g; url := url g; price := price g;
     claimable := claimable g; sale_id := v; sale_end := sale_end g;
     cover_image := cover_image g |}.
End Game.

(** The JSON object [save_to_disk] writes, with the types it writes. *)
Module GameFile.
Record t := {
  id : Z;
  name : string;
  url : string;
  price : option Z;
  claimable : bool;
  sale_id : json;
  sale_end : Z;
  cover_image : string
}.
End GameFile.

(** ** The world *)

Record World := {
  trace : list event;                  (* effects so far, oldest first *)
  sales : list Sale.t;                 (* the ItchSale objects, by address *)
  cached_sales : gmap Z nat;           (* ItchSale.cached_sales *)
  files : gmap string GameFile.t;      (* the games directory *)
  sale_files : gmap Z (gmap string Z); (* the persisted sales *)
  resume_index : option Z;             (* resume_index.txt, read by int() *)
  owned_games : list Game.t            (* self.user.owned_games *)
}.

Definition set_trace (v : list event) (w : World) : World :=
  {| trace := v; sales := sales w; cached_sales := cached_sales w;
     files := files w; sale_files := sale_files w;
     resume_index := resume_index w; owned_games := owned_games w |}.
Definition set_sales (v : list Sale.t) (w : World) : World :=
  {| trace := trace w; sales := v; cached_sales := cached_sales w;
     files := files w; sale_files := sale_files w;
     resume_index := resume_index w; owned_games := owned_games w |}.
Definition set_cached_sales (v : gmap Z nat) (w : World) : World :=
  {| trace := trace w; sales := sales w; cached_sales := v;
     files := files w; sale_files := sale_files w;
     resume_index := resume_index w; owned_games := owned_games w |}.
Definition set_files (v : gmap string GameFile.t) (w : World) : World :=
  {| trace := trace w; sales := sales w; cached_sales := cached_sales w;
     files := v; sale_files := sale_files w;
     resume_index := resume_index w; owned_games := owned_games w |}.
Definition set_sale_files (v : gmap Z (gmap string Z)) (w : World) : World :=
  {| trace := trace w; sales := sales w; cached_sales := cached_sales w;
     files := files w; sale_files := v;
     resume_index := resume_index w; owned_games := owned_games w |}.
Definition set_resume_index (v : option Z) (w : World) : World :=
  {| trace := trace w; sales := sales w; cached_sales := cached_sales w;
     files := files w; sale_files := sale_files w;
     resume_index := v; owned_games := owned_games w |}.
Definition set_owned_games (v : list Game.t) (w : World) : World :=
  {| trace := trace w; sales := sales w; cached_sales := cached_sales w;
     files := files w; sale_files := sale_files w;
     resume_index := resume_index w; owned_games := v |}.

Definition empty_world : World :=
  {| trace := []; sales := []; cached_sales := ∅; files := ∅;
     sale_files := ∅; resume_index := None; owned_games := [] |}.

(** ** State and exceptions *)

Definition M (A : Type) : Type := World -> res A * World.

Definition ret {A} (a : A) : M A := fun w => (Ok a, w).
Definition raise {A} (e : exn) : M A := fun w => (Raise e, w).
Definition bind {A B} (m : M A) (k : A -> M B) : M B :=
  fun w => match m w with
           | (Ok a, w') => k a w'
           | (Raise e, w') => (Raise e, w')
           end.
Definition lift {A} (r : res A) : M A := fun w => (r, w).
Definition gets {A} (f : World -> A) : M A := fun w => (Ok (f w), w).
Definition modify (f : World -> World) : M unit := fun w => (Ok tt, f w).

(** [try: body except: handler], the handler choosing what it catches. *)
Definition try_except {A} (body : M A) (handler : exn -> option (M A)) : M A :=
  fun w => match body w with
           | (Ok a, w') => (Ok a, w')
           | (Raise e, w') =>
               match handler e with
               | Some h => h w'
               | None => (Raise e, w')
               end
           end.

Declare Scope py_scope.
Delimit Scope py_scope with py.
Notation "x <- c ;; k" := (bind c (fun x => k))
  (at level 100, c at next level, right associativity) : py_scope.
Notation "c ;;; k" := (bind c (fun _ => k))
  (at level 100, right associativity) : py_scope.
Open Scope py_scope.

Definition emit (e : event) : M unit :=
  modify (fun w => set_trace (trace w ++ [e]) w).
Definition print (line : string) : M unit := emit (Print line).

(** [for x in l: body x] *)
Fixpoint for_each {A} (l : list A) (body : A -> M unit) : M unit :=
  match l with
  | [] => ret tt
  | x :: rest => body x ;;; for_each rest body
  end.

Definition nl : string := String (ascii_of_nat 10) "".
Definition tab : string := String (ascii_of_nat 9) "".

(** The address of the page of promotion [id]. *)
Definition sale_url (id : Z) : string := "https://itch.io/s/" +:+ pretty id.

(** ** ItchSale.py *)

Module ItchSale.

(** What [json.loads(re.findall(...)[0])] finds in the page's script
    tag: the three entries the constructor reads. *)
Record sale_data := { start_date : string; end_date : string; data_id : Z }.

Section Online.
(** The origin: what [requests.get] answers to a URL, given everything
    that happened before; the script-tag extraction of lines 43-44
    ([IndexError], [JSONDecodeError] or [KeyError] when the page has no
    such payload); [datetime.strptime] with the format of line 43. *)
Variable requests_get : list event -> string -> res Response.t.
Variable sale_script : string -> res sale_data.
Variable strptime : string -> res datetime.

Definition alloc (s : Sale.t) : M nat :=
  fun w => (Ok (length (sales w)), set_sales (sales w ++ [s]) w).

Definition load (self : nat) : M Sale.t :=
  fun w => match sales w !! self with
           | Some s => (Ok s, w)
           | None => (Raise Dangling, w)
           end.

Definition update (self : nat) (f : Sale.t -> Sale.t) : M unit :=
  fun w => match sales w !! self with
           | Some s => (Ok tt, set_sales (<[self := f s]> (sales w)) w)
           | None => (Raise Dangling, w)
           end.

Definition http_get (url : string) : M Response.t :=
  fun w => (requests_get (trace w) url,
            set_trace (trace w ++ [Http "GET" url]) w).

(** Lines 32 to 49 of [get_data_online]: what the method does with the
    response [r] to the request for the page of sale [s]. *)
Definition get_data_online_response (self : nat) (s : Sale.t) (r : Response.t)
    : M unit :=
  if Response.status_code r =? 404 then
    print ("Sale page #" +:+ pretty (Sale.id s) +:+ ": 404 Not Found") ;;;
    if String.eqb (Response.url r) (sale_url (Sale.id s))
    then update self (Sale.set_err (Some "NO_MORE_SALES_AVAILABLE"))
    else update self (Sale.set_err (Some "404_NOT_FOUND"))
  else
    update self (Sale.set_soup (Some (Response.text r))) ;;;
    data <- lift (sale_script (Response.text r)) ;;
    st <- lift (strptime (start_date data)) ;;
    update self (Sale.set_start (Some st)) ;;;
    en <- lift (strptime (end_date data)) ;;
    update self (Sale.set_end (Some en)) ;;;
    if negb (Sale.id s =? data_id data)
    then raise (ValueError ("Sale ID mismatch in parsed <script> tag. Excepted "
                            +:+ pretty (Sale.id s)))
    else ret tt.

Definition get_data_online (self : nat) : M unit :=
  s <- load self ;;
  let sale_url := sale_url (Sale.id s) in
  r <- http_get sale_url ;;
  get_data_online_response self s r.

(** [ItchSale(id, end, start)].  A [datetime] is always truthy, so
    [not start] holds exactly for [None]. *)
Definition init (id : Z) (end_ start : option datetime) : M nat :=
  self <- alloc {| Sale.id := id; Sale.end_ := end_; Sale.start := start;
                   Sale.err := None; Sale.soup := None |} ;;
  match start, end_ with
  | Some _, Some _ => ret self
  | _, _ => get_data_online self ;;; ret self
  end.

(** [dict[key]] on a persisted sale record, the JSON object with integer
    entries that [serialize] writes. *)
Definition getitem (dict : gmap string Z) (key : string) : M Z :=
  match dict !! key with
  | Some v => ret v
  | None => raise (KeyError key)
  end.

(** A non-empty string is truthy, [None] and the empty string are not. *)
Definition truthy (o : option string) : bool :=
  match o with
  | Some s => negb (String.eqb s "")
  | None => false
  end.

(** [from_dict]: the [try] builds the instance from the record, and the
    [except KeyError] repairs a record that lacks a field. *)
Definition from_dict (dict : gmap string Z) : M nat :=
  id <- getitem dict "id" ;;
  try_except
    (st <- getitem dict "start" ;;
     en <- getitem dict "end" ;;
     init id (Some (fromtimestamp en)) (Some (fromtimestamp st)))
    (fun e =>
       match e with
       | KeyError _ => Some (
           print ("Refreshing missing data for sale " +:+ pretty id) ;;;
           cache <- gets cached_sales ;;
           match cache !! id with
           | Some cached => print "Found in cache" ;;; ret cached
           | None =>
               sale <- init id None None ;;
               s <- load sale ;;
               (if truthy (Sale.err s) then
                  match dict !! "end" with
                  | None =>
                      st <- getitem dict "start" ;;
                      update sale (Sale.set_start (Some (fromtimestamp st))) ;;;
                      update sale (Sale.set_end (Some (fromtimestamp st))) ;;;
                      print ("Warning: " +:+ pretty id +:+
                             " was removed from itch.io. Setting it's end date to it's start date")
                  | Some en =>
                      match dict !! "start" with
                      | None =>
                          update sale (Sale.set_end (Some (fromtimestamp en))) ;;;
                          update sale (Sale.set_start (Some (fromtimestamp en))) ;;;
                          print ("Warning: " +:+ pretty id +:+
                                 " was removed from itch.io. Setting it's start date to it's end date")
                      | Some _ => ret tt
                      end
                  end
                else ret tt) ;;;
               update sale (Sale.set_err (Some "STATUS_UPDATED")) ;;;
               modify (fun w => set_cached_sales (<[id := sale]> (cached_sales w)) w) ;;;
               ret sale
           end)
       | _ => None
       end).
End Online.

(** [serialize]: [None.timestamp()] is an [AttributeError]. *)
Definition serialize (s : Sale.t) : res (gmap string Z) :=
  match Sale.start s, Sale.end_ s with
  | Some st, Some en =>
      Ok (<["id" := Sale.id s]> (<["start" := int_timestamp st]>
           (<["end" := int_timestamp en]> ∅)))
  | _, _ => Raise (AttributeError "timestamp")
  end.

(** [is_active] and [is_upcoming], with [datetime.now()] an argument;
    comparing a [datetime] with [None] is a [TypeError]. *)
Definition is_active (now : datetime) (s : Sale.t) : res bool :=
  match Sale.end_ s with
  | Some en => if now <? en then Ok true else Ok false
  | None => Raise TypeError
  end.

Definition is_upcoming (now : datetime) (s : Sale.t) : res bool :=
  match Sale.start s with
  | Some st => Ok (now <? st)
  | None => Raise TypeError
  end.

End ItchSale.

(** The JSON object the download-URL endpoint answers with: an error list
    or a URL, as [json.loads(r.text)] gives it. *)
Module Negotiation.
Record t := { errors : option (list string); url : option string }.
End Negotiation.

(** ** ItchGame.py *)

Module ItchGame.

(** [os.path.join(dir, file)] for a relative [file]. *)
Fixpoint ends_with_slash (s : string) : bool :=
  match s with
  | EmptyString => false
  | String c EmptyString => bool_decide (c = "/"%char)
  | String _ rest => ends_with_slash rest
  end.

Definition path_join (dir file : string) : string :=
  match dir with
  | EmptyString => file
  | _ => if ends_with_slash dir then dir +:+ file else dir +:+ "/" +:+ file
  end.

Section Disk.
(** What [ItchGame.get_games_dir()] returns. *)
Variable games_dir : string.

Definition get_default_game_filename (self : Game.t) : string :=
  let sessionfilename := pretty (Game.id self) +:+ ".json" in
  path_join games_dir sessionfilename.

Definition save_to_disk (self : Game.t) : M unit :=
  let data :=
    {| GameFile.id := Game.id self;
       GameFile.name := Game.name self;
       GameFile.url := Game.url self;
       GameFile.price := json_float <$> Game.price self;
       GameFile.claimable := Game.claimable self;
       GameFile.sale_id := json_dumps (Game.sale_id self);
       GameFile.sale_end := int_timestamp (Game.sale_end self);
       GameFile.cover_image := Game.cover_image self |} in
  modify (fun w =>
    set_files (<[get_default_game_filename self := data]> (files w)) w).

(** Line 85 ends in a comma: the attribute becomes a one-element
    tuple around the value read. *)
Definition load_from_disk (path : string) : M Game.t :=
  fs <- gets files ;;
  match fs !! path with
  | None => raise (FileNotFoundError path)
  | Some data =>
      ret {| Game.id := GameFile.id data;
             Game.name := GameFile.name data;
             Game.url := GameFile.url data;
             Game.price := GameFile.price data;
             Game.sale_id := VTuple [json_loads (GameFile.sale_id data)];
             Game.claimable := GameFile.claimable data;
             Game.sale_end := fromtimestamp (GameFile.sale_end data);
             Game.cover_image := GameFile.cover_image data |}
  end.
End Disk.

(** What the BeautifulSoup lookups of [parse_download_div] find in one
    [div.upload]; a lookup that fails carries its exception. *)
Record upload_div := {
  data_upload_id : res Z;
  upload_date_title : res string;
  download_platforms : option (list string);
  strong_name : res string;
  file_size_text : res string
}.

(** The dict [parse_download_div] returns. *)
Record upload := {
  id : Z;
  name : string;
  file_size : string;
  upload_date : datetime;
  platforms : list string;
  url : string
}.

Definition ITCHIO_PLATFORMS : list string := ["windows8"; "android"; "tux"; "apple"].

Section Downloads.
(** The origin as a session sees it: the cookies a fresh session holds
    after [s.get('https://itch.io/')]; the answer to the download-URL
    POST, parsed; the [div.upload] elements of a download page; the
    URL a file POST returns; and two library functions. *)
Variable home_cookies : res (gmap string string).
Variable post_download_url : list event -> string -> string -> res Negotiation.t.
Variable get_download_page : list event -> string -> res (list upload_div).
Variable post_file : list event -> string -> string -> res string.
Variable unquote : string -> string.
Variable strptime : string -> res datetime.

Definition cookie (cookies : gmap string string) (key : string) : M string :=
  match cookies !! key with
  | Some v => ret v
  | None => raise (KeyError key)
  end.

Definition request {A} (method url : string) (answer : list event -> res A) : M A :=
  fun w => (answer (trace w), set_trace (trace w ++ [Http method url]) w).

Definition parse_download_div (self : Game.t) (div : upload_div)
    (s : gmap string string) : M upload :=
  id <- lift (data_upload_id div) ;;
  upload_date_raw <- lift (upload_date_title div) ;;
  upload_date <- lift (strptime upload_date_raw) ;;
  let platforms :=
    match download_platforms div with
    | Some icons => filter (fun platform => platform ∈ icons) ITCHIO_PLATFORMS
    | None => []
    end in
  csrf_token <- cookie s "itchio_token" ;;
  let file_url := Game.url self +:+ "/file/" +:+ pretty id in
  download_url <- request "POST" file_url
                    (fun tr => post_file tr file_url (unquote csrf_token)) ;;
  name <- lift (strong_name div) ;;
  file_size <- lift (file_size_text div) ;;
  ret {| id := id; name := name; file_size := file_size;
         upload_date := upload_date; platforms := platforms;
         url := download_url |}.

Fixpoint parse_all (self : Game.t) (divs : list upload_div)
    (s : gmap string string) : M (list upload) :=
  match divs with
  | [] => ret []
  | div :: rest =>
      u <- parse_download_div self div s ;;
      us <- parse_all self rest s ;;
      ret (u :: us)
  end.

Definition downloadable_files (self : Game.t) (s : option (gmap string string))
    : M (option (list upload)) :=
  s <- match s with
       | Some s => ret s
       | None => request "GET" "https://itch.io/" (fun _ => home_cookies)
       end ;;
  csrf_token <- cookie s "itchio_token" ;;
  let neg_url := Game.url self +:+ "/download_url" in
  resp <- request "POST" neg_url
            (fun tr => post_download_url tr neg_url (unquote csrf_token)) ;;
  match Negotiation.errors resp with
  | Some errors =>
      print ("ERROR: Failed to get download links for game " +:+ Game.name self
             +:+ " (url: " +:+ Game.url self +:+ ")") ;;;
      match errors with
      | first :: _ => print (tab +:+ first) ;;; ret None
      | [] => raise IndexError
      end
  | None =>
      match Negotiation.url resp with
      | None => raise (KeyError "url")
      | Some download_page =>
          uploads_div <- request "GET" download_page
                           (fun tr => get_download_page tr download_page) ;;
          uploads <- parse_all self uploads_div s ;;
          ret (Some uploads)
      end
  end.
End Downloads.

End ItchGame.

(** ** The sale crawler *)

Module DiskManager.

(** How the crawl leaves one promotion ID. *)
Inductive outcome :=
| NoMoreSalesAvailable
| NotFoundOther
| Skipped (e : exn)
| Upserted.

Definition is_terminal (o : outcome) : bool :=
  match o with NoMoreSalesAvailable => true | _ => false end.

Section Crawl.
Variable requests_get : list event -> string -> res Response.t.
Variable sale_script : string -> res ItchSale.sale_data.
Variable strptime : string -> res datetime.
(** The Game summaries of a promotion page, all listing variants
    together, and those of one page of a category listing. *)
Variable games_on_page : string -> list Game.t.
Variable listing : list event -> string -> Z -> list Game.t.
Variable games_dir : string.

Definition upsert_games (n : pyval) (games : list Game.t) : M unit :=
  for_each games (fun g => ItchGame.save_to_disk games_dir (Game.set_sale_id n g)).

(** Modelled from the spec: [DiskManager.get_one_sale] is not among the
    sources.  Section 4.4, steps 1 to 5: fetch the page of [n] (the
    [ItchSale] constructor of the sources); not found without a redirect
    is [NoMoreSalesAvailable], not found after a redirect is
    [NotFoundOther]; otherwise upsert the Sale and the Games of its
    listings with [sale_id = n].  Section 7: an error of one ID, the
    Sale ID mismatch among them, is caught there and logged. *)
Definition get_one_sale (n : Z) : M outcome :=
  try_except
    (sale <- ItchSale.init requests_get sale_script strptime n None None ;;
     s <- ItchSale.load sale ;;
     match Sale.err s with
     | Some e =>
         if String.eqb e "NO_MORE_SALES_AVAILABLE" then ret NoMoreSalesAvailable
         else ret NotFoundOther
     | None =>
         d <- lift (ItchSale.serialize s) ;;
         modify (fun w => set_sale_files (<[n := d]> (sale_files w)) w) ;;;
         upsert_games (VInt n) (games_on_page (default "" (Sale.soup s))) ;;;
         ret Upserted
     end)
    (fun e => Some (print ("Failed to parse sale page " +:+ pretty n) ;;;
                    ret (Skipped e))).

(** Modelled from the spec: [DiskManager.get_all_sales] is not among
    the sources.  Section 4.4: walk the IDs upwards from the cursor;
    [NoMoreSalesAvailable] ends the walk without advancing past [n];
    after every other outcome the cursor [n + 1] is persisted, once the
    step for [n] is complete, and the walk goes on.  One unit of fuel
    per ID; the answer is the frontier with the IDs left behind, or
    [None] when the fuel ran out with the walk still going. *)
Fixpoint get_all_sales (fuel : nat) (n : Z) (processed : list Z)
    : M (option (Z * list Z)) :=
  match fuel with
  | O => ret None
  | S fuel =>
      o <- get_one_sale n ;;
      if is_terminal o then ret (Some (n, processed))
      else
        modify (set_resume_index (Some (n + 1))) ;;;
        get_all_sales fuel (n + 1) (processed ++ [n])
  end.

(** Modelled from the spec: [DiskManager.get_all_sale_pages] is not
    among the sources.  Section 4.4, re-scan policy: walk one category
    listing page by page up to the first empty page and upsert what it
    shows; the cursor is not touched. *)
Fixpoint get_all_sale_pages (fuel : nat) (category : string) (page : Z) : M bool :=
  match fuel with
  | O => ret false
  | S fuel =>
      tr <- gets trace ;;
      emit (Listing category page) ;;;
      match listing tr category page with
      | [] => ret true
      | games =>
          for_each games (ItchGame.save_to_disk games_dir) ;;;
          get_all_sale_pages fuel category (page + 1)
      end
  end.

End Crawl.

End DiskManager.

(** ** Python's str *)

Module Str.

Definition len (s : string) : Z := Z.of_nat (String.length s).

(** How [find] and a slice read a bound against a string of length [n]:
    a negative bound counts from the end. *)
Definition from_end (n i : Z) : Z :=
  if i <? 0 then Z.max 0 (i + n) else i.

(** [s.find(sub, start)]: the lowest index at or after [start] at which
    [sub] occurs in [s], and [-1] when there is none. *)
Definition find (s sub : string) (start : Z) : Z :=
  match String.index (Z.to_nat (from_end (len s) start)) sub s with
  | Some i => Z.of_nat i
  | None => -1
  end.

(** [s[i:j]] *)
Definition slice (s : string) (i j : Z) : string :=
  let i := Z.min (from_end (len s) i) (len s) in
  let j := Z.min (from_end (len s) j) (len s) in
  String.substring (Z.to_nat i) (Z.to_nat (j - i)) s.

(** The [start] argument of [find] as Python reads it: [None] is the
    beginning, an [int] or a [bool] is an index, and anything else is a
    [TypeError]. *)
Definition index_arg (v : pyval) : res Z :=
  match v with
  | VNone => Ok 0
  | VInt n => Ok n
  | VBool b => Ok (if b then 1 else 0)
  | _ => Raise TypeError
  end.

End Str.

(** The double quote, as a string. *)
Definition dq : string := String (ascii_of_nat 34) "".

(** ** __main__.py *)

(** The logged-in [ItchUser], as far as [__main__] reads it; the library
    [owned_games] is the mutable part and lives in the [World]. *)
Module User.
Record t := { username : string; csrf_token : string }.
End User.

Module ItchClaim.

Section Refresh.
Variable requests_get : list event -> string -> res Response.t.
Variable sale_script : string -> res ItchSale.sale_data.
Variable strptime : string -> res datetime.
Variable games_on_page : string -> list Game.t.
Variable listing : list event -> string -> Z -> list Game.t.
Variable games_dir : string.

Let get_one_sale :=
  DiskManager.get_one_sale requests_get sale_script strptime games_on_page games_dir.
Let get_all_sales :=
  DiskManager.get_all_sales requests_get sale_script strptime games_on_page games_dir.
Let get_all_sale_pages := DiskManager.get_all_sale_pages listing games_dir.

Definition categories : list string :=
  ["games"; "tools"; "game-assets"; "comics"; "books"; "physical-games";
   "soundtracks"; "game-mods"; "misc"].

(** The [for category in ...] of lines 96-99; a walk that is still
    going when the fuel runs out keeps the later ones from starting. *)
Fixpoint collect (fuel : nat) (cs : list string) : M bool :=
  match cs with
  | [] => ret true
  | category :: rest =>
      print ("Collecting sales from " +:+ category +:+ " list") ;;;
      finished <- get_all_sale_pages fuel category 1 ;;
      if (finished : bool) then collect fuel rest else ret false
  end.

(** [refresh_sale_cache]; [sales = None] is the empty list, and the
    answer says whether the loops of the crawler came to their end
    within the fuel. *)
Definition refresh_sale_cache (fuel : nat) (sales : list Z) : M bool :=
  let resume := 1 in
  match sales with
  | _ :: _ =>
      print "--sales flag found - refreshing only select sale pages" ;;;
      for_each sales (fun sale_id => get_one_sale sale_id ;;; ret tt) ;;;
      ret true
  | [] =>
      index <- gets resume_index ;;
      resume <- match index with
                | Some n =>
                    print ("Resuming sale downloads from " +:+ pretty n) ;;;
                    ret n
                | None =>
                    print "Resume index not found. Downloading sales from beginning" ;;;
                    ret resume
                end ;;
      walked <- get_all_sales fuel resume [] ;;
      match walked with
      | None => ret false
      | Some _ =>
          print "Updating games from sale lists, to catch updates of already known sales." ;;;
          collect fuel categories
      end
  end.
End Refresh.

Definition _owns_game (url : string) : M bool :=
  owned <- gets owned_games ;;
  ret (existsb (fun owned_url => String.eqb owned_url url) (map Game.url owned)).

(** Modelled from the spec: [ItchUser.owns_game] is not among the sources.
      Section 4.5, step 1: the local ownership check asks whether [g.url] is
    already in the Owned-Games Set, which section 3 keys by [url]. *)
Definition owns_game (game : Game.t) : M bool :=
  owned <- gets owned_games ;;
  ret (bool_decide (Game.url game ∈ map Game.url owned)).

Section SendWeb.
(** The network: the answer to a request, given the method, the URL
    and everything that happened before. *)
Variable network : list event -> string -> string -> res Response.t.
Variable user : option User.t.

Definition send (method url : string) : M Response.t :=
  fun w => (network (trace w) method url,
            set_trace (trace w ++ [Http method url]) w).

(** [self.user.s.get]: without a user the attribute access fails. *)
Definition user_send (method url : string) : M Response.t :=
  match user with
  | Some _ => send method url
  | None => raise (AttributeError "s")
  end.

(** The body of the [try] of lines 267-277: four tests in a row, each
    assigning [r] when its request type matches. *)
Definition attempt (type url : string) (r : option Response.t)
    : M (option Response.t) :=
  r <- (if String.eqb type "get" then x <- send "GET" url ;; ret (Some x) else ret r) ;;
  r <- (if String.eqb type "post" then x <- send "POST" url ;; ret (Some x) else ret r) ;;
  r <- (if String.eqb type "user_get" then x <- user_send "GET" url ;; ret (Some x) else ret r) ;;
  r <- (if String.eqb type "user_post" then x <- user_send "POST" url ;; ret (Some x) else ret r) ;;
  ret r.

(** The [while True] of [_send_web], one iteration per unit of fuel;
    [r] is the local variable ([None] while unbound), [count] the
    attempt counter.  The answer [None] says the fuel ran out with the
    loop still going. *)
Fixpoint _send_web_loop (fuel : nat) (type url : string)
    (r : option Response.t) (count : Z) : M (option Response.t) :=
  match fuel with
  | O => ret None
  | S fuel =>
      emit (Sleep 1) ;;;
      r <- try_except (attempt type url r)
             (fun e => match e with
                       | RequestException msg => Some (print msg ;;; ret r)
                       | _ => None
                       end) ;;
      match r with
      | None => raise (UnboundLocalError "r")
      | Some resp =>
          if Response.status_code resp =? 200 then ret (Some resp)
          else if Response.status_code resp =? 404 then ret (Some resp)
          else if Response.status_code resp =? 301 then ret (Some resp)
          else if Response.status_code resp =? 429 then
            emit (Sleep 10) ;;;
            _send_web_loop fuel type url r count
          else
            let count := count + 1 in
            if count =? 100 then
              print ("Too many attempts. Aborting" +:+ nl +:+ nl) ;;;
              print (pretty (Response.status_code resp)) ;;;
              print (Response.text resp) ;;;
              raise (SystemExit 1)
            else _send_web_loop fuel type url r count
      end
  end.

Definition _send_web (fuel : nat) (type url : string) : M (option Response.t) :=
  _send_web_loop fuel type url None 0.
End SendWeb.

Section Claim.
(** The methods of [ItchUser], [ItchGame] and [DiskManager] that
    [__main__] calls and the sources do not contain. *)
Variable claim_game : Game.t -> M unit.
Variable claim_reward : Game.t -> M unit.
Variable reload_owned_games : M unit.
Variable save_session : M unit.
Variable from_api : string -> M Game.t.
Variable download_from_remote_cache : string -> M (list Game.t).

Definition append_owned (game : Game.t) : M unit :=
  modify (fun w => set_owned_games (owned_games w ++ [game]) w).

Definition request {A} (method url : string) (answer : list event -> res A) : M A :=
  fun w => (answer (trace w), set_trace (trace w ++ [Http method url]) w).

(** [self.name] for a name that [ItchClaim] does not give its
    instances: [__init__] and [login] set [user] (lines 43-61 and 203)
    and [scrape_rewards] two sets and a flag (lines 716-718), so every
    other attribute is an [AttributeError], and nothing comes back from
    reading it. *)
Definition getattr (name : string) : M Empty_set := raise (AttributeError name).

(** [_claim_game] is a method of [ItchClaim] that reads the session,
    the token and the library of an [ItchUser] from [self].  Line 307
    reads [self.s] before anything is sent, inside the [try] whose bare
    [except] catches every exception; lines 313-346 need the response
    that line 307 was to bind. *)
Definition _claim_game (game : Game.t) : M unit :=
  negotiated <-
    try_except
      (s <- getattr "s" ;;
       ret (Some s))
      (fun _ => Some (print ("ERROR: Failed to check " +:+ Game.url game) ;;;
                      ret None)) ;;
  match negotiated with
  | None => ret tt
  | Some s => match s : Empty_set with end
  end.

(** The body of the [for game in games] of [claim]: the inner loop
    over the owned URLs only ever executes [continue]. *)
Definition claim_body (url : string) (claimed_games : Z) (game : Game.t) : M Z :=
  owned <- gets owned_games ;;
  for_each (map Game.url owned)
    (fun owned_url => if String.eqb owned_url url then ret tt else ret tt) ;;;
  owns <- owns_game game ;;
  if negb owns then
    claim_game game ;;;
    save_session ;;;
    ret (claimed_games + 1)
  else ret claimed_games.

Fixpoint claim_loop (url : string) (games : list Game.t) (claimed_games : Z) : M Z :=
  match games with
  | [] => ret claimed_games
  | game :: rest =>
      claimed_games <- claim_body url claimed_games game ;;
      claim_loop url rest claimed_games
  end.

Definition claim (user : option User.t) (url : string) : M unit :=
  match user with
  | None => print "You must be logged in"
  | Some _ =>
      owned <- gets owned_games ;;
      (if (length owned =? 0)%nat then
         print "User's library not found in cache. Downloading it now" ;;;
         reload_owned_games ;;;
         save_session
       else ret tt) ;;;
      print ("Downloading free games list from " +:+ url) ;;;
      games <- download_from_remote_cache url ;;
      print "Claiming games" ;;;
      claimed_games <- claim_loop url games 0 ;;
      if claimed_games =? 0 then print "No new games can be claimed."
      else ret tt
  end.

(** The [for owned_url in ...] of [claim_url]: on a match the f-string
    of line 1041 reads the local [game], which is only assigned after
    the loop, so the [return] behind it is never reached. *)
Fixpoint claim_url_scan (owned_urls : list string) (url : string) : M unit :=
  match owned_urls with
  | [] => ret tt
  | owned_url :: rest =>
      if String.eqb owned_url url then raise (UnboundLocalError "game")
      else claim_url_scan rest url
  end.

Definition claim_url (user : option User.t) (url : string) : M unit :=
  match user with
  | None => print "You must be logged in"
  | Some _ =>
      owned <- gets owned_games ;;
      (if (length owned =? 0)%nat then
         print "User's library not found in cache. Downloading it now" ;;;
         reload_owned_games ;;;
         save_session
       else ret tt) ;;;
      owned <- gets owned_games ;;
      claim_url_scan (map Game.url owned) url ;;;
      print ("Attempting to claim " +:+ url) ;;;
      game <- from_api url ;;
      claim_game game ;;;
      claim_reward game
  end.
End Claim.

(** The text between two patterns: [_substr]. *)
Definition _substr (str : string) (idx0 : pyval) (pat1 pat2 : string)
    : res (option string) :=
  match Str.index_arg idx0 with
  | Raise e => Raise e
  | Ok idx0 =>
      let idx1 := Str.find str pat1 idx0 in
      if idx1 =? -1 then Ok None
      else
        let idx1 := idx1 + Str.len pat1 in
        let idx2 := Str.find str pat2 idx1 in
        if idx2 =? -1 then Ok None
        else Ok (Some (Str.slice str idx1 idx2))
  end.

(** Lines 942-943 of [_create_report]: the two dates of a sale page;
    the second call is given the first date as the index to search
    from. *)
Definition sale_dates (text : string) : res (option string * option string) :=
  match _substr text (VInt 0) (dq +:+ "start_date" +:+ dq +:+ ":" +:+ dq) dq with
  | Raise e => Raise e
  | Ok start =>
      let idx0 := match start with Some s => VStr s | None => VNone end in
      match _substr text idx0 (dq +:+ "end_date" +:+ dq +:+ ":" +:+ dq) dq with
      | Raise e => Raise e
      | Ok end_ => Ok (start, end_)
      end
  end.

Section Scrape.
Variable network : list event -> string -> string -> res Response.t.
Variable user : option User.t.
Variable reload_owned_games : M unit.
Variable save_session : M unit.
(** [int(s)] for a string. *)
Variable int : string -> res Z.

(** [scrape_future_sales], as far as it gets: line 582 reads the local
    [scrape_page], which is only assigned below it (lines 584 and 590),
    so nothing behind that line is ever reached.  The answer [None] says
    the fuel ran out inside [_send_web]. *)
Definition scrape_future_sales (fuel : nat) : M (option unit) :=
  match user with
  | None => print "You must be logged in" ;;; ret (Some tt)
  | Some _ =>
      owned <- gets owned_games ;;
      (if (length owned =? 0)%nat then
         print "User's library not found in cache. Downloading it now" ;;;
         reload_owned_games ;;;
         save_session
       else ret tt) ;;;
      r <- _send_web network user fuel "get"
             "https://itchclaim.tmbpeter.com/data/resume_index.txt" ;;
      match r with
      | None => ret None
      | Some r =>
          scrape_limit <- lift (int (Response.text r)) ;;
          raise (UnboundLocalError "scrape_page")
      end
  end.
End Scrape.

Section Reward.
(** [c.isdigit()] for one character. *)
Variable isdigit : ascii -> bool.

(** The [while] of lines 363-364; [rest] is [item['price'][idx:]], and
    reading past the end is an [IndexError]. *)
Fixpoint first_digit (rest : string) (idx : nat) : res nat :=
  match rest with
  | EmptyString => Raise IndexError
  | String c rest => if isdigit c then Ok idx else first_digit rest (S idx)
  end.

(** Lines 362-367 of [_claim_reward]: whether the price of a reward is
    taken to be zero. *)
Definition reward_is_free (price : string) : res bool :=
  match first_digit price 0 with
  | Raise e => Raise e
  | Ok idx => Ok (String.eqb (Str.slice price (Z.of_nat idx) (Str.len price)) "0.00")
  end.
End Reward.

(** The class [_sale_item] of [make_report]. *)
Record _sale_item := {
  id : option string;
  list_ : list string;
  start : option string;
  end_ : option string
}.

(** The test of lines 894-900: [item.start < other.start] when [order]
    is true, [item.start > other.start] when it is not; a date that is
    [None] cannot be compared. *)
Definition goes_before (order : bool) (item other : _sale_item) : res bool :=
  match start item, start other with
  | Some a, Some b => Ok (if order then String.ltb a b else String.ltb b a)
  | _, _ => Raise TypeError
  end.

(** The [while] of [_sale_add]; [rest] is [list[idx:]]. *)
Fixpoint _sale_add_loop (rest : list _sale_item) (item : _sale_item) (order : bool)
    (idx : nat) : res nat :=
  match rest with
  | [] => Ok idx
  | other :: rest =>
      match goes_before order item other with
      | Raise e => Raise e
      | Ok true => Ok idx
      | Ok false => _sale_add_loop rest item order (S idx)
      end
  end.

(** [_sale_add]: the list after [list.insert(idx, item)]. *)
Definition _sale_add (list_ : list _sale_item) (item : _sale_item) (order : bool)
    : res (list _sale_item) :=
  match _sale_add_loop list_ item order 0 with
  | Raise e => Raise e
  | Ok idx => Ok (take idx list_ ++ item :: drop idx list_)
  end.

End ItchClaim.

(** ** The claim engine of ItchUser *)

Module ItchUser.

(** How the engine classifies what it did for one game, in the words of
    sections 4.5 and 7 of the spec. *)
Inductive outcome :=
| Success
| NotClaimable
| NegotiationError
| UnknownClaimFailure.

(** The home page of the origin. *)
Definition home_page : string := "https://itch.io/".

Section ClaimEngine.
(** What the spec leaves to the origin and to the session: whether an
    error list indicates an invalid game or user reference, the refresh
    of the canonical URL, the remote ownership check, the line that
    reports an outcome; the answer of the download-URL endpoint (an
    error list or a URL), the claim affordance of a download page
    (absent, or the action URL it declares) and the page a claim
    submission lands on. *)
Variable stale_link : list string -> bool.
Variable refresh_url : Game.t -> M Game.t.
Variable owns_game_online : Game.t -> M bool.
Variable report : outcome -> Game.t -> string.
Variable post_download_url : list event -> string -> string -> res (list string + string).
Variable get_download_page : list event -> string -> res (option string).
Variable post_claim : list event -> string -> string -> res string.

(** Modelled from the spec: [ItchUser.claim_game] is not among the sources.
      Section 7: every classified outcome is reported as it happens. *)
Definition classify (o : outcome) (g : Game.t) : M outcome :=
  print (report o g) ;;; ret o.

(** Modelled from the spec: [ItchUser.claim_game] is not among the sources.
      Section 4.5, step 2: POST to the game's download-URL endpoint with
    the session's CSRF token. *)
Definition negotiate (s : User.t) (g : Game.t) : M (list string + string) :=
  let url := Game.url g +:+ "/download_url" in
  ItchClaim.request "POST" url (fun tr => post_download_url tr url (User.csrf_token s)).

(** Modelled from the spec: [ItchUser.claim_game] is not among the sources.
      Section 4.5, steps 3 to 5: fetch the negotiated download page and
    locate the claim affordance, whose absence stops the claim without
    an error; POST to its action URL with the CSRF token; a landing on
    the home page is an [UnknownClaimFailure] unless a remote ownership
    check then shows the game owned, any other landing is a success;
    on success the game is appended to the Owned-Games Set. *)
Definition submit (s : User.t) (g : Game.t) (download_page : string) : M outcome :=
  claim_box <- ItchClaim.request "GET" download_page
                 (fun tr => get_download_page tr download_page) ;;
  match claim_box with
  | None => classify NotClaimable g
  | Some action =>
      landed <- ItchClaim.request "POST" action
                  (fun tr => post_claim tr action (User.csrf_token s)) ;;
      if String.eqb landed home_page then
        owned <- owns_game_online g ;;
        if (owned : bool) then
          ItchClaim.append_owned g ;;;
          classify Success g
        else classify UnknownClaimFailure g
      else
        ItchClaim.append_owned g ;;;
        classify Success g
  end.

(** Modelled from the spec: [ItchUser.claim_game] is not among the sources.
      Section 4.5, steps 2 to 5; step 1 and the persisting of the
    snapshot are what the callers in the sources do around the call
    (lines 131 and 135 of [claim]).  An answer with errors that indicate
    an invalid game or user reference is a stale link: the canonical URL
    is refreshed once and step 2 retried exactly once more; any other
    answer with errors is fatal for this game. *)
Definition claim_game (s : User.t) (g : Game.t) : M outcome :=
  answer <- negotiate s g ;;
  match answer with
  | inr download_page => submit s g download_page
  | inl errors =>
      if stale_link errors then
        g <- refresh_url g ;;
        answer <- negotiate s g ;;
        match answer with
        | inr download_page => submit s g download_page
        | inl _ => classify NegotiationError g
        end
      else classify NegotiationError g
  end.
End ClaimEngine.

End ItchUser.

(** * The vocabulary of the statements *)

(** The world after the constructor met a 404: one request, one line
    printed, one new instance with the given [err]. *)
Definition not_found_world (n : Z) (err : string) (w : World) : World :=
  set_sales
    (sales w ++ [{| Sale.id := n; Sale.end_ := None; Sale.start := None;
                    Sale.err := Some err; Sale.soup := None |}])
    (set_trace
       (trace w ++ [Http "GET" (sale_url n);
                    Print ("Sale page #" +:+ pretty n +:+ ": 404 Not Found")])
       w).

Definition not_found_err (n : Z) (r : Response.t) : string :=
  if String.eqb (Response.url r) (sale_url n)
  then "NO_MORE_SALES_AVAILABLE" else "404_NOT_FOUND".

(** The exception of line 49. *)
Definition sale_id_mismatch (n : Z) : exn :=
  ValueError ("Sale ID mismatch in parsed <script> tag. Excepted " +:+ pretty n).

(** The world after the constructor parsed a page that declares another
    ID: one request, and one instance left behind on the heap that
    nothing refers to. *)
Definition mismatch_world (n : Z) (r : Response.t) (st en : datetime) (w : World)
    : World :=
  set_sales
    (sales w ++ [{| Sale.id := n; Sale.end_ := Some en; Sale.start := Some st;
                    Sale.err := None; Sale.soup := Some (Response.text r) |}])
    (set_trace (trace w ++ [Http "GET" (sale_url n)]) w).

Definition log (line : string) (w : World) : World :=
  set_trace (trace w ++ [Print line]) w.

(** The URLs requested over the network, oldest first. *)
Fixpoint http_requests (tr : list event) : list string :=
  match tr with
  | [] => []
  | Http _ url :: rest => url :: http_requests rest
  | _ :: rest => http_requests rest
  end.

(** A persisted sale record that lacks [start] or [end]. *)
Definition missing (dict : gmap string Z) : Prop :=
  dict !! "start" = None \/ dict !! "end" = None.

(** The one trace the class keeps of a page that is gone: the [err] that
    [get_data_online] sets on a 404. *)
Definition marked_removed (s : Sale.t) : bool :=
  match Sale.err s with
  | Some e => String.eqb e "NO_MORE_SALES_AVAILABLE" || String.eqb e "404_NOT_FOUND"
  | None => false
  end.

(** A sale that collapsed to one timestamp after repair. *)
Definition repaired (id : Z) (t : Z) : Sale.t :=
  {| Sale.id := id; Sale.end_ := Some (fromtimestamp t);
     Sale.start := Some (fromtimestamp t); Sale.err := Some "STATUS_UPDATED";
     Sale.soup := None |}.

(** The first line [from_dict] prints when it repairs. *)
Definition refreshing (id : Z) : string :=
  "Refreshing missing data for sale " +:+ pretty id.

(** Every run of [m], whatever it answers, takes the world along [R]. *)
Definition steps {A} (m : M A) (R : World -> World -> Prop) : Prop :=
  forall w r w', m w = (r, w') -> R w w'.

(** No request was sent and the cursor was left alone; at most one
    request was sent. *)
Definition silent (w w' : World) : Prop :=
  http_requests (trace w') = http_requests (trace w) /\
  resume_index w' = resume_index w.

Definition at_most_one (w w' : World) : Prop :=
  http_requests (trace w') = http_requests (trace w) \/
  exists url, http_requests (trace w') = http_requests (trace w) ++ [url].

(** The world after one more request, one more pause. *)
Definition sent (method url : string) (w : World) : World :=
  set_trace (trace w ++ [Http method url]) w.

Definition slept (ms : Z) (w : World) : World :=
  set_trace (trace w ++ [Sleep ms]) w.

(** The HTTP method behind a request type of [_send_web]. *)
Definition method_of (type : string) : string :=
  if String.eqb type "get" then "GET"
  else if String.eqb type "user_get" then "GET"
  else "POST".

(** The request types of [_send_web], and the statuses it returns at
    once. *)
Definition request_types : list string := ["get"; "post"; "user_get"; "user_post"].

Definition returned_at_once (status : Z) : Prop :=
  status = 200 \/ status = 404 \/ status = 301.

Definition retried_with_count (status : Z) : Prop :=
  status <> 200 /\ status <> 404 /\ status <> 301 /\ status <> 429.

(** The three lines printed before [exit(1)]. *)
Definition aborted (resp : Response.t) (w : World) : World :=
  log (Response.text resp)
    (log (pretty (Response.status_code resp))
       (log ("Too many attempts. Aborting" +:+ nl +:+ nl) w)).

(** An upload div in which every lookup of [parse_download_div]
    succeeds, for a given date parser. *)
Definition well_formed (strptime : string -> res datetime) (div : ItchGame.upload_div)
    : Prop :=
  is_ok (ItchGame.data_upload_id div) = true /\
  (exists title, ItchGame.upload_date_title div = Ok title /\
                 is_ok (strptime title) = true) /\
  is_ok (ItchGame.strong_name div) = true /\
  is_ok (ItchGame.file_size_text div) = true.

(** A fresh instance, before the constructor fetches. *)
Definition blank (n : Z) : Sale.t :=
  {| Sale.id := n; Sale.end_ := None; Sale.start := None; Sale.err := None;
     Sale.soup := None |}.

(** Exactly the page of promotion [n] was requested, and the cursor was
    left alone. *)
Definition fetched (n : Z) (w w' : World) : Prop :=
  http_requests (trace w') = http_requests (trace w) ++ [sale_url n] /\
  resume_index w' = resume_index w.

(** The instance at address [l] carries no [err]. *)
Definition unmarked (l : nat) (w : World) : Prop :=
  exists s, sales w !! l = Some s /\ Sale.err s = None.

Definition keeps_unmarked (l : nat) (w w' : World) : Prop :=
  unmarked l w -> unmarked l w'.

(** The answer that ends the walk at [n]: not found, and no redirect. *)
Definition no_more (n : Z) (answer : res Response.t) : Prop :=
  exists r, answer = Ok r /\ Response.status_code r = 404 /\
            Response.url r = sale_url n.

(** The class cache was left alone. *)
Definition keeps_cache (w w' : World) : Prop := cached_sales w' = cached_sales w.

(** The instance the constructor builds from what it was given, without
    a request. *)
Definition built (id : Z) (st en : datetime) : Sale.t :=
  {| Sale.id := id; Sale.end_ := Some en; Sale.start := Some st;
     Sale.err := None; Sale.soup := None |}.

(** The instance a repair leaves when the page is there. *)
Definition refreshed (id : Z) (st en : datetime) (text : string) : Sale.t :=
  {| Sale.id := id; Sale.end_ := Some en; Sale.start := Some st;
     Sale.err := Some "STATUS_UPDATED"; Sale.soup := Some text |}.

(** How deep the lists and tuples of a value are nested. *)
Fixpoint depth (v : pyval) : nat :=
  match v with
  | VList l => S (list_max (map depth l))
  | VTuple l => S (list_max (map depth l))
  | _ => 0
  end.

(** The world after the constructor parsed a page that declares its own
    ID: one request and the new instance. *)
Definition found_world (n : Z) (r : Response.t) (st en : datetime) (w : World)
    : World :=
  set_sales
    (sales w ++ [{| Sale.id := n; Sale.end_ := Some en; Sale.start := Some st;
                    Sale.err := None; Sale.soup := Some (Response.text r) |}])
    (set_trace (trace w ++ [Http "GET" (sale_url n)]) w).

(** The request for one file of a game. *)
Definition file_request (g : Game.t) (id : Z) : event :=
  Http "POST" (Game.url g +:+ "/file/" +:+ pretty id).

(** [p] occurs in [s] at index [k]. *)
Definition occurs (p s : string) (k : nat) : Prop :=
  exists a b, s = a +:+ p +:+ b /\ String.length a = k.

(** The order of a report: by start date, ascending when [order] is true
    and descending when it is not. *)
Definition in_order (order : bool) (a b : ItchClaim._sale_item) : Prop :=
  match ItchClaim.start a, ItchClaim.start b with
  | Some x, Some y => if order then String.le x y else String.le y x
  | _, _ => False
  end.

Definition same_start (a b : ItchClaim._sale_item) : Prop :=
  ItchClaim.start a = ItchClaim.start b.

(** Nothing but the trace changed, and every request added to it was
    this one. *)
Definition only_asks (method url : string) (w w' : World) : Prop :=
  exists events,
    w' = set_trace (trace w ++ events) w /\
    Forall (fun e => match e with
                     | Http m u => m = method /\ u = url
                     | Listing _ _ => False
                     | _ => True
                     end) events.

(** No character of the string is a digit. *)
Fixpoint no_digit (isdigit : ascii -> bool) (s : string) : Prop :=
  match s with
  | EmptyString => True
  | String c rest => isdigit c = false /\ no_digit isdigit rest
  end.

(** * Concrete inputs *)

(** A sale from second 10 to second 20. *)
Definition sale_10_20 : Sale.t :=
  {| Sale.id := 42; Sale.end_ := Some (fromtimestamp 20);
     Sale.start := Some (fromtimestamp 10); Sale.err := None; Sale.soup := None |}.

(** A game of sale 42, its price 4.99 as a double. *)
Definition game_7 : Game.t :=
  {| Game.id := 7; Game.name := "Seven"; Game.url := "https://dev.itch.io/seven";
     Game.price := Some 4617304258962532598; Game.claimable := true;
     Game.sale_id := VInt 42; Game.sale_end := fromtimestamp 1704672000;
     Game.cover_image := "https://img.itch.zone/seven.png" |}.

(** An origin where every page is gone, without a redirect and with one
    to the home page; one where every page declares promotion 41; the
    parsers of the script tag and of its dates. *)
Definition origin_404 : list event -> string -> res Response.t :=
  fun _ url => Ok {| Response.status_code := 404; Response.url := url;
                     Response.text := "" |}.

Definition origin_404_redirected : list event -> string -> res Response.t :=
  fun _ _ => Ok {| Response.status_code := 404; Response.url := "https://itch.io/";
                   Response.text := "" |}.

Definition origin_200 : list event -> string -> res Response.t :=
  fun _ url => Ok {| Response.status_code := 200; Response.url := url;
                     Response.text := "page" |}.

Definition script_41 : string -> res ItchSale.sale_data :=
  fun _ => Ok {| ItchSale.start_date := "2024-01-01T00:00:00Z";
                 ItchSale.end_date := "2024-01-08T00:00:00Z";
                 ItchSale.data_id := 41 |}.

Definition strptime_2024 : string -> res datetime :=
  fun date => if String.eqb date "2024-01-01T00:00:00Z"
              then Ok (fromtimestamp 1704067200)
              else Ok (fromtimestamp 1704672000).

Definition no_games : string -> list Game.t := fun _ => [].

(** A record written before [end] was stored. *)
Definition legacy_record : gmap string Z := <["id" := 7]> (<["start" := 100]> ∅).

Definition get_one_sale_at (origin : list event -> string -> res Response.t) (n : Z)
    : res DiskManager.outcome * World :=
  DiskManager.get_one_sale origin script_41 strptime_2024 no_games "games" n empty_world.

(** A user, a claim that always succeeds, and a library that holds
    [game_7]. *)
Definition user_1 : User.t := {| User.username := "one"; User.csrf_token := "token" |}.

Definition always_claims : Game.t -> M unit := ItchClaim.append_owned.

Definition owning_7 : World := set_owned_games [game_7] empty_world.

(** An origin for the claim engine: the negotiation gives a download
    page, as a parsed dict and as the spec has it; the page has a claim
    affordance; and the claim POST lands on the home page or on the
    game's page. *)
Definition negotiates : list event -> string -> string -> res Negotiation.t :=
  fun _ _ _ => Ok {| Negotiation.errors := None;
                     Negotiation.url := Some "https://dev.itch.io/seven/download/key" |}.

Definition negotiates_page : list event -> string -> string -> res (list string + string) :=
  fun _ _ _ => Ok (inr "https://dev.itch.io/seven/download/key").

Definition page_with_claim_box : list event -> string -> res (option string) :=
  fun _ _ => Ok (Some "https://dev.itch.io/seven/claim").

Definition lands_home : list event -> string -> string -> res string :=
  fun _ _ _ => Ok "https://itch.io/".

Definition lands_on_game : list event -> string -> string -> res string :=
  fun _ _ _ => Ok "https://dev.itch.io/seven".

(** A reading of the error list, a refresh that finds the URL as it
    was, and a line per outcome. *)
Definition invalid_reference (errors : list string) : bool :=
  bool_decide ("invalid game" ∈ errors \/ "invalid user" ∈ errors).

Definition same_url : Game.t -> M Game.t := fun g => ret g.

Definition outcome_line (o : ItchUser.outcome) (g : Game.t) : string :=
  match o with
  | ItchUser.Success => "claimed "
  | ItchUser.NotClaimable => "not claimable "
  | ItchUser.NegotiationError => "negotiation error "
  | ItchUser.UnknownClaimFailure => "unknown claim failure "
  end +:+ Game.url g.

(** A network that answers every request with the same status. *)
Definition answers (status : Z) : list event -> string -> string -> res Response.t :=
  fun _ _ url => Ok {| Response.status_code := status; Response.url := url;
                       Response.text := "body" |}.

(** A session with its token; a negotiation that fails; one that gives
    a download page with two uploads. *)
Definition session_1 : gmap string string := <["itchio_token" := "token"]> ∅.

Definition refuses : list event -> string -> string -> res Negotiation.t :=
  fun _ _ _ => Ok {| Negotiation.errors := Some ["invalid game"];
                     Negotiation.url := None |}.

Definition upload_div_1 : ItchGame.upload_div :=
  {| ItchGame.data_upload_id := Ok 11;
     ItchGame.upload_date_title := Ok "01 January 2024 @ 00:00";
     ItchGame.download_platforms := Some ["icon icon-tux"; "tux"; "windows8"];
     ItchGame.strong_name := Ok "seven.zip";
     ItchGame.file_size_text := Ok "7 MB" |}.

Definition two_uploads : list event -> string -> res (list ItchGame.upload_div) :=
  fun _ _ => Ok [upload_div_1; upload_div_1].

Definition file_url : list event -> string -> string -> res string :=
  fun _ url _ => Ok (url +:+ "?cdn").

Definition strptime_upload : string -> res datetime :=
  fun _ => Ok (fromtimestamp 1704067200).

(** An origin with promotions 1 and 2 and the frontier at 3: each page
    carries its own number as its text. *)
Definition origin_frontier_3 : list event -> string -> res Response.t :=
  fun _ url =>
    if String.eqb url (sale_url 1)
    then Ok {| Response.status_code := 200; Response.url := url; Response.text := "1" |}
    else if String.eqb url (sale_url 2)
    then Ok {| Response.status_code := 200; Response.url := url; Response.text := "2" |}
    else Ok {| Response.status_code := 404; Response.url := url; Response.text := "" |}.

Definition script_of_page : string -> res ItchSale.sale_data :=
  fun text =>
    Ok {| ItchSale.start_date := "2024-01-01T00:00:00Z";
          ItchSale.end_date := "2024-01-08T00:00:00Z";
          ItchSale.data_id := if String.eqb text "1" then 1
                              else if String.eqb text "2" then 2 else 41 |}.

Definition no_listing : list event -> string -> Z -> list Game.t := fun _ _ _ => [].

Definition resumed_at_1 : World := set_resume_index (Some 1) empty_world.

Definition crawl_from_1 : res bool * World :=
  ItchClaim.refresh_sale_cache origin_frontier_3 script_of_page strptime_2024
    no_games no_listing "games" 5 [] resumed_at_1.

(** A response with status 200. *)
Definition response_200 : Response.t :=
  {| Response.status_code := 200; Response.url := "https://itch.io/s/1";
     Response.text := "body" |}.

(** A response with status 429, and the world after one request. *)
Definition response_429 : Response.t :=
  {| Response.status_code := 429; Response.url := "https://itch.io/s/1";
     Response.text := "slow down" |}.

Definition asked_once : World := sent "GET" "https://itch.io/s/1" empty_world.

(** A network that answers 429 once and is out of reach from then on. *)
Definition answers_once_429 : list event -> string -> string -> res Response.t :=
  fun tr _ url =>
    match http_requests tr with
    | [] => Ok {| Response.status_code := 429; Response.url := url;
                  Response.text := "slow down" |}
    | _ => Raise (RequestException "connection reset")
    end.

(** A legacy record of promotion 2. *)
Definition legacy_record_2 : gmap string Z := <["id" := 2]> (<["start" := 100]> ∅).

(** A record that holds only its ID, and a complete one. *)
Definition bare_record : gmap string Z := <["id" := 7]> ∅.

Definition complete_record : gmap string Z :=
  <["id" := 7]> (<["start" := 100]> (<["end" := 200]> ∅)).

(** A sale whose dates fall between two seconds. *)
Definition sale_between_seconds : Sale.t :=
  {| Sale.id := 42; Sale.end_ := Some 20500000; Sale.start := Some (-1500000);
     Sale.err := None; Sale.soup := None |}.

(** A game with another ID. *)
Definition game_8 : Game.t :=
  {| Game.id := 8; Game.name := "Eight"; Game.url := "https://dev.itch.io/eight";
     Game.price := None; Game.claimable := true;
     Game.sale_id := VInt 42; Game.sale_end := fromtimestamp 1704672000;
     Game.cover_image := "https://img.itch.zone/eight.png" |}.

(** An upload div without its download button. *)
Definition upload_div_no_button : ItchGame.upload_div :=
  {| ItchGame.data_upload_id := Raise (AttributeError "attrs");
     ItchGame.upload_date_title := Ok "01 January 2024 @ 00:00";
     ItchGame.download_platforms := None;
     ItchGame.strong_name := Ok "eight.zip";
     ItchGame.file_size_text := Ok "8 MB" |}.

Definition one_bad_upload : list event -> string -> res (list ItchGame.upload_div) :=
  fun _ _ => Ok [upload_div_1; upload_div_no_button].

(** A link as a listing page has it, and the script of a sale page. *)
Definition page_link : string :=
  "<a href=" +:+ dq +:+ "https://dev.itch.io/seven" +:+ dq +:+ ">Seven</a>".

Definition sale_page_json : string :=
  "{" +:+ dq +:+ "start_date" +:+ dq +:+ ":" +:+ dq +:+ "2024-01-01" +:+ dq +:+ ","
  +:+ dq +:+ "end_date" +:+ dq +:+ ":" +:+ dq +:+ "2024-01-08" +:+ dq +:+ "}".

(** Items of a report. *)
Definition sale_item_of (url start : string) : ItchClaim._sale_item :=
  {| ItchClaim.id := Some url; ItchClaim.list_ := []; ItchClaim.start := Some start;
     ItchClaim.end_ := None |}.

Definition january : ItchClaim._sale_item := sale_item_of "https://itch.io/s/1" "2024-01-01".
Definition february : ItchClaim._sale_item := sale_item_of "https://itch.io/s/2" "2024-02-01".
Definition march : ItchClaim._sale_item := sale_item_of "https://itch.io/s/3" "2024-03-01".

Definition undated : ItchClaim._sale_item :=
  {| ItchClaim.id := Some "https://itch.io/s/4"; ItchClaim.list_ := [];
     ItchClaim.start := None; ItchClaim.end_ := None |}.

(** [isdigit] on ASCII. *)
Definition ascii_digit (c : ascii) : bool := bool_decide (48 <= nat_of_ascii c <= 57)%nat.

(** * Properties *)

(** ** Running the monad *)

Lemma lookup_last {A} (h : list A) (x : A) : (h ++ [x]) !! length h = Some x.
Proof. by rewrite list_lookup_middle. Qed.

Lemma insert_last {A} (h : list A) (x y : A) :
  <[length h := y]> (h ++ [x]) = h ++ [y].
Proof. rewrite insert_app_r_alt by lia. by rewrite Nat.sub_diag. Qed.

Lemma fromtimestamp_int_timestamp (d : datetime) :
  whole_second d -> fromtimestamp (int_timestamp d) = d.
Proof.
  unfold whole_second, fromtimestamp, int_timestamp. intros H.
  pose proof (Z.quot_rem' d 1000000). lia.
Qed.

Ltac world_eq :=
  unfold set_trace, set_sales, set_cached_sales, set_files, set_sale_files,
    set_resume_index, set_owned_games; cbn;
  rewrite <- ?app_assoc; cbn; try reflexivity.

(** ** ItchSale: the status of a sale *)

Section SaleStatus.
Variables (now : datetime) (s : Sale.t) (st en : datetime).
Hypothesis Hstart : Sale.start s = Some st.
Hypothesis Hend : Sale.end_ s = Some en.

Lemma is_active_eq : ItchSale.is_active now s = Ok (now <? en).
Proof. unfold ItchSale.is_active. rewrite Hend. by destruct (now <? en). Qed.

Lemma is_upcoming_eq : ItchSale.is_upcoming now s = Ok (now <? st).
Proof. unfold ItchSale.is_upcoming. by rewrite Hstart. Qed.

(** C3, as the code has it: [is_upcoming] holds exactly when
    [now < start]; [is_active] holds exactly when [now < end], whatever
    [start] is, so it never holds from [end] on; a sale is active and not
    upcoming exactly when [start <= now < end], and neither active nor
    upcoming exactly when [end <= now] and [start <= now]. *)
Theorem sale_status :
  (ItchSale.is_upcoming now s = Ok true <-> now < st) /\
  (ItchSale.is_active now s = Ok true <-> now < en) /\
  (en <= now -> ItchSale.is_active now s = Ok false) /\
  (ItchSale.is_active now s = Ok true /\ ItchSale.is_upcoming now s = Ok false
     <-> st <= now < en) /\
  (ItchSale.is_active now s = Ok false /\ ItchSale.is_upcoming now s = Ok false
     <-> en <= now /\ st <= now).
Proof.
  rewrite is_active_eq, is_upcoming_eq.
  destruct (Z.ltb_spec now en), (Z.ltb_spec now st);
    repeat split; intros; try lia; try congruence; try tauto;
    match goal with
    | H : _ /\ _ |- _ => destruct H; try congruence; try lia
    end.
Qed.
End SaleStatus.

Lemma sale_status_witness :
  ItchSale.is_active (fromtimestamp 15) sale_10_20 = Ok true /\
  ItchSale.is_upcoming (fromtimestamp 15) sale_10_20 = Ok false.
Proof.
  apply (sale_status (fromtimestamp 15) sale_10_20 (fromtimestamp 10)
           (fromtimestamp 20) eq_refl eq_refl).
  vm_compute. split; [intros H; discriminate H | reflexivity].
Defined.

(** C3 as stated fails: five seconds before its start the sale is
    reported active. *)
Lemma is_active_before_start :
  fromtimestamp 5 < fromtimestamp 10 /\
  ~ (fromtimestamp 10 <= fromtimestamp 5 < fromtimestamp 20) /\
  ItchSale.is_active (fromtimestamp 5) sale_10_20 = Ok true.
Proof. vm_compute. repeat split; try reflexivity. intros [H _]. by apply H. Qed.

(** ** ItchGame: the disk cache *)

Section DiskCache.
Variable games_dir : string.

Lemma load_after_save (g : Game.t) (w : World) :
  ItchGame.load_from_disk (ItchGame.get_default_game_filename games_dir g)
    (snd (ItchGame.save_to_disk games_dir g w))
  = (Ok {| Game.id := Game.id g;
           Game.name := Game.name g;
           Game.url := Game.url g;
           Game.price := json_float <$> Game.price g;
           Game.claimable := Game.claimable g;
           Game.sale_id := VTuple [json_loads (json_dumps (Game.sale_id g))];
           Game.sale_end := fromtimestamp (int_timestamp (Game.sale_end g));
           Game.cover_image := Game.cover_image g |},
     snd (ItchGame.save_to_disk games_dir g w)).
Proof.
  unfold ItchGame.load_from_disk, ItchGame.save_to_disk, bind, gets, modify, ret.
  cbn. by rewrite lookup_insert_eq.
Qed.

(** C1, what the code does: a game with an integer [sale_id], a
    whole-second [sale_end] and a price that is a number is saved, and
    loading its file gives every attribute back but [sale_id], which
    comes back as the one-element tuple around the integer. *)
Theorem load_after_save_wraps_sale_id (g : Game.t) (n : Z) (w : World) :
  Game.sale_id g = VInt n ->
  whole_second (Game.sale_end g) ->
  json_float <$> Game.price g = Game.price g ->
  let saved := ItchGame.save_to_disk games_dir g w in
  let loaded := ItchGame.load_from_disk
                  (ItchGame.get_default_game_filename games_dir g) (snd saved) in
  fst saved = Ok tt /\
  fst loaded = Ok (Game.set_sale_id (VTuple [VInt n]) g) /\
  Game.set_sale_id (VTuple [VInt n]) g <> g.
Proof.
  intros Hid Hend Hprice saved loaded. subst saved loaded.
  rewrite load_after_save. split; [reflexivity|]. split.
  - cbn [fst]. rewrite Hprice, Hid, (fromtimestamp_int_timestamp _ Hend).
    by destruct g.
  - intros Heq. apply (f_equal Game.sale_id) in Heq. cbn in Heq.
    rewrite Hid in Heq. discriminate Heq.
Qed.
End DiskCache.

Lemma load_after_save_wraps_sale_id_witness :
  fst (ItchGame.load_from_disk (ItchGame.get_default_game_filename "games" game_7)
         (snd (ItchGame.save_to_disk "games" game_7 empty_world)))
  = Ok (Game.set_sale_id (VTuple [VInt 42]) game_7).
Proof.
  apply (load_after_save_wraps_sale_id "games" game_7 42 empty_world);
    vm_compute; reflexivity.
Defined.

(** ** ItchSale: serialize and from_dict *)

Section SaleRoundTrip.
Variable requests_get : list event -> string -> res Response.t.
Variable sale_script : string -> res ItchSale.sale_data.
Variable strptime : string -> res datetime.

(** The Sale half of C1: a sale with whole-second [start] and [end] is
    serialized, and [from_dict] builds from the dict, without a request, a
    new instance with the same [id], [start] and [end]. *)
Lemma from_dict_serialize (s : Sale.t) (st en : datetime) (w : World) :
  Sale.start s = Some st -> Sale.end_ s = Some en ->
  whole_second st -> whole_second en ->
  exists d,
    ItchSale.serialize s = Ok d /\
    ItchSale.from_dict requests_get sale_script strptime d w
    = (Ok (length (sales w)),
       set_sales (sales w ++ [{| Sale.id := Sale.id s; Sale.end_ := Some en;
                                 Sale.start := Some st; Sale.err := None;
                                 Sale.soup := None |}]) w).
Proof.
  intros Hst Hen Wst Wen. unfold ItchSale.serialize. rewrite Hst, Hen.
  eexists. split; [reflexivity|].
  unfold ItchSale.from_dict, ItchSale.getitem, try_except, bind.
  rewrite lookup_insert_eq. cbn.
  rewrite lookup_insert_ne by done. rewrite lookup_insert_eq. cbn.
  do 2 (rewrite lookup_insert_ne by done). rewrite lookup_insert_eq. cbn.
  by rewrite !fromtimestamp_int_timestamp.
Qed.
End SaleRoundTrip.

(** ** ItchSale and the crawler: a page that is not found *)

Section Crawler.
Variable requests_get : list event -> string -> res Response.t.
Variable sale_script : string -> res ItchSale.sale_data.
Variable strptime : string -> res datetime.
Variable games_on_page : string -> list Game.t.
Variable games_dir : string.

Abbreviation init := (ItchSale.init requests_get sale_script strptime).
Abbreviation get_one_sale :=
  (DiskManager.get_one_sale requests_get sale_script strptime games_on_page games_dir).
Abbreviation get_all_sales :=
  (DiskManager.get_all_sales requests_get sale_script strptime games_on_page games_dir).

Lemma init_not_found (n : Z) (w : World) (r : Response.t) :
  requests_get (trace w) (sale_url n) = Ok r ->
  Response.status_code r = 404 ->
  init n None None w = (Ok (length (sales w)), not_found_world n (not_found_err n r) w).
Proof.
  intros Hr H404.
  unfold ItchSale.init, ItchSale.get_data_online, ItchSale.get_data_online_response,
    ItchSale.alloc, ItchSale.load,
    ItchSale.http_get, ItchSale.update, bind, print, emit, modify, ret.
  cbn. rewrite lookup_last. cbn. rewrite Hr, H404. cbn.
  unfold not_found_world, not_found_err.
  destruct (String.eqb (Response.url r) (sale_url n)); cbn;
    rewrite lookup_last; cbn; rewrite insert_last; f_equal; world_eq.
Qed.

Lemma get_one_sale_not_found (n : Z) (w : World) (r : Response.t) :
  requests_get (trace w) (sale_url n) = Ok r ->
  Response.status_code r = 404 ->
  get_one_sale n w
  = (Ok (if String.eqb (Response.url r) (sale_url n)
         then DiskManager.NoMoreSalesAvailable else DiskManager.NotFoundOther),
     not_found_world n (not_found_err n r) w).
Proof.
  intros Hr H404. unfold DiskManager.get_one_sale, try_except, bind.
  rewrite (init_not_found n w r Hr H404).
  unfold ItchSale.load, not_found_world at 1. cbn. rewrite lookup_last. cbn.
  unfold not_found_err. by destruct (String.eqb (Response.url r) (sale_url n)).
Qed.

(** C6: a 404 for promotion [n] is [NO_MORE_SALES_AVAILABLE] when the
    final URL is the requested one and [404_NOT_FOUND] when it is not, one
    of the two and never both; on the first the walk ends at [n] with the
    cursor where it was, on the second the cursor moves to [n + 1] and the
    walk goes on from there. *)
Theorem not_found_classification (n : Z) (w : World) (r : Response.t)
    (fuel : nat) (processed : list Z) :
  requests_get (trace w) (sale_url n) = Ok r ->
  Response.status_code r = 404 ->
  (Response.url r = sale_url n ->
     init n None None w
       = (Ok (length (sales w)), not_found_world n "NO_MORE_SALES_AVAILABLE" w) /\
     get_one_sale n w
       = (Ok DiskManager.NoMoreSalesAvailable,
          not_found_world n "NO_MORE_SALES_AVAILABLE" w) /\
     get_all_sales (S fuel) n processed w
       = (Ok (Some (n, processed)), not_found_world n "NO_MORE_SALES_AVAILABLE" w) /\
     resume_index (not_found_world n "NO_MORE_SALES_AVAILABLE" w) = resume_index w) /\
  (Response.url r <> sale_url n ->
     init n None None w
       = (Ok (length (sales w)), not_found_world n "404_NOT_FOUND" w) /\
     get_one_sale n w
       = (Ok DiskManager.NotFoundOther, not_found_world n "404_NOT_FOUND" w) /\
     get_all_sales (S fuel) n processed w
       = get_all_sales fuel (n + 1) (processed ++ [n])
           (set_resume_index (Some (n + 1)) (not_found_world n "404_NOT_FOUND" w))) /\
  (not_found_err n r = "NO_MORE_SALES_AVAILABLE" \/ not_found_err n r = "404_NOT_FOUND") /\
  ~ (not_found_err n r = "NO_MORE_SALES_AVAILABLE" /\ not_found_err n r = "404_NOT_FOUND").
Proof.
  intros Hr H404.
  pose proof (init_not_found n w r Hr H404) as Hinit.
  pose proof (get_one_sale_not_found n w r Hr H404) as Hone.
  unfold not_found_err in *.
  destruct (String.eqb_spec (Response.url r) (sale_url n)) as [Heq|Hne].
  - split; [intros _ | split; [intros Hne; by destruct Hne | split]].
    + split; [exact Hinit | split; [exact Hone | split; [|reflexivity]]].
      cbn [DiskManager.get_all_sales]. unfold bind. by rewrite Hone.
    + by left.
    + intros [_ H]. discriminate H.
  - split; [intros Heq; by destruct Hne | split; [intros _ | split]].
    + split; [exact Hinit | split; [exact Hone |]].
      cbn [DiskManager.get_all_sales]. unfold bind at 1. by rewrite Hone.
    + by right.
    + intros [H _]. discriminate H.
Qed.

Lemma init_mismatch (n : Z) (w : World) (r : Response.t)
    (data : ItchSale.sale_data) (st en : datetime) :
  requests_get (trace w) (sale_url n) = Ok r ->
  Response.status_code r <> 404 ->
  sale_script (Response.text r) = Ok data ->
  strptime (ItchSale.start_date data) = Ok st ->
  strptime (ItchSale.end_date data) = Ok en ->
  ItchSale.data_id data <> n ->
  init n None None w = (Raise (sale_id_mismatch n), mismatch_world n r st en w).
Proof.
  intros Hr H404 Hdata Hst Hen Hid.
  unfold ItchSale.init, ItchSale.get_data_online, ItchSale.get_data_online_response,
    ItchSale.alloc, ItchSale.load,
    ItchSale.http_get, ItchSale.update, bind, print, emit, modify, ret, lift, raise.
  cbn. rewrite lookup_last. cbn. rewrite Hr.
  destruct (Z.eqb_spec (Response.status_code r) 404) as [|_]; [done|].
  cbn. rewrite lookup_last. cbn. rewrite insert_last, Hdata, Hst. cbn.
  rewrite lookup_last. cbn. rewrite insert_last, Hen. cbn.
  rewrite lookup_last. cbn. rewrite insert_last.
  destruct (Z.eqb_spec n (ItchSale.data_id data)) as [Heq|_]; [by destruct Hid|].
  cbn. unfold sale_id_mismatch, mismatch_world. f_equal; world_eq.
Qed.

(** C7: when the page of promotion [n] parses and declares another ID,
    the constructor raises the mismatch and hands no instance out; the
    crawler catches it for that ID, logs it, writes neither a sale, a
    game, the cache nor the cursor, and moves on to [n + 1]. *)
Theorem sale_id_mismatch_skipped (n : Z) (w : World) (r : Response.t)
    (data : ItchSale.sale_data) (st en : datetime) (fuel : nat) (processed : list Z) :
  requests_get (trace w) (sale_url n) = Ok r ->
  Response.status_code r <> 404 ->
  sale_script (Response.text r) = Ok data ->
  strptime (ItchSale.start_date data) = Ok st ->
  strptime (ItchSale.end_date data) = Ok en ->
  ItchSale.data_id data <> n ->
  let skipped :=
    log ("Failed to parse sale page " +:+ pretty n) (mismatch_world n r st en w) in
  init n None None w = (Raise (sale_id_mismatch n), mismatch_world n r st en w) /\
  get_one_sale n w = (Ok (DiskManager.Skipped (sale_id_mismatch n)), skipped) /\
  sale_files skipped = sale_files w /\
  files skipped = files w /\
  cached_sales skipped = cached_sales w /\
  resume_index skipped = resume_index w /\
  get_all_sales (S fuel) n processed w
    = get_all_sales fuel (n + 1) (processed ++ [n])
        (set_resume_index (Some (n + 1)) skipped).
Proof.
  intros Hr H404 Hdata Hst Hen Hid skipped.
  pose proof (init_mismatch n w r data st en Hr H404 Hdata Hst Hen Hid) as Hinit.
  assert (Hone : get_one_sale n w
                 = (Ok (DiskManager.Skipped (sale_id_mismatch n)), skipped)).
  { unfold DiskManager.get_one_sale, try_except, bind at 1. by rewrite Hinit. }
  split; [exact Hinit | split; [exact Hone | repeat (split; [reflexivity|])]].
  cbn [DiskManager.get_all_sales]. unfold bind at 1. by rewrite Hone.
Qed.
End Crawler.

Lemma not_found_classification_witness :
  fst (get_one_sale_at origin_404 43) = Ok DiskManager.NoMoreSalesAvailable /\
  fst (get_one_sale_at origin_404_redirected 43) = Ok DiskManager.NotFoundOther.
Proof.
  unfold get_one_sale_at. split.
  - destruct (not_found_classification origin_404 script_41 strptime_2024
                no_games "games" 43 empty_world
                {| Response.status_code := 404; Response.url := sale_url 43;
                   Response.text := "" |} 0 [] eq_refl eq_refl) as [H _].
    destruct (H eq_refl) as (_ & H1 & _). rewrite H1. reflexivity.
  - destruct (not_found_classification origin_404_redirected script_41 strptime_2024
                no_games "games" 43 empty_world
                {| Response.status_code := 404; Response.url := "https://itch.io/";
                   Response.text := "" |} 0 [] eq_refl eq_refl) as (_ & H & _).
    assert (Hne : "https://itch.io/" <> sale_url 43) by (vm_compute; discriminate).
    destruct (H Hne) as (_ & H1 & _). rewrite H1. reflexivity.
Defined.

Lemma sale_id_mismatch_skipped_witness :
  fst (get_one_sale_at origin_200 42) = Ok (DiskManager.Skipped (sale_id_mismatch 42)).
Proof.
  unfold get_one_sale_at.
  assert (H404 : 200 <> 404) by discriminate.
  assert (Hid : 41 <> 42) by discriminate.
  destruct (sale_id_mismatch_skipped origin_200 script_41 strptime_2024
              no_games "games" 42 empty_world
              {| Response.status_code := 200; Response.url := sale_url 42;
                 Response.text := "page" |}
              {| ItchSale.start_date := "2024-01-01T00:00:00Z";
                 ItchSale.end_date := "2024-01-08T00:00:00Z";
                 ItchSale.data_id := 41 |}
              (fromtimestamp 1704067200) (fromtimestamp 1704672000) 0 []
              eq_refl H404 eq_refl eq_refl eq_refl Hid)
    as (_ & H & _).
  rewrite H. reflexivity.
Defined.

(** ** ItchSale: repairing a legacy record *)

Lemma http_requests_app (a b : list event) :
  http_requests (a ++ b) = http_requests a ++ http_requests b.
Proof.
  induction a as [|e a IH]; [reflexivity|].
  destruct e; cbn; by rewrite ?IH.
Qed.

Lemma steps_bind {A B} (m : M A) (k : A -> M B) (R1 R2 R : World -> World -> Prop) :
  steps m R1 -> (forall a, steps (k a) R2) ->
  (forall w w', R1 w w' -> R w w') ->
  (forall w w1 w2, R1 w w1 -> R2 w1 w2 -> R w w2) ->
  steps (bind m k) R.
Proof.
  intros Hm Hk Hraise Hseq w r w' H. unfold bind in H.
  destruct (m w) as [[a|e] w1] eqn:Hrun.
  - eapply Hseq; [eapply Hm | eapply Hk]; eassumption.
  - simplify_eq. eapply Hraise, Hm. eassumption.
Qed.

Lemma bind_ok {A B} (m : M A) (k : A -> M B) (w w' : World) (b : B) :
  bind m k w = (Ok b, w') ->
  exists a w1, m w = (Ok a, w1) /\ k a w1 = (Ok b, w').
Proof.
  unfold bind. destruct (m w) as [[a|e] w1]; [|done]. intros H. by exists a, w1.
Qed.

Lemma silent_refl (w : World) : silent w w.
Proof. by split. Qed.

Lemma silent_trans (w w1 w2 : World) : silent w w1 -> silent w1 w2 -> silent w w2.
Proof. unfold silent. intros [? ?] [? ?]. split; congruence. Qed.

Lemma silent_at_most_one (w w' : World) : silent w w' -> at_most_one w w'.
Proof. intros [H _]. by left. Qed.

Lemma silent_then_at_most_one (w w1 w2 : World) :
  silent w w1 -> at_most_one w1 w2 -> at_most_one w w2.
Proof. unfold silent, at_most_one. intros [-> _] H. exact H. Qed.

Lemma at_most_one_then_silent (w w1 w2 : World) :
  at_most_one w w1 -> silent w1 w2 -> at_most_one w w2.
Proof. unfold silent, at_most_one. intros H [-> _]. exact H. Qed.

Lemma steps_silent_bind {A B} (m : M A) (k : A -> M B) :
  steps m silent -> (forall a, steps (k a) silent) -> steps (bind m k) silent.
Proof.
  intros Hm Hk. eapply steps_bind; eauto using silent_trans.
Qed.

Lemma steps_ret {A} (a : A) : steps (ret a) silent.
Proof. intros w r w' H. unfold ret in H. simplify_eq. apply silent_refl. Qed.

Lemma steps_raise {A} (e : exn) : steps (raise (A := A) e) silent.
Proof. intros w r w' H. unfold raise in H. simplify_eq. apply silent_refl. Qed.

Lemma steps_lift {A} (x : res A) : steps (lift x) silent.
Proof. intros w r w' H. unfold lift in H. simplify_eq. apply silent_refl. Qed.

Lemma steps_print (line : string) : steps (print line) silent.
Proof.
  intros w r w' H. unfold print, emit, modify in H. simplify_eq.
  unfold silent. cbn. rewrite http_requests_app. cbn. by rewrite app_nil_r.
Qed.

Lemma steps_listing (category : string) (page : Z) :
  steps (emit (Listing category page)) silent.
Proof.
  intros w r w' H. unfold emit, modify in H. simplify_eq.
  unfold silent. cbn. rewrite http_requests_app. cbn. by rewrite app_nil_r.
Qed.

Lemma steps_gets {A} (f : World -> A) : steps (gets f) silent.
Proof. intros w r w' H. unfold gets in H. simplify_eq. apply silent_refl. Qed.

Lemma steps_files (f : World -> gmap string GameFile.t) :
  steps (modify (fun w => set_files (f w) w)) silent.
Proof. intros w r w' H. unfold modify in H. simplify_eq. by split. Qed.

Lemma steps_sale_files (f : World -> gmap Z (gmap string Z)) :
  steps (modify (fun w => set_sale_files (f w) w)) silent.
Proof. intros w r w' H. unfold modify in H. simplify_eq. by split. Qed.

Lemma steps_save_to_disk (games_dir : string) (g : Game.t) :
  steps (ItchGame.save_to_disk games_dir g) silent.
Proof. apply steps_files. Qed.

Lemma steps_load (self : nat) : steps (ItchSale.load self) silent.
Proof.
  intros w r w' H. unfold ItchSale.load in H.
  destruct (sales w !! self); simplify_eq; apply silent_refl.
Qed.

Lemma steps_update (self : nat) (f : Sale.t -> Sale.t) :
  steps (ItchSale.update self f) silent.
Proof.
  intros w r w' H. unfold ItchSale.update in H.
  destruct (sales w !! self); simplify_eq; by split.
Qed.

Lemma steps_getitem (dict : gmap string Z) (key : string) :
  steps (ItchSale.getitem dict key) silent.
Proof.
  unfold ItchSale.getitem. destruct (dict !! key); [apply steps_ret | apply steps_raise].
Qed.

Lemma steps_alloc (s : Sale.t) : steps (ItchSale.alloc s) silent.
Proof. intros w r w' H. unfold ItchSale.alloc in H. simplify_eq. by split. Qed.

Lemma steps_cache (f : World -> gmap Z nat) :
  steps (modify (fun w => set_cached_sales (f w) w)) silent.
Proof. intros w r w' H. unfold modify in H. simplify_eq. by split. Qed.

Lemma steps_for_each {A} (l : list A) (body : A -> M unit) :
  (forall x, steps (body x) silent) -> steps (for_each l body) silent.
Proof.
  intros Hbody. induction l as [|x rest IH]; cbn [for_each].
  - apply steps_ret.
  - apply steps_silent_bind; [apply Hbody | intros _; exact IH].
Qed.

Create HintDb steps.
#[local] Hint Resolve steps_ret steps_raise steps_lift steps_print steps_load
  steps_update steps_getitem steps_alloc steps_cache steps_listing steps_gets
  steps_files steps_sale_files steps_save_to_disk : steps.

Ltac silent_steps :=
  repeat first
    [ apply steps_silent_bind; [| intros ?]
    | solve [auto with steps]
    | match goal with
      | |- steps (if ?b then _ else _) _ => destruct b
      | |- steps (match ?x with _ => _ end) _ => destruct x
      end ].

Section Repair.
Variable requests_get : list event -> string -> res Response.t.
Variable sale_script : string -> res ItchSale.sale_data.
Variable strptime : string -> res datetime.

Abbreviation init := (ItchSale.init requests_get sale_script strptime).
Abbreviation from_dict := (ItchSale.from_dict requests_get sale_script strptime).

Lemma from_dict_missing (dict : gmap string Z) (id : Z) (w : World) :
  dict !! "id" = Some id -> missing dict ->
  from_dict dict w
  = match cached_sales w !! id with
    | Some cached => (Ok cached, log "Found in cache" (log (refreshing id) w))
    | None =>
        (sale <- init id None None ;;
         s <- ItchSale.load sale ;;
         (if ItchSale.truthy (Sale.err s) then
            match dict !! "end" with
            | None =>
                st <- ItchSale.getitem dict "start" ;;
                ItchSale.update sale (Sale.set_start (Some (fromtimestamp st))) ;;;
                ItchSale.update sale (Sale.set_end (Some (fromtimestamp st))) ;;;
                print ("Warning: " +:+ pretty id +:+
                       " was removed from itch.io. Setting it's end date to it's start date")
            | Some en =>
                match dict !! "start" with
                | None =>
                    ItchSale.update sale (Sale.set_end (Some (fromtimestamp en))) ;;;
                    ItchSale.update sale (Sale.set_start (Some (fromtimestamp en))) ;;;
                    print ("Warning: " +:+ pretty id +:+
                           " was removed from itch.io. Setting it's start date to it's end date")
                | Some _ => ret tt
                end
            end
          else ret tt) ;;;
         ItchSale.update sale (Sale.set_err (Some "STATUS_UPDATED")) ;;;
         modify (fun w => set_cached_sales (<[id := sale]> (cached_sales w)) w) ;;;
         ret sale) (log (refreshing id) w)
    end.
Proof.
  intros Hid Hmiss.
  unfold ItchSale.from_dict, ItchSale.getitem at 1. rewrite Hid.
  unfold bind at 1, ret at 1, try_except.
  assert (Hbody : exists k,
    (st <- ItchSale.getitem dict "start" ;;
     en <- ItchSale.getitem dict "end" ;;
     init id (Some (fromtimestamp en)) (Some (fromtimestamp st))) w
    = (Raise (KeyError k), w)).
  { unfold ItchSale.getitem, bind, raise. destruct Hmiss as [H|H].
    - rewrite H. by eexists.
    - destruct (dict !! "start"); cbn; rewrite ?H; by eexists. }
  destruct Hbody as [k Hbody]. rewrite Hbody.
  unfold bind at 1, print at 1, emit, modify. cbn.
  unfold bind at 1, gets. cbn.
  destruct (cached_sales w !! id) as [cached|]; [|reflexivity].
  unfold bind, print, emit, modify, ret. cbn. f_equal.
Qed.

Ltac run_in H :=
  unfold bind, ret, raise, lift, gets, modify, print, emit, ItchSale.update,
    ItchSale.load, ItchSale.getitem in H; cbn in H.

Lemma steps_http_get (url : string) :
  steps (ItchSale.http_get requests_get url) at_most_one.
Proof.
  intros w r w' H. unfold ItchSale.http_get in H. simplify_eq.
  right. exists url. cbn. by rewrite http_requests_app.
Qed.

Lemma get_data_online_requests (self : nat) :
  steps (ItchSale.get_data_online requests_get sale_script strptime self) at_most_one.
Proof.
  unfold ItchSale.get_data_online.
  eapply steps_bind; [apply steps_load | | apply silent_at_most_one
                     | apply silent_then_at_most_one].
  intros s.
  eapply steps_bind; [apply steps_http_get | | auto | apply at_most_one_then_silent].
  intros r. unfold ItchSale.get_data_online_response. silent_steps.
Qed.

(** The constructor sends at most one request. *)
Lemma init_requests (id : Z) (en st : option datetime) :
  steps (init id en st) at_most_one.
Proof.
  unfold ItchSale.init.
  eapply steps_bind; [apply steps_alloc | | apply silent_at_most_one
                     | apply silent_then_at_most_one].
  intros self.
  assert (Hfetch : steps (ItchSale.get_data_online requests_get sale_script strptime self
                          ;;; ret self) at_most_one).
  { eapply steps_bind; [apply get_data_online_requests | | auto
                       | apply at_most_one_then_silent].
    intros _. apply steps_ret. }
  destruct st, en; try exact Hfetch.
  intros w r w' H. apply silent_at_most_one. by eapply steps_ret.
Qed.

Lemma from_dict_caches (dict : gmap string Z) (id : Z) (w w' : World) (l : nat) :
  dict !! "id" = Some id -> missing dict ->
  from_dict dict w = (Ok l, w') ->
  cached_sales w' !! id = Some l.
Proof.
  intros Hid Hmiss H. rewrite (from_dict_missing dict id w Hid Hmiss) in H.
  destruct (cached_sales w !! id) as [cached|] eqn:Hc.
  - by simplify_eq.
  - apply bind_ok in H as (sale & w1 & _ & H).
    apply bind_ok in H as (s & w2 & _ & H).
    apply bind_ok in H as (? & w3 & _ & H).
    apply bind_ok in H as (? & w4 & _ & H).
    apply bind_ok in H as (? & w5 & Hput & H).
    unfold modify in Hput. unfold ret in H. simplify_eq.
    cbn. by rewrite lookup_insert_eq.
Qed.

Lemma from_dict_requests (dict : gmap string Z) :
  missing dict -> steps (from_dict dict) at_most_one.
Proof.
  intros Hmiss w r w' H.
  destruct (dict !! "id") as [id|] eqn:Hid.
  - rewrite (from_dict_missing dict id w Hid Hmiss) in H.
    destruct (cached_sales w !! id) as [cached|] eqn:Hc.
    + left. simplify_eq. cbn. rewrite !http_requests_app. cbn. by rewrite !app_nil_r.
    + eapply silent_then_at_most_one with (w1 := log (refreshing id) w).
      { unfold silent. cbn. rewrite http_requests_app. cbn. by rewrite app_nil_r. }
      revert H. generalize (log (refreshing id) w). intros w0 H. revert w0 r w' H.
      change (steps
        (sale <- init id None None ;;
         s <- ItchSale.load sale ;;
         (if ItchSale.truthy (Sale.err s) then
            match dict !! "end" with
            | None =>
                st <- ItchSale.getitem dict "start" ;;
                ItchSale.update sale (Sale.set_start (Some (fromtimestamp st))) ;;;
                ItchSale.update sale (Sale.set_end (Some (fromtimestamp st))) ;;;
                print ("Warning: " +:+ pretty id +:+
                       " was removed from itch.io. Setting it's end date to it's start date")
            | Some en =>
                match dict !! "start" with
                | None =>
                    ItchSale.update sale (Sale.set_end (Some (fromtimestamp en))) ;;;
                    ItchSale.update sale (Sale.set_start (Some (fromtimestamp en))) ;;;
                    print ("Warning: " +:+ pretty id +:+
                           " was removed from itch.io. Setting it's start date to it's end date")
                | Some _ => ret tt
                end
            end
          else ret tt) ;;;
         ItchSale.update sale (Sale.set_err (Some "STATUS_UPDATED")) ;;;
         modify (fun w => set_cached_sales (<[id := sale]> (cached_sales w)) w) ;;;
         ret sale) at_most_one).
      eapply steps_bind; [apply init_requests | | auto | apply at_most_one_then_silent].
      intros sale. silent_steps.
  - unfold ItchSale.from_dict, ItchSale.getitem at 1, bind at 1, raise in H.
    rewrite Hid in H. simplify_eq. by left.
Qed.

Lemma from_dict_removed (dict : gmap string Z) (id t : Z) (w : World) (r : Response.t) :
  dict !! "id" = Some id ->
  cached_sales w !! id = None ->
  requests_get (trace (log (refreshing id) w)) (sale_url id) = Ok r ->
  Response.status_code r = 404 ->
  (dict !! "end" = None /\ dict !! "start" = Some t) \/
  (dict !! "start" = None /\ dict !! "end" = Some t) ->
  exists w',
    from_dict dict w = (Ok (length (sales w)), w') /\
    sales w' = sales w ++ [repaired id t] /\
    cached_sales w' = <[id := length (sales w)]> (cached_sales w).
Proof.
  intros Hid Hc Hr H404 Hknown.
  assert (Hmiss : missing dict) by (destruct Hknown as [[? _]|[? _]]; [by right|by left]).
  rewrite (from_dict_missing dict id w Hid Hmiss), Hc.
  unfold bind at 1.
  rewrite (init_not_found requests_get sale_script strptime id _ r Hr H404).
  unfold not_found_world at 1. unfold bind at 1, ItchSale.load at 1. cbn.
  rewrite lookup_last. unfold not_found_err.
  unfold bind, ItchSale.getitem, ItchSale.update, print, emit, modify, ret.
  destruct (String.eqb (Response.url r) (sale_url id));
    destruct Hknown as [[Hen Hst]|[Hst Hen]]; cbn; rewrite Hen, Hst; cbn;
    repeat (rewrite lookup_last; cbn; rewrite insert_last; cbn);
    eexists; (split; [reflexivity|]); by cbn.
Qed.

(** C8, as the code has it: a call of [from_dict] on a record that
    lacks [start] or [end] sends at most one request; when it answers,
    the instance is in the class cache under its ID, and a later call with
    such a record for that ID answers the same instance, prints two lines,
    and sends nothing and changes nothing else; and when the refetch meets
    a 404, the instance has [start] and [end] both equal to the timestamp
    the record held and [err] set to [STATUS_UPDATED], as on every repaired
    sale: the mark of the 404 is overwritten. *)
Theorem from_dict_repairs_once (dict : gmap string Z) (id : Z) (w : World) :
  dict !! "id" = Some id -> missing dict ->
  (forall r w', from_dict dict w = (r, w') -> at_most_one w w') /\
  (forall l w', from_dict dict w = (Ok l, w') ->
     cached_sales w' !! id = Some l /\
     forall dict', dict' !! "id" = Some id -> missing dict' ->
       from_dict dict' w' = (Ok l, log "Found in cache" (log (refreshing id) w'))) /\
  (forall r t,
     cached_sales w !! id = None ->
     requests_get (trace (log (refreshing id) w)) (sale_url id) = Ok r ->
     Response.status_code r = 404 ->
     (dict !! "end" = None /\ dict !! "start" = Some t) \/
     (dict !! "start" = None /\ dict !! "end" = Some t) ->
     exists w',
       from_dict dict w = (Ok (length (sales w)), w') /\
       sales w' = sales w ++ [repaired id t] /\
       cached_sales w' = <[id := length (sales w)]> (cached_sales w) /\
       marked_removed (repaired id t) = false).
Proof.
  intros Hid Hmiss. split; [|split].
  - intros r w' H. by eapply from_dict_requests.
  - intros l w' H.
    pose proof (from_dict_caches dict id w w' l Hid Hmiss H) as Hcached.
    split; [exact Hcached|]. intros dict' Hid' Hmiss'.
    by rewrite (from_dict_missing dict' id w' Hid' Hmiss'), Hcached.
  - intros r t Hc Hr H404 Hknown.
    destruct (from_dict_removed dict id t w r Hid Hc Hr H404 Hknown)
      as (w' & H1 & H2 & H3).
    exists w'. by repeat split.
Qed.
End Repair.

Lemma from_dict_repairs_once_witness :
  cached_sales
    (snd (ItchSale.from_dict origin_404 script_41 strptime_2024 legacy_record empty_world))
    !! 7 = Some 0%nat.
Proof.
  assert (Hid : legacy_record !! "id" = Some 7) by (vm_compute; reflexivity).
  assert (Hmiss : missing legacy_record) by (right; vm_compute; reflexivity).
  destruct (from_dict_repairs_once origin_404 script_41 strptime_2024
              legacy_record 7 empty_world Hid Hmiss) as (_ & H & _).
  apply (H 0%nat). vm_compute. reflexivity.
Defined.

(** C8 as stated fails: the record of sale 7 holds only [start], the
    origin answers 404, and the repaired instance carries no mark of the
    removal. *)
Lemma repaired_sale_not_marked_removed :
  exists w',
    ItchSale.from_dict origin_404 script_41 strptime_2024 legacy_record empty_world
    = (Ok 0%nat, w') /\
    sales w' !! 0%nat = Some (repaired 7 100) /\
    marked_removed (repaired 7 100) = false.
Proof. eexists. vm_compute. repeat split. Qed.

(** ** The claim sweep: a game that is owned already *)

Section OwnedGame.
Variable claim_game claim_reward : Game.t -> M unit.
Variable reload_owned_games save_session : M unit.
Variable from_api : string -> M Game.t.

Lemma inner_loop_noop (url : string) (owned_urls : list string) (w : World) :
  for_each owned_urls
    (fun owned_url => if String.eqb owned_url url then ret tt else ret tt) w
  = (Ok tt, w).
Proof.
  induction owned_urls as [|u rest IH]; [reflexivity|].
  cbn [for_each]. unfold bind. by destruct (String.eqb u url); cbn; rewrite IH.
Qed.

Lemma claim_url_scan_owned (url : string) (owned_urls : list string) (w : World) :
  url ∈ owned_urls ->
  ItchClaim.claim_url_scan owned_urls url w = (Raise (UnboundLocalError "game"), w).
Proof.
  induction 1 as [u rest|u v rest _ IH]; cbn.
  - by rewrite String.eqb_refl.
  - by destruct (String.eqb v u).
Qed.

Lemma claim_body_owned (feed : string) (claimed : Z) (g : Game.t) (w : World) :
  Game.url g ∈ map Game.url (owned_games w) ->
  ItchClaim.claim_body claim_game save_session feed claimed g w = (Ok claimed, w).
Proof.
  intros Hin. unfold ItchClaim.claim_body, ItchClaim.owns_game, bind, gets, ret.
  rewrite inner_loop_noop. by rewrite bool_decide_eq_true_2.
Qed.

(** A sweep over games that are all owned claims nothing and changes
    nothing. *)
Lemma claim_loop_owned (feed : string) (games : list Game.t) (claimed : Z) (w : World) :
  Forall (fun g => Game.url g ∈ map Game.url (owned_games w)) games ->
  ItchClaim.claim_loop claim_game save_session feed games claimed w = (Ok claimed, w).
Proof.
  induction 1 as [|g rest Hg _ IH]; [reflexivity|].
  cbn [ItchClaim.claim_loop]. unfold bind. by rewrite claim_body_owned.
Qed.

(** The ownership check taken from the spec is the one [_owns_game] of
    the sources makes on the game's URL. *)
Lemma owns_game_agrees (g : Game.t) (w : World) :
  ItchClaim.owns_game g w = ItchClaim._owns_game (Game.url g) w.
Proof.
  unfold ItchClaim.owns_game, ItchClaim._owns_game, bind, gets, ret. do 2 f_equal.
  induction (map Game.url (owned_games w)) as [|u rest IH]; [reflexivity|].
  cbn [existsb]. rewrite <- IH. destruct (String.eqb_spec u (Game.url g)) as [->|Hne].
  - apply bool_decide_eq_true_2, list_elem_of_here.
  - cbn. apply bool_decide_ext. rewrite elem_of_cons.
    split; [intros [Heq|Hin]; [by destruct Hne|done] | by right].
Qed.

(** The whole sweep of [claim] over a feed of owned games: it prints its
    progress and claims nothing. *)
Lemma claim_sweep_owned (download : string -> M (list Game.t)) (u : User.t)
    (url : string) (games : list Game.t) (w downloaded : World) :
  owned_games w <> [] ->
  download url (log ("Downloading free games list from " +:+ url) w)
  = (Ok games, downloaded) ->
  Forall (fun g => Game.url g ∈ map Game.url (owned_games downloaded)) games ->
  ItchClaim.claim claim_game reload_owned_games save_session download (Some u) url w
  = (Ok tt, log "No new games can be claimed." (log "Claiming games" downloaded)).
Proof.
  intros Howned Hdownload Hall. unfold ItchClaim.claim, bind at 1, gets at 1.
  destruct (owned_games w) as [|g0 rest]; [done|]. cbn [length Nat.eqb].
  unfold bind at 1, ret at 1. unfold bind at 1, print at 1, emit, modify.
  fold (log ("Downloading free games list from " +:+ url) w).
  unfold bind at 1. rewrite Hdownload.
  unfold bind at 1, print at 1, emit, modify.
  fold (log "Claiming games" downloaded). unfold bind at 1.
  rewrite (claim_loop_owned url games 0 (log "Claiming games" downloaded) Hall).
  reflexivity.
Qed.

(** C2: for a game whose [url] is in the library, the step of the sweep
    for it, and the sweep over it alone, answer with the count they were
    given and leave the world as it was, library and trace included, so
    nothing is claimed and nothing is sent; [claim_url] on that URL leaves
    the world as it was too, and ends in the [UnboundLocalError] of line
    1041. *)
Theorem claim_owned_is_noop (u : User.t) (feed : string) (claimed : Z)
    (g : Game.t) (w : World) :
  Game.url g ∈ map Game.url (owned_games w) ->
  ItchClaim.claim_body claim_game save_session feed claimed g w = (Ok claimed, w) /\
  ItchClaim.claim_loop claim_game save_session feed [g] claimed w = (Ok claimed, w) /\
  ItchClaim.claim_url claim_game claim_reward reload_owned_games save_session from_api
    (Some u) (Game.url g) w
  = (Raise (UnboundLocalError "game"), w).
Proof.
  intros Hin. split; [by apply claim_body_owned|]. split.
  - apply claim_loop_owned. by constructor.
  - unfold ItchClaim.claim_url, bind at 1, gets at 1.
    destruct (owned_games w) as [|g0 rest] eqn:Howned; [by apply elem_of_nil in Hin|].
    cbn [length Nat.eqb]. unfold bind, ret, gets. rewrite Howned.
    by rewrite claim_url_scan_owned.
Qed.
End OwnedGame.

Lemma claim_owned_is_noop_witness :
  ItchClaim.claim_body always_claims (ret tt) "feed" 0 game_7 owning_7 = (Ok 0, owning_7).
Proof.
  assert (Hin : Game.url game_7 ∈ map Game.url (owned_games owning_7))
    by (vm_compute; apply list_elem_of_here).
  apply (claim_owned_is_noop always_claims always_claims (ret tt) (ret tt)
           (fun _ => ret game_7) user_1 "feed" 0 game_7 owning_7 Hin).
Defined.

(** ** The claim engine: the verdict after the submission *)

Section ClaimVerdict.
Variable stale_link : list string -> bool.
Variable refresh_url : Game.t -> M Game.t.
Variable owns_game_online : Game.t -> M bool.
Variable report : ItchUser.outcome -> Game.t -> string.
Variable post_download_url : list event -> string -> string -> res (list string + string).
Variable get_download_page : list event -> string -> res (option string).
Variable post_claim : list event -> string -> string -> res string.

Abbreviation claim_game :=
  (ItchUser.claim_game stale_link refresh_url owns_game_online report
     post_download_url get_download_page post_claim).
Abbreviation submit :=
  (ItchUser.submit owns_game_online report get_download_page post_claim).

(** Every submission goes through [submit]: a negotiation that gives a
    download page, at once or on the retry after a stale link, hands the
    game to it. *)
Lemma claim_game_submits (self : User.t) (g : Game.t) (w : World)
    (download_page : string) :
  let neg_url := Game.url g +:+ "/download_url" in
  post_download_url (trace w) neg_url (User.csrf_token self) = Ok (inr download_page) ->
  claim_game self g w = submit self g download_page (sent "POST" neg_url w).
Proof.
  intros neg_url Hneg. subst neg_url.
  unfold ItchUser.claim_game, ItchUser.negotiate, ItchClaim.request, bind at 1.
  by rewrite Hneg.
Qed.

End ClaimVerdict.


(** ** The retry client *)

Section RetryClient.
Variable network : list event -> string -> string -> res Response.t.
Variable u : User.t.

Abbreviation loop := (ItchClaim._send_web_loop network (Some u)).

Lemma attempt_request (type url : string) (r : option Response.t) (w : World) :
  type ∈ request_types ->
  ItchClaim.attempt network (Some u) type url r w
  = (match network (trace w) (method_of type) url with
     | Ok resp => Ok (Some resp)
     | Raise e => Raise e
     end, sent (method_of type) url w).
Proof.
  intros Htype. unfold request_types in Htype.
  repeat (apply elem_of_cons in Htype as [->|Htype]);
    [| | | |by apply elem_of_nil in Htype];
    unfold ItchClaim.attempt, ItchClaim.user_send, ItchClaim.send, bind, ret, method_of, sent;
    cbn; by destruct (network (trace w) _ url).
Qed.

(** One turn of the loop whose request is answered. *)
Lemma loop_answered (fuel : nat) (type url : string) (r : option Response.t)
    (count : Z) (w : World) (resp : Response.t) :
  type ∈ request_types ->
  network (trace (slept 1 w)) (method_of type) url = Ok resp ->
  let status := Response.status_code resp in
  let w1 := sent (method_of type) url (slept 1 w) in
  loop (S fuel) type url r count w
  = if status =? 200 then (Ok (Some resp), w1)
    else if status =? 404 then (Ok (Some resp), w1)
    else if status =? 301 then (Ok (Some resp), w1)
    else if status =? 429 then loop fuel type url (Some resp) count (slept 10 w1)
    else if count + 1 =? 100 then (Raise (SystemExit 1), aborted resp w1)
    else loop fuel type url (Some resp) (count + 1) w1.
Proof.
  intros Htype Hnet status w1. subst status w1.
  cbn [ItchClaim._send_web_loop].
  unfold bind at 1, emit at 1, modify at 1. fold (slept 1 w).
  unfold bind at 1, try_except. rewrite (attempt_request _ _ _ _ Htype), Hnet.
  destruct (Response.status_code resp =? 200); [reflexivity|].
  destruct (Response.status_code resp =? 404); [reflexivity|].
  destruct (Response.status_code resp =? 301); [reflexivity|].
  destruct (Response.status_code resp =? 429); [reflexivity|].
  cbn zeta. destruct (count + 1 =? 100); reflexivity.
Qed.

(** A transport error before any response: the handler prints it, and
    the status test that follows reads [r] while it is unbound. *)
Lemma loop_transport_error (fuel : nat) (type url msg : string) (count : Z)
    (w : World) :
  type ∈ request_types ->
  network (trace (slept 1 w)) (method_of type) url = Raise (RequestException msg) ->
  loop (S fuel) type url None count w
  = (Raise (UnboundLocalError "r"), log msg (sent (method_of type) url (slept 1 w))).
Proof.
  intros Htype Hnet. cbn [ItchClaim._send_web_loop].
  unfold bind at 1, emit at 1, modify at 1. fold (slept 1 w).
  unfold bind at 1, try_except. by rewrite (attempt_request _ _ _ _ Htype), Hnet.
Qed.

(** A server that only ever answers 429 is asked again for as long as
    there is fuel: the loop neither returns nor gives up. *)
Lemma loop_rate_limited (resp : Response.t) (type url : string) :
  type ∈ request_types ->
  (forall tr, network tr (method_of type) url = Ok resp) ->
  Response.status_code resp = 429 ->
  forall fuel r count w,
    fst (loop fuel type url r count w) = Ok None /\
    length (http_requests (trace (snd (loop fuel type url r count w))))
    = (length (http_requests (trace w)) + fuel)%nat.
Proof.
  intros Htype Hnet H429. induction fuel as [|fuel IH]; intros r count w.
  - cbn. split; [reflexivity|lia].
  - rewrite (loop_answered fuel type url r count w resp Htype (Hnet _)), H429.
    cbn [Z.eqb Pos.eqb]. destruct (IH (Some resp) count
      (slept 10 (sent (method_of type) url (slept 1 w)))) as [H1 H2].
    split; [exact H1|]. rewrite H2. cbn.
    rewrite !http_requests_app, !length_app. cbn. lia.
Qed.

(** A server that only ever answers with a status outside 200, 404, 301
    and 429 is asked until the counter reaches 100. *)
Lemma loop_failing (resp : Response.t) (type url : string) :
  type ∈ request_types ->
  (forall tr, network tr (method_of type) url = Ok resp) ->
  retried_with_count (Response.status_code resp) ->
  forall fuel r count w,
    0 <= count < 100 ->
    (Z.of_nat fuel < 100 - count ->
       fst (loop fuel type url r count w) = Ok None) /\
    (100 - count <= Z.of_nat fuel ->
       fst (loop fuel type url r count w) = Raise (SystemExit 1) /\
       length (http_requests (trace (snd (loop fuel type url r count w))))
       = (length (http_requests (trace w)) + Z.to_nat (100 - count))%nat /\
       exists w1, snd (loop fuel type url r count w) = aborted resp w1).
Proof.
  intros Htype Hnet (H200 & H404 & H301 & H429).
  induction fuel as [|fuel IH]; intros r count w Hcount.
  - cbn. split; [reflexivity|lia].
  - rewrite (loop_answered fuel type url r count w resp Htype (Hnet _)).
    destruct (Z.eqb_spec (Response.status_code resp) 200); [done|].
    destruct (Z.eqb_spec (Response.status_code resp) 404); [done|].
    destruct (Z.eqb_spec (Response.status_code resp) 301); [done|].
    destruct (Z.eqb_spec (Response.status_code resp) 429); [done|].
    destruct (Z.eqb_spec (count + 1) 100) as [Hlast|Hmore].
    + split; [lia|]. intros _. cbn [fst snd]. split; [reflexivity|]. split.
      * replace (100 - count) with 1 by lia. unfold aborted, log, sent, slept. cbn.
        rewrite !http_requests_app, !length_app. cbn. lia.
      * by eexists.
    + destruct (IH (Some resp) (count + 1) (sent (method_of type) url (slept 1 w)))
        as [Hnone Hexit]; [lia|].
      split.
      * intros Hfuel. apply Hnone. lia.
      * intros Hfuel. destruct Hexit as (H1 & H2 & H3); [lia|].
        split; [exact H1|]. split; [|exact H3]. rewrite H2.
        unfold sent, slept. cbn. rewrite !http_requests_app, !length_app. cbn. lia.
Qed.

(** C4: a response with status 200, 404 or 301 is returned at once; a
    429 pauses for 10 ms and asks again with the counter untouched, and a
    server that only answers 429 is asked for as long as the loop runs; any
    other status adds one to the counter, and the hundredth such answer
    prints the status and the body of that response and exits with code 1
    instead of returning, after exactly 100 requests when every answer is
    of that kind. *)
Theorem send_web_policy (type url : string) (resp : Response.t) :
  type ∈ request_types ->
  (forall fuel r count w,
     network (trace (slept 1 w)) (method_of type) url = Ok resp ->
     let w1 := sent (method_of type) url (slept 1 w) in
     (returned_at_once (Response.status_code resp) ->
        loop (S fuel) type url r count w = (Ok (Some resp), w1)) /\
     (Response.status_code resp = 429 ->
        loop (S fuel) type url r count w
        = loop fuel type url (Some resp) count (slept 10 w1)) /\
     (retried_with_count (Response.status_code resp) ->
        (count + 1 <> 100 ->
           loop (S fuel) type url r count w
           = loop fuel type url (Some resp) (count + 1) w1) /\
        (count + 1 = 100 ->
           loop (S fuel) type url r count w
           = (Raise (SystemExit 1), aborted resp w1)))) /\
  ((forall tr, network tr (method_of type) url = Ok resp) ->
   forall fuel w,
     let run := ItchClaim._send_web network (Some u) fuel type url w in
     (Response.status_code resp = 429 -> fst run = Ok None) /\
     (retried_with_count (Response.status_code resp) ->
        ((fuel < 100)%nat -> fst run = Ok None) /\
        ((100 <= fuel)%nat ->
           fst run = Raise (SystemExit 1) /\
           length (http_requests (trace (snd run)))
           = (length (http_requests (trace w)) + 100)%nat /\
           exists w1, snd run = aborted resp w1))).
Proof.
  intros Htype. split.
  - intros fuel r count w Hnet w1.
    pose proof (loop_answered fuel type url r count w resp Htype Hnet) as Hloop.
    cbn zeta in Hloop. fold w1 in Hloop. rewrite Hloop. clear Hloop.
    split; [|split].
    + by intros [->| [->| ->]].
    + by intros ->.
    + intros (H200 & H404 & H301 & H429).
      destruct (Z.eqb_spec (Response.status_code resp) 200); [done|].
      destruct (Z.eqb_spec (Response.status_code resp) 404); [done|].
      destruct (Z.eqb_spec (Response.status_code resp) 301); [done|].
      destruct (Z.eqb_spec (Response.status_code resp) 429); [done|].
      by destruct (Z.eqb_spec (count + 1) 100).
  - intros Hnet fuel w run. subst run. unfold ItchClaim._send_web. split.
    + intros H429. by apply (loop_rate_limited resp type url Htype Hnet H429).
    + intros Hretry.
      destruct (loop_failing resp type url Htype Hnet Hretry fuel None 0 w)
        as [Hnone Hexit]; [lia|].
      split; [intros; apply Hnone; lia|].
      intros Hfuel. destruct Hexit as (H1 & H2 & H3); [lia|].
      split; [exact H1|]. split; [|exact H3]. rewrite H2. f_equal.
Qed.
End RetryClient.

Lemma send_web_policy_witness :
  fst (ItchClaim._send_web (answers 503) (Some user_1) 100 "get"
         "https://itch.io/s/1" empty_world)
  = Raise (SystemExit 1).
Proof.
  assert (Htype : "get" ∈ request_types) by apply list_elem_of_here.
  assert (Hretry : retried_with_count 503) by (repeat split; discriminate).
  destruct (send_web_policy (answers 503) user_1 "get" "https://itch.io/s/1"
              {| Response.status_code := 503; Response.url := "https://itch.io/s/1";
                 Response.text := "body" |} Htype) as [_ H].
  destruct (H (fun _ => eq_refl) 100%nat empty_world) as [_ H503].
  destruct (H503 Hretry) as [_ Hexit].
  destruct Hexit as [Hexit _]; [lia|]. exact Hexit.
Defined.

(** ** ItchGame: the downloadable files *)

Section DownloadableFiles.
Variable home_cookies : res (gmap string string).
Variable post_download_url : list event -> string -> string -> res Negotiation.t.
Variable get_download_page : list event -> string -> res (list ItchGame.upload_div).
Variable post_file : list event -> string -> string -> res string.
Variable unquote : string -> string.
Variable strptime : string -> res datetime.

Abbreviation downloadable_files :=
  (ItchGame.downloadable_files home_cookies post_download_url get_download_page
     post_file unquote strptime).
Abbreviation parse_all := (ItchGame.parse_all post_file unquote strptime).
Abbreviation parse_download_div := (ItchGame.parse_download_div post_file unquote strptime).

(** A list that is returned has one entry per div, in order. *)
Lemma parse_all_length (g : Game.t) (s : gmap string string)
    (divs : list ItchGame.upload_div) :
  forall w uploads w',
    parse_all g divs s w = (Ok uploads, w') -> length uploads = length divs.
Proof.
  induction divs as [|div rest IH]; intros w uploads w' H.
  - cbn in H. unfold ret in H. by simplify_eq.
  - cbn [ItchGame.parse_all] in H.
    apply bind_ok in H as (upload & w1 & _ & H).
    apply bind_ok in H as (us & w2 & Hrest & H).
    unfold ret in H. simplify_eq. cbn. f_equal. by eapply IH.
Qed.

Lemma parse_download_div_ok (g : Game.t) (s : gmap string string)
    (div : ItchGame.upload_div) (w : World) :
  is_Some (s !! "itchio_token") ->
  (forall tr url token, is_ok (post_file tr url token) = true) ->
  well_formed strptime div ->
  exists upload w', parse_download_div g div s w = (Ok upload, w').
Proof.
  intros [token Htoken] Hfile (Hid & (title & Htitle & Hdate) & Hname & Hsize).
  unfold ItchGame.parse_download_div, ItchGame.cookie, ItchGame.request, bind, lift, ret.
  rewrite Htitle, Htoken.
  destruct (ItchGame.data_upload_id div) as [id|]; [|done].
  destruct (strptime title) as [date|]; [|done].
  destruct (ItchGame.strong_name div) as [name|]; [|done].
  destruct (ItchGame.file_size_text div) as [size|]; [|done].
  cbn. specialize (Hfile (trace w) (Game.url g +:+ "/file/" +:+ pretty id) (unquote token)).
  destruct (post_file (trace w) _ (unquote token)); [|done]. by eexists _, _.
Qed.

Lemma parse_all_ok (g : Game.t) (s : gmap string string)
    (divs : list ItchGame.upload_div) :
  is_Some (s !! "itchio_token") ->
  (forall tr url token, is_ok (post_file tr url token) = true) ->
  Forall (well_formed strptime) divs ->
  forall w, exists uploads w', parse_all g divs s w = (Ok uploads, w').
Proof.
  intros Htoken Hfile. induction 1 as [|div rest Hdiv _ IH]; intros w.
  - by eexists _, _.
  - destruct (parse_download_div_ok g s div w Htoken Hfile Hdiv) as (upload & w1 & H1).
    destruct (IH w1) as (us & w2 & H2).
    exists (upload :: us), w2. cbn [ItchGame.parse_all]. unfold bind.
    by rewrite H1, H2.
Qed.

(** Without a session the method makes one: a request for the home page
    gives it its cookies. *)
Lemma downloadable_files_fresh_session (g : Game.t) (cookies : gmap string string)
    (w : World) :
  home_cookies = Ok cookies ->
  downloadable_files g None w
  = downloadable_files g (Some cookies) (sent "GET" "https://itch.io/" w).
Proof.
  intros Hhome. unfold ItchGame.downloadable_files.
  unfold bind at 1, ItchGame.request at 1. rewrite Hhome. reflexivity.
Qed.

End DownloadableFiles.


(** ** The resume cursor *)

Lemma steps_try_except {A} (body : M A) (handler : exn -> option (M A))
    (R1 R2 R : World -> World -> Prop) :
  steps body R1 ->
  (forall e h, handler e = Some h -> steps h R2) ->
  (forall w w', R1 w w' -> R w w') ->
  (forall w w1 w2, R1 w w1 -> R2 w1 w2 -> R w w2) ->
  steps (try_except body handler) R.
Proof.
  intros Hbody Hhandler Hone Hseq w r w' H. unfold try_except in H.
  destruct (body w) as [[a|e] w1] eqn:Hrun.
  - simplify_eq. eapply Hone, Hbody. eassumption.
  - destruct (handler e) as [h|] eqn:Hh.
    + eapply Hseq; [eapply Hbody | eapply Hhandler]; eassumption.
    + simplify_eq. eapply Hone, Hbody. eassumption.
Qed.

Lemma fetched_then_silent (n : Z) (w w1 w2 : World) :
  fetched n w w1 -> silent w1 w2 -> fetched n w w2.
Proof. unfold fetched, silent. intros [H1 H2] [H3 H4]. split; congruence. Qed.

Lemma sale_url_inj (a b : Z) : sale_url a = sale_url b -> a = b.
Proof.
  unfold sale_url. intros H. apply (inj pretty).
  by apply (inj (String.app "https://itch.io/s/")) in H.
Qed.

Section ResumeCursor.
Variable requests_get : list event -> string -> res Response.t.
Variable sale_script : string -> res ItchSale.sale_data.
Variable strptime : string -> res datetime.
Variable games_on_page : string -> list Game.t.
Variable listing : list event -> string -> Z -> list Game.t.
Variable games_dir : string.

Abbreviation init := (ItchSale.init requests_get sale_script strptime).
Abbreviation response := (ItchSale.get_data_online_response sale_script strptime).
Abbreviation get_one_sale :=
  (DiskManager.get_one_sale requests_get sale_script strptime games_on_page games_dir).
Abbreviation get_all_sales :=
  (DiskManager.get_all_sales requests_get sale_script strptime games_on_page games_dir).
Abbreviation get_all_sale_pages := (DiskManager.get_all_sale_pages listing games_dir).
Abbreviation refresh_sale_cache :=
  (ItchClaim.refresh_sale_cache requests_get sale_script strptime games_on_page
     listing games_dir).

Lemma init_unfold (n : Z) (w : World) :
  init n None None w
  = let l := length (sales w) in
    let w1 := sent "GET" (sale_url n) (set_sales (sales w ++ [blank n]) w) in
    match requests_get (trace w) (sale_url n) with
    | Ok r => (response l (blank n) r ;;; ret l) w1
    | Raise e => (Raise e, w1)
    end.
Proof.
  unfold ItchSale.init, ItchSale.alloc, ItchSale.get_data_online, ItchSale.load,
    ItchSale.http_get, bind. cbn. rewrite lookup_last. cbn.
  by destruct (requests_get (trace w) (sale_url n)).
Qed.

Lemma response_silent (l : nat) (s : Sale.t) (r : Response.t) :
  steps (response l s r) silent.
Proof. unfold ItchSale.get_data_online_response. silent_steps. Qed.

Lemma init_fetched (n : Z) : steps (init n None None) (fetched n).
Proof.
  intros w r w' H. rewrite init_unfold in H. cbn zeta in H.
  assert (H1 : fetched n w
                 (sent "GET" (sale_url n) (set_sales (sales w ++ [blank n]) w))).
  { split; [|reflexivity]. cbn. by rewrite http_requests_app. }
  destruct (requests_get (trace w) (sale_url n)) as [resp|e].
  - eapply fetched_then_silent; [exact H1|].
    revert H. apply steps_silent_bind; [apply response_silent|intros _; apply steps_ret].
  - by simplify_eq.
Qed.

Lemma upsert_games_silent (n : pyval) (games : list Game.t) :
  steps (DiskManager.upsert_games games_dir n games) silent.
Proof. apply steps_for_each. intros g. apply steps_save_to_disk. Qed.

Lemma get_one_sale_fetched (n : Z) : steps (get_one_sale n) (fetched n).
Proof.
  unfold DiskManager.get_one_sale.
  eapply steps_try_except with (R1 := fetched n) (R2 := silent);
    [| | auto | apply fetched_then_silent].
  - eapply steps_bind; [apply init_fetched | | auto | apply fetched_then_silent].
    intros sale. pose proof upsert_games_silent. silent_steps.
  - intros e h Hh. simplify_eq. silent_steps.
Qed.

(** What a walk of the IDs from [n] leaves behind: the pages of [n] and
    of the IDs after it were requested, in order and nothing else; the
    cursor is where it was or beyond [n]; and when the walk ends at a
    frontier [m], the IDs from [n] up to [m - 1] were left behind and the
    cursor is [m] as soon as one of them was. *)
Lemma get_all_sales_run (fuel : nat) :
  forall n processed w r w',
    get_all_sales fuel n processed w = (r, w') ->
    exists k : nat,
      (k <= fuel)%nat /\
      http_requests (trace w')
      = http_requests (trace w) ++ map sale_url (seqZ n (Z.of_nat k)) /\
      (resume_index w' = resume_index w \/
       exists m, n < m /\ resume_index w' = Some m) /\
      (forall m ps,
         r = Ok (Some (m, ps)) ->
         n <= m /\ Z.of_nat k = m - n + 1 /\
         ps = processed ++ seqZ n (m - n) /\
         (n < m -> resume_index w' = Some m) /\
         (m = n -> resume_index w' = resume_index w)).
Proof.
  induction fuel as [|fuel IH]; intros n processed w r w' H.
  - cbn in H. unfold ret in H. simplify_eq. exists 0%nat.
    split; [lia|]. split; [by rewrite app_nil_r|]. split; [by left|]. done.
  - cbn [DiskManager.get_all_sales] in H. unfold bind at 1 in H.
    destruct (get_one_sale n w) as [[o|e] w1] eqn:Hone;
      apply get_one_sale_fetched in Hone as [Hreq Hcur].
    + destruct (DiskManager.is_terminal o).
      * unfold ret in H. simplify_eq. exists 1%nat.
        split; [lia|]. split; [exact Hreq|]. split; [by left|].
        intros m ps Heq. simplify_eq. rewrite Z.sub_diag. cbn.
        rewrite app_nil_r. repeat split; try lia; done.
      * unfold bind at 1, modify at 1 in H.
        apply IH in H as (k & Hk & Hreq' & Hcur' & Hend).
        exists (S k). split; [lia|]. split; [|split].
        -- rewrite Hreq'. cbn [trace set_resume_index]. rewrite Hreq.
           rewrite <- app_assoc. f_equal.
           rewrite (seqZ_cons n (Z.of_nat (S k))) by lia. cbn [map app].
           do 3 f_equal; lia.
        -- right. destruct Hcur' as [Hsame|(m & Hm & Hsome)].
           ++ exists (n + 1). split; [lia|]. by rewrite Hsame.
           ++ exists m. split; [lia|done].
        -- intros m ps Heq. destruct (Hend m ps Heq) as (Hle & Hlen & Hps & Hgt & Heqm).
           split; [lia|]. split; [lia|]. split; [|split].
           ++ rewrite Hps, <- app_assoc. f_equal.
              rewrite (seqZ_cons n (m - n)) by lia. cbn [app].
              do 2 f_equal; lia.
           ++ intros _. destruct (Z.eq_dec m (n + 1)) as [->|Hne].
              ** by rewrite Heqm.
              ** apply Hgt. lia.
           ++ lia.
    + simplify_eq. exists 1%nat. split; [lia|]. split; [exact Hreq|].
      split; [by left|]. done.
Qed.

Lemma get_all_sale_pages_silent (fuel : nat) :
  forall category page, steps (get_all_sale_pages fuel category page) silent.
Proof.
  induction fuel as [|fuel IH]; intros category page; cbn [DiskManager.get_all_sale_pages].
  - apply steps_ret.
  - apply steps_silent_bind; [apply steps_gets|]. intros tr.
    apply steps_silent_bind; [apply steps_listing|]. intros _.
    destruct (listing tr category page) as [|g games]; [apply steps_ret|].
    apply steps_silent_bind; [|intros _; apply IH].
    apply steps_for_each. intros x. apply steps_save_to_disk.
Qed.

Lemma collect_silent (fuel : nat) (cs : list string) :
  steps (ItchClaim.collect listing games_dir fuel cs) silent.
Proof.
  induction cs as [|category rest IH]; cbn [ItchClaim.collect].
  - apply steps_ret.
  - pose proof (get_all_sale_pages_silent fuel category 1). silent_steps.
Qed.

Lemma unmarked_update (l : nat) (f : Sale.t -> Sale.t) :
  (forall s, Sale.err (f s) = Sale.err s) ->
  steps (ItchSale.update l f) (keeps_unmarked l).
Proof.
  intros Hf w r w' H (s & Hs & Herr). unfold ItchSale.update in H.
  rewrite Hs in H. simplify_eq. exists (f s). split; [|by rewrite Hf].
  cbn. apply list_lookup_insert_eq. by eapply lookup_lt_Some.
Qed.

Lemma unmarked_same {A} (m : M A) (l : nat) :
  (forall w, snd (m w) = w) -> steps m (keeps_unmarked l).
Proof.
  intros Hm w r w' H Hw. specialize (Hm w). rewrite H in Hm. cbn in Hm. by subst.
Qed.

Lemma unmarked_bind {A B} (m : M A) (k : A -> M B) (l : nat) :
  steps m (keeps_unmarked l) -> (forall a, steps (k a) (keeps_unmarked l)) ->
  steps (bind m k) (keeps_unmarked l).
Proof.
  intros Hm Hk. eapply steps_bind; [exact Hm | exact Hk | auto |].
  unfold keeps_unmarked. auto.
Qed.

(** A page that is found leaves the instance without an [err]. *)
Lemma response_keeps_unmarked (l : nat) (s : Sale.t) (r : Response.t) :
  Response.status_code r <> 404 -> steps (response l s r) (keeps_unmarked l).
Proof.
  intros Hne. unfold ItchSale.get_data_online_response.
  destruct (Z.eqb_spec (Response.status_code r) 404) as [|_]; [done|].
  repeat first
    [ apply unmarked_bind; [| intros ?]
    | apply unmarked_update; by intros []
    | apply unmarked_same; intros ?; unfold lift, raise, ret; reflexivity
    | match goal with |- steps (if ?b then _ else _) _ => destruct b end ].
Qed.

(** Every ID gets an outcome, and the terminal one only on the answer
    that is not found without a redirect. *)
Lemma get_one_sale_outcome (n : Z) (w : World) :
  exists o w',
    get_one_sale n w = (Ok o, w') /\
    (DiskManager.is_terminal o = true ->
     no_more n (requests_get (trace w) (sale_url n))).
Proof.
  destruct (requests_get (trace w) (sale_url n)) as [r|e] eqn:Hr.
  - destruct (Z.eq_dec (Response.status_code r) 404) as [H404|Hne].
    + rewrite (get_one_sale_not_found requests_get sale_script strptime
                 games_on_page games_dir n w r Hr H404).
      eexists _, _. split; [reflexivity|].
      destruct (String.eqb_spec (Response.url r) (sale_url n)); [|done].
      intros _. by exists r.
    + unfold DiskManager.get_one_sale, try_except. unfold bind at 1.
      rewrite init_unfold, Hr. cbn zeta. unfold bind at 1.
      match goal with
      | |- context [ItchSale.get_data_online_response ?x1 ?x2 ?x3 ?x4 ?x5 ?x6] =>
          destruct (ItchSale.get_data_online_response x1 x2 x3 x4 x5 x6)
            as [[[]|err] w2] eqn:Hresp
      end; [|by eexists _, _].
      apply (response_keeps_unmarked _ _ _ Hne) in Hresp.
      destruct Hresp as (s' & Hs' & Herr').
      { exists (blank n). cbn. by rewrite lookup_last. }
      unfold ret at 1. unfold bind at 1, ItchSale.load at 1. rewrite Hs', Herr'.
      unfold bind at 1, lift at 1.
      destruct (ItchSale.serialize s') as [d|e]; [|by eexists _, _].
      unfold bind at 1, modify at 1. unfold bind at 1.
      match goal with
      | |- context [DiskManager.upsert_games ?x1 ?x2 ?x3 ?x4] =>
          destruct (DiskManager.upsert_games x1 x2 x3 x4) as [[[]|err] w3]
      end; by eexists _, _.
  - unfold DiskManager.get_one_sale, try_except. unfold bind at 1.
    rewrite init_unfold, Hr. by eexists _, _.
Qed.

(** With the frontier at [m], a walk from [n] with more fuel than IDs to
    pass ends at [m] with the IDs from [n] to [m - 1] left behind. *)
Lemma crawl_reaches_frontier (m : Z) :
  (forall tr, no_more m (requests_get tr (sale_url m))) ->
  forall fuel n processed w,
    n <= m ->
    (forall tr k, n <= k < m -> ~ no_more k (requests_get tr (sale_url k))) ->
    (Z.to_nat (m - n) < fuel)%nat ->
    exists w',
      get_all_sales fuel n processed w
      = (Ok (Some (m, processed ++ seqZ n (m - n))), w').
Proof.
  intros Hend. induction fuel as [|fuel IH]; intros n processed w Hle Hbefore Hfuel;
    [lia|].
  cbn [DiskManager.get_all_sales]. unfold bind at 1.
  destruct (Z.eq_dec n m) as [->|Hne].
  - destruct (Hend (trace w)) as (r & Hr & H404 & Hurl).
    rewrite (get_one_sale_not_found requests_get sale_script strptime
               games_on_page games_dir m w r Hr H404).
    rewrite Hurl, String.eqb_refl. cbn. rewrite Z.sub_diag. cbn.
    rewrite app_nil_r. by eexists.
  - destruct (get_one_sale_outcome n w) as (o & w1 & Hone & Hterm). rewrite Hone.
    destruct (DiskManager.is_terminal o) eqn:Ho.
    + exfalso. apply (Hbefore (trace w) n); [lia|]. by apply Hterm.
    + unfold bind at 1, modify at 1.
      destruct (IH (n + 1) (processed ++ [n])
                  (set_resume_index (Some (n + 1)) w1)) as [w' Hrun]; [lia| |lia|].
      { intros tr k Hk. apply Hbefore. lia. }
      exists w'. rewrite Hrun. do 3 f_equal. rewrite <- app_assoc. f_equal.
      rewrite (seqZ_cons n (m - n)) by lia. cbn [app].
      replace (Z.succ n) with (n + 1) by lia.
      by replace (Z.pred (m - n)) with (m - (n + 1)) by lia.
Qed.

Lemma upsert_listing_ok (games : list Game.t) (w : World) :
  exists w', for_each games (ItchGame.save_to_disk games_dir) w = (Ok tt, w').
Proof.
  revert w. induction games as [|g rest IH]; intros w; [by eexists|].
  cbn [for_each]. unfold bind, ItchGame.save_to_disk at 1, modify. apply IH.
Qed.

Lemma get_all_sale_pages_finishes (category : string) (k : nat) :
  forall fuel page w,
    (forall tr, listing tr category (page + Z.of_nat k) = []) ->
    (k < fuel)%nat ->
    exists w', get_all_sale_pages fuel category page w = (Ok true, w').
Proof.
  induction k as [|k IH]; intros fuel page w Hempty Hfuel;
    (destruct fuel as [|fuel]; [lia|]);
    cbn [DiskManager.get_all_sale_pages]; unfold bind, gets, emit, modify.
  - rewrite Z.add_0_r in Hempty. rewrite Hempty. by eexists.
  - destruct (listing (trace w) category page) as [|g games]; [by eexists|].
    match goal with
    | |- context [for_each ?l ?f ?w0] =>
        destruct (upsert_listing_ok l w0) as [w1 Hsave]
    end.
    rewrite Hsave. apply IH; [|lia].
    intros tr. rewrite <- (Hempty tr). f_equal. lia.
Qed.

Lemma collect_finishes (k fuel : nat) (cs : list string) :
  (forall tr category, listing tr category (1 + Z.of_nat k) = []) ->
  (k < fuel)%nat ->
  forall w, exists w', ItchClaim.collect listing games_dir fuel cs w = (Ok true, w').
Proof.
  intros Hempty Hfuel. induction cs as [|category rest IH]; intros w; [by eexists|].
  cbn [ItchClaim.collect]. unfold bind at 1, print at 1, emit, modify.
  unfold bind at 1.
  match goal with
  | |- context [DiskManager.get_all_sale_pages _ _ _ _ _ ?w0] =>
      destruct (get_all_sale_pages_finishes category k fuel 1 w0) as [w1 Hpages];
        [intros tr; apply Hempty | lia |]
  end.
  rewrite Hpages. apply IH.
Qed.

Lemma refresh_sale_cache_unfold (fuel : nat) (n : Z) (w : World) :
  resume_index w = Some n ->
  refresh_sale_cache fuel [] w
  = match get_all_sales fuel n []
            (log ("Resuming sale downloads from " +:+ pretty n) w) with
    | (Ok (Some _), w2) =>
        ItchClaim.collect listing games_dir fuel ItchClaim.categories
          (log "Updating games from sale lists, to catch updates of already known sales." w2)
    | (Ok None, w2) => (Ok false, w2)
    | (Raise e, w2) => (Raise e, w2)
    end.
Proof.
  intros Hcur. unfold ItchClaim.refresh_sale_cache.
  unfold bind at 1, gets at 1. rewrite Hcur.
  unfold bind at 1. unfold bind at 1, print at 1, emit, modify, ret at 1.
  fold (log ("Resuming sale downloads from " +:+ pretty n) w).
  unfold bind at 1.
  destruct (get_all_sales fuel n [] _) as [[[walked|]|e] w2]; reflexivity.
Qed.

Lemma sale_url_below (n : Z) (len : Z) (id : Z) :
  sale_url id ∈ map sale_url (seqZ n len) -> n <= id.
Proof.
  rewrite list_elem_of_In, in_map_iff. intros (x & Hx & Hin).
  apply sale_url_inj in Hx as ->. apply list_elem_of_In, elem_of_seqZ in Hin. lia.
Qed.

End ResumeCursor.


(** The crawl of the origin with its frontier at 3, from cursor 1: the
    pages of 1, 2 and 3 are requested, the sales 1 and 2 are persisted, and
    the cursor ends at 3. *)
Example crawl_from_1_runs :
  fst crawl_from_1 = Ok true /\
  resume_index (snd crawl_from_1) = Some 3 /\
  http_requests (trace (snd crawl_from_1)) = [sale_url 1; sale_url 2; sale_url 3] /\
  dom (sale_files (snd crawl_from_1)) = {[1; 2]}.
Proof.
  repeat split; vm_compute; reflexivity.
Qed.

(** * Further properties of the code *)

(** ** The retry client: what it returns, what it reuses *)

Section RetryClientEdges.
Variable network : list event -> string -> string -> res Response.t.
Variable user : option User.t.

Abbreviation loop := (ItchClaim._send_web_loop network user).

(** Whatever the network does, whoever calls, and however long the loop
    runs: a response that [_send_web] hands back has status 200, 404 or
    301. *)
Theorem send_web_returns_only (fuel : nat) :
  forall type url r count w resp w',
    loop fuel type url r count w = (Ok (Some resp), w') ->
    returned_at_once (Response.status_code resp).
Proof.
  induction fuel as [|fuel IH]; intros type url r count w resp w' H.
  - cbn in H. unfold ret in H. simplify_eq.
  - cbn [ItchClaim._send_web_loop] in H.
    apply bind_ok in H as ([] & w1 & _ & H).
    apply bind_ok in H as (r' & w2 & _ & H).
    destruct r' as [resp'|]; [|unfold raise in H; simplify_eq].
    unfold returned_at_once.
    destruct (Z.eqb_spec (Response.status_code resp') 200);
      [unfold ret in H; simplify_eq; auto|].
    destruct (Z.eqb_spec (Response.status_code resp') 404);
      [unfold ret in H; simplify_eq; auto|].
    destruct (Z.eqb_spec (Response.status_code resp') 301);
      [unfold ret in H; simplify_eq; auto|].
    destruct (Response.status_code resp' =? 429).
    + apply bind_ok in H as ([] & w3 & _ & H). by eapply IH.
    + cbn zeta in H. destruct (count + 1 =? 100).
      * apply bind_ok in H as ([] & w3 & _ & H).
        apply bind_ok in H as ([] & w4 & _ & H).
        apply bind_ok in H as ([] & w5 & _ & H).
        unfold raise in H. simplify_eq.
      * by eapply IH.
Qed.
End RetryClientEdges.

Lemma send_web_returns_only_witness :
  returned_at_once (Response.status_code response_200).
Proof.
  eapply (send_web_returns_only (answers 200) (Some user_1) 1 "get"
            "https://itch.io/s/1" None 0 empty_world response_200).
  vm_compute. reflexivity.
Defined.

Section RetryClientErrors.
Variable network : list event -> string -> string -> res Response.t.
Variable u : User.t.

Abbreviation loop := (ItchClaim._send_web_loop network (Some u)).

(** A transport error is printed and the turn goes on with the response
    of an earlier turn as if it had just arrived: an earlier 429 is paused
    for and asked again, an earlier other status counts once more, and
    with no earlier response the call ends in an [UnboundLocalError]. *)
Theorem transport_error_reuses_response (fuel : nat) (type url msg : string)
    (r : option Response.t) (count : Z) (w : World) :
  type ∈ request_types ->
  network (trace (slept 1 w)) (method_of type) url = Raise (RequestException msg) ->
  let w1 := log msg (sent (method_of type) url (slept 1 w)) in
  loop (S fuel) type url r count w
  = match r with
    | None => (Raise (UnboundLocalError "r"), w1)
    | Some earlier =>
        let status := Response.status_code earlier in
        if status =? 200 then (Ok (Some earlier), w1)
        else if status =? 404 then (Ok (Some earlier), w1)
        else if status =? 301 then (Ok (Some earlier), w1)
        else if status =? 429 then loop fuel type url (Some earlier) count (slept 10 w1)
        else if count + 1 =? 100 then (Raise (SystemExit 1), aborted earlier w1)
        else loop fuel type url (Some earlier) (count + 1) w1
    end.
Proof.
  intros Htype Hnet w1. subst w1. cbn [ItchClaim._send_web_loop].
  unfold bind at 1, emit at 1, modify at 1. fold (slept 1 w).
  unfold bind at 1, try_except. rewrite (attempt_request _ _ _ _ _ _ Htype), Hnet.
  unfold bind at 1, print at 1, emit, modify, ret at 1.
  fold (log msg (sent (method_of type) url (slept 1 w))).
  destruct r as [earlier|]; [|reflexivity]. cbn zeta.
  destruct (Response.status_code earlier =? 200); [reflexivity|].
  destruct (Response.status_code earlier =? 404); [reflexivity|].
  destruct (Response.status_code earlier =? 301); [reflexivity|].
  destruct (Response.status_code earlier =? 429); [reflexivity|].
  destruct (count + 1 =? 100); reflexivity.
Qed.

(** A request type that is none of the four sends nothing: the first
    turn ends in an [UnboundLocalError]. *)
Theorem unknown_request_type (fuel : nat) (type url : string) (w : World) :
  type ∉ request_types ->
  ItchClaim._send_web network (Some u) (S fuel) type url w
  = (Raise (UnboundLocalError "r"), slept 1 w).
Proof.
  intros Htype. unfold request_types in Htype.
  rewrite !not_elem_of_cons in Htype. destruct Htype as (H1 & H2 & H3 & H4 & _).
  unfold ItchClaim._send_web. cbn [ItchClaim._send_web_loop].
  unfold bind at 1, emit at 1, modify at 1. fold (slept 1 w).
  unfold bind at 1, try_except, ItchClaim.attempt.
  apply String.eqb_neq in H1, H2, H3, H4. rewrite H1, H2, H3, H4.
  reflexivity.
Qed.
End RetryClientErrors.

Lemma transport_error_reuses_response_witness :
  fst (ItchClaim._send_web_loop answers_once_429 (Some user_1) 1 "get"
         "https://itch.io/s/1" (Some response_429) 0 asked_once)
  = Ok None.
Proof.
  assert (Htype : "get" ∈ request_types) by apply list_elem_of_here.
  by rewrite (transport_error_reuses_response answers_once_429 user_1 0 "get"
                "https://itch.io/s/1" "connection reset" (Some response_429) 0
                asked_once Htype eq_refl).
Defined.

Lemma unknown_request_type_witness :
  fst (ItchClaim._send_web (answers 200) (Some user_1) 1 "put"
         "https://itch.io/s/1" empty_world)
  = Raise (UnboundLocalError "r").
Proof.
  assert (Htype : "put" ∉ request_types).
  { unfold request_types. rewrite !not_elem_of_cons. repeat split; try discriminate.
    apply not_elem_of_nil. }
  by rewrite (unknown_request_type (answers 200) user_1 0 "put"
                "https://itch.io/s/1" empty_world Htype).
Defined.

(** ** ItchSale: the other ways through from_dict *)

Lemma int_timestamp_fromtimestamp (n : Z) : int_timestamp (fromtimestamp n) = n.
Proof. unfold fromtimestamp, int_timestamp. apply Z.quot_mul. lia. Qed.

Lemma fromtimestamp_int_timestamp_near (d : datetime) :
  Z.abs (d - fromtimestamp (int_timestamp d)) < 1000000.
Proof.
  unfold fromtimestamp, int_timestamp.
  pose proof (Z.quot_rem' d 1000000) as Hqr.
  pose proof (Z.rem_bound_abs d 1000000) as Hb. lia.
Qed.

Lemma bind_inv {A B} (m : M A) (k : A -> M B) (w w' : World) (r : res B) :
  bind m k w = (r, w') ->
  (exists e, m w = (Raise e, w') /\ r = Raise e) \/
  (exists a w1, m w = (Ok a, w1) /\ k a w1 = (r, w')).
Proof.
  unfold bind. destruct (m w) as [[a|e] w1]; intros H.
  - right. by exists a, w1.
  - left. exists e. by simplify_eq.
Qed.

Lemma keeps_cache_bind {A B} (m : M A) (k : A -> M B) :
  steps m keeps_cache -> (forall a, steps (k a) keeps_cache) ->
  steps (bind m k) keeps_cache.
Proof.
  intros Hm Hk. eapply steps_bind; [exact Hm | exact Hk | auto |].
  unfold keeps_cache. congruence.
Qed.

Ltac keeps_cache_leaf :=
  let H := fresh "H" in
  intros ? ? ? H;
  unfold print, emit in H;
  unfold ItchSale.getitem in H;
  unfold ret, raise, lift, gets, modify, ItchSale.load, ItchSale.update,
    ItchSale.alloc, ItchSale.http_get in H;
  first [ solve [simplify_eq; unfold keeps_cache; reflexivity]
        | solve [repeat case_match; simplify_eq; unfold keeps_cache; reflexivity] ].

Ltac keeps_cache_steps :=
  repeat first
    [ apply keeps_cache_bind; [| intros ?]
    | match goal with
      | |- steps (if ?b then _ else _) _ => destruct b
      | |- steps (match ?x with _ => _ end) _ => destruct x
      end
    | solve [keeps_cache_leaf] ].

(** From a run [H : m w = (r, w')] to [keeps_cache w w']. *)
Ltac keeps_cache_from H :=
  cbv beta in H;
  match type of H with
  | ?m ?w = (?r, ?w') =>
      let Hs := fresh "Hs" in
      assert (Hs : steps m keeps_cache) by keeps_cache_steps;
      apply Hs in H; clear Hs
  end.

Section FromDictPaths.
Variable requests_get : list event -> string -> res Response.t.
Variable sale_script : string -> res ItchSale.sale_data.
Variable strptime : string -> res datetime.

Abbreviation init := (ItchSale.init requests_get sale_script strptime).
Abbreviation from_dict := (ItchSale.from_dict requests_get sale_script strptime).

Lemma from_dict_built (dict : gmap string Z) (id st en : Z) (w : World) :
  dict !! "id" = Some id -> dict !! "start" = Some st -> dict !! "end" = Some en ->
  from_dict dict w
  = (Ok (length (sales w)),
     set_sales (sales w ++ [built id (fromtimestamp st) (fromtimestamp en)]) w).
Proof.
  intros Hid Hst Hen.
  unfold ItchSale.from_dict, ItchSale.getitem, try_except, bind.
  by rewrite Hid, Hst, Hen.
Qed.

(** A record that has [id], [start] and [end] is built into a new
    instance with those dates: nothing is requested, nothing is printed,
    and the class cache is neither read nor written: the instance handed
    out is a new one, also when one is cached for that ID. *)
Theorem from_dict_complete (dict : gmap string Z) (id st en : Z) (w : World) :
  dict !! "id" = Some id -> dict !! "start" = Some st -> dict !! "end" = Some en ->
  exists w',
    from_dict dict w = (Ok (length (sales w)), w') /\
    sales w' = sales w ++ [built id (fromtimestamp st) (fromtimestamp en)] /\
    trace w' = trace w /\
    cached_sales w' = cached_sales w /\
    sales w !! length (sales w) = None.
Proof.
  intros Hid Hst Hen. rewrite (from_dict_built dict id st en w Hid Hst Hen).
  eexists. split; [reflexivity|]. cbn. repeat split. by apply lookup_ge_None.
Qed.

Lemma init_keeps_cache (id : Z) (en st : option datetime) :
  steps (init id en st) keeps_cache.
Proof.
  unfold ItchSale.init, ItchSale.get_data_online, ItchSale.get_data_online_response.
  keeps_cache_steps.
Qed.

Lemma repair_keeps_cached (dict : gmap string Z) (id : Z) (w w' : World) (r : res nat) :
  dict !! "id" = Some id -> missing dict ->
  from_dict dict w = (r, w') ->
  (forall k l, cached_sales w !! k = Some l -> cached_sales w' !! k = Some l) /\
  (forall e, r = Raise e -> cached_sales w' = cached_sales w).
Proof.
  intros Hid Hmiss H. rewrite (from_dict_missing _ _ _ dict id w Hid Hmiss) in H.
  destruct (cached_sales w !! id) as [cached|] eqn:Hc; [by simplify_eq|].
  assert (H0 : keeps_cache w (log (refreshing id) w)) by reflexivity.
  revert H0 H. generalize (log (refreshing id) w). intros w0 H0 H.
  apply bind_inv in H as [(e & H & ->)|(sale & w1 & H1 & H)].
  { apply init_keeps_cache in H. unfold keeps_cache in *. split; intros; congruence. }
  apply init_keeps_cache in H1.
  apply bind_inv in H as [(e & H & ->)|(s & w2 & H2 & H)].
  { keeps_cache_from H. unfold keeps_cache in *. split; intros; congruence. }
  keeps_cache_from H2.
  apply bind_inv in H as [(e & H & ->)|([] & w3 & H3 & H)].
  { keeps_cache_from H. unfold keeps_cache in *. split; intros; congruence. }
  keeps_cache_from H3.
  apply bind_inv in H as [(e & H & ->)|([] & w4 & H4 & H)].
  { keeps_cache_from H. unfold keeps_cache in *. split; intros; congruence. }
  keeps_cache_from H4.
  unfold bind, modify, ret in H. simplify_eq. unfold keeps_cache in *. cbn.
  split; [|done]. intros k l Hk.
  destruct (decide (k = id)) as [->|Hne]; [congruence|].
  rewrite lookup_insert_ne by done. congruence.
Qed.

(** No call of [from_dict] takes an instance out of the class cache or
    puts another in its place, and a call that raises leaves the cache
    exactly as it was: a repair that fails is not remembered. *)
Theorem from_dict_keeps_cached (dict : gmap string Z) (w w' : World) (r : res nat) :
  from_dict dict w = (r, w') ->
  (forall k l, cached_sales w !! k = Some l -> cached_sales w' !! k = Some l) /\
  (forall e, r = Raise e -> cached_sales w' = cached_sales w).
Proof.
  intros H.
  destruct (dict !! "id") as [id|] eqn:Hid.
  2:{ unfold ItchSale.from_dict, ItchSale.getitem at 1, bind at 1, raise in H.
      rewrite Hid in H. by simplify_eq. }
  destruct (dict !! "start") as [st|] eqn:Hst;
    [destruct (dict !! "end") as [en|] eqn:Hen|].
  - rewrite (from_dict_built dict id st en w Hid Hst Hen) in H. by simplify_eq.
  - by apply (repair_keeps_cached dict id w w' r Hid (or_intror Hen)).
  - by apply (repair_keeps_cached dict id w w' r Hid (or_introl Hst)).
Qed.

(** A record with neither [start] nor [end], for a page that is gone:
    the repair reads [dict['start']] inside the handler, so the call ends
    in that [KeyError] after its one request and caches nothing; a later
    call with the same record starts over. *)
Theorem from_dict_bare_record_removed (dict : gmap string Z) (id : Z) (w : World)
    (r : Response.t) :
  dict !! "id" = Some id -> dict !! "start" = None -> dict !! "end" = None ->
  cached_sales w !! id = None ->
  requests_get (trace (log (refreshing id) w)) (sale_url id) = Ok r ->
  Response.status_code r = 404 ->
  exists w',
    from_dict dict w = (Raise (KeyError "start"), w') /\
    cached_sales w' = cached_sales w /\
    http_requests (trace w') = http_requests (trace w) ++ [sale_url id].
Proof.
  intros Hid Hst Hen Hc Hr H404.
  rewrite (from_dict_missing _ _ _ dict id w Hid (or_introl Hst)), Hc.
  unfold bind at 1.
  rewrite (init_not_found requests_get sale_script strptime id _ r Hr H404).
  unfold not_found_world at 1. unfold bind at 1, ItchSale.load at 1. cbn.
  rewrite lookup_last. unfold not_found_err.
  unfold bind, ItchSale.getitem, raise.
  destruct (String.eqb (Response.url r) (sale_url id)); cbn; rewrite Hen, Hst;
    eexists; (split; [reflexivity|]); (split; [reflexivity|]); cbn;
    rewrite !http_requests_app; cbn; by rewrite !app_nil_r.
Qed.

Lemma init_found (n : Z) (w : World) (r : Response.t)
    (data : ItchSale.sale_data) (st en : datetime) :
  requests_get (trace w) (sale_url n) = Ok r ->
  Response.status_code r <> 404 ->
  sale_script (Response.text r) = Ok data ->
  strptime (ItchSale.start_date data) = Ok st ->
  strptime (ItchSale.end_date data) = Ok en ->
  ItchSale.data_id data = n ->
  init n None None w = (Ok (length (sales w)), found_world n r st en w).
Proof.
  intros Hr H404 Hdata Hst Hen Hid.
  unfold ItchSale.init, ItchSale.get_data_online, ItchSale.get_data_online_response,
    ItchSale.alloc, ItchSale.load,
    ItchSale.http_get, ItchSale.update, bind, print, emit, modify, ret, lift, raise.
  cbn. rewrite lookup_last. cbn. rewrite Hr.
  destruct (Z.eqb_spec (Response.status_code r) 404) as [|_]; [done|].
  cbn. rewrite lookup_last. cbn. rewrite insert_last, Hdata, Hst. cbn.
  rewrite lookup_last. cbn. rewrite insert_last, Hen. cbn.
  rewrite lookup_last. cbn. rewrite insert_last, Hid, Z.eqb_refl.
  cbn. unfold found_world. f_equal; world_eq.
Qed.

(** A record that lacks a date, for a page that is there and declares
    the record's ID: the repaired instance takes both dates from the page,
    whatever the record held, keeps the page text, carries
    [STATUS_UPDATED], and is cached under its ID. *)
Theorem from_dict_refreshes_from_page (dict : gmap string Z) (id : Z) (w : World)
    (r : Response.t) (data : ItchSale.sale_data) (st en : datetime) :
  dict !! "id" = Some id -> missing dict ->
  cached_sales w !! id = None ->
  requests_get (trace (log (refreshing id) w)) (sale_url id) = Ok r ->
  Response.status_code r <> 404 ->
  sale_script (Response.text r) = Ok data ->
  strptime (ItchSale.start_date data) = Ok st ->
  strptime (ItchSale.end_date data) = Ok en ->
  ItchSale.data_id data = id ->
  exists w',
    from_dict dict w = (Ok (length (sales w)), w') /\
    sales w' = sales w ++ [refreshed id st en (Response.text r)] /\
    cached_sales w' = <[id := length (sales w)]> (cached_sales w).
Proof.
  intros Hid Hmiss Hc Hr H404 Hdata Hst Hen Hdid.
  rewrite (from_dict_missing _ _ _ dict id w Hid Hmiss), Hc.
  unfold bind at 1.
  rewrite (init_found id _ r data st en Hr H404 Hdata Hst Hen Hdid).
  unfold found_world at 1. unfold bind at 1, ItchSale.load at 1. cbn.
  rewrite lookup_last.
  unfold bind, ItchSale.update, modify, ret. cbn.
  rewrite lookup_last. cbn. rewrite insert_last.
  eexists. split; [reflexivity|]. by cbn.
Qed.

(** Serializing drops what is less than a second, towards zero: the
    instance that comes back has dates less than a second from the ones
    written, and serializes to the same dict again. *)
Theorem serialize_truncates (s : Sale.t) (st en : datetime) (w : World) :
  Sale.start s = Some st -> Sale.end_ s = Some en ->
  let st' := fromtimestamp (int_timestamp st) in
  let en' := fromtimestamp (int_timestamp en) in
  exists d,
    ItchSale.serialize s = Ok d /\
    from_dict d w
    = (Ok (length (sales w)), set_sales (sales w ++ [built (Sale.id s) st' en']) w) /\
    ItchSale.serialize (built (Sale.id s) st' en') = Ok d /\
    Z.abs (st - st') < 1000000 /\ Z.abs (en - en') < 1000000.
Proof.
  intros Hst Hen st' en'. unfold ItchSale.serialize at 1. rewrite Hst, Hen.
  eexists. split; [reflexivity|]. split; [|split].
  - apply from_dict_built.
    + by rewrite lookup_insert_eq.
    + rewrite lookup_insert_ne by done. by rewrite lookup_insert_eq.
    + do 2 (rewrite lookup_insert_ne by done). by rewrite lookup_insert_eq.
  - unfold ItchSale.serialize, built. cbn. subst st' en'.
    by rewrite !int_timestamp_fromtimestamp.
  - split; apply fromtimestamp_int_timestamp_near.
Qed.
End FromDictPaths.

Lemma from_dict_complete_witness :
  fst (ItchSale.from_dict origin_404 script_41 strptime_2024 complete_record empty_world)
  = Ok 0%nat.
Proof.
  destruct (from_dict_complete origin_404 script_41 strptime_2024 complete_record
              7 100 200 empty_world eq_refl eq_refl eq_refl) as (w' & H & _).
  by rewrite H.
Defined.

Lemma from_dict_keeps_cached_witness :
  cached_sales
    (snd (ItchSale.from_dict origin_404 script_41 strptime_2024 bare_record empty_world))
  = ∅.
Proof.
  destruct (from_dict_keeps_cached origin_404 script_41 strptime_2024 bare_record
              empty_world
              (snd (ItchSale.from_dict origin_404 script_41 strptime_2024 bare_record
                      empty_world))
              (Raise (KeyError "start"))) as [_ H].
  - vm_compute. reflexivity.
  - exact (H (KeyError "start") eq_refl).
Defined.

Lemma from_dict_bare_record_removed_witness :
  fst (ItchSale.from_dict origin_404 script_41 strptime_2024 bare_record empty_world)
  = Raise (KeyError "start").
Proof.
  destruct (from_dict_bare_record_removed origin_404 script_41 strptime_2024
              bare_record 7 empty_world
              {| Response.status_code := 404; Response.url := sale_url 7;
                 Response.text := "" |}
              eq_refl eq_refl eq_refl eq_refl eq_refl eq_refl) as (w' & H & _).
  by rewrite H.
Defined.

Lemma from_dict_refreshes_from_page_witness :
  fst (ItchSale.from_dict origin_frontier_3 script_of_page strptime_2024
         legacy_record_2 empty_world)
  = Ok 0%nat.
Proof.
  assert (H404 : 200 <> 404) by discriminate.
  assert (Hid : legacy_record_2 !! "id" = Some 2) by (vm_compute; reflexivity).
  assert (Hmiss : missing legacy_record_2) by (right; vm_compute; reflexivity).
  destruct (from_dict_refreshes_from_page origin_frontier_3 script_of_page strptime_2024
              legacy_record_2 2 empty_world
              {| Response.status_code := 200; Response.url := sale_url 2;
                 Response.text := "2" |}
              {| ItchSale.start_date := "2024-01-01T00:00:00Z";
                 ItchSale.end_date := "2024-01-08T00:00:00Z";
                 ItchSale.data_id := 2 |}
              (fromtimestamp 1704067200) (fromtimestamp 1704672000)
              Hid Hmiss eq_refl eq_refl H404 eq_refl eq_refl
              eq_refl eq_refl) as (w' & H & _).
  by rewrite H.
Defined.

Lemma serialize_truncates_witness :
  ItchSale.serialize sale_between_seconds
  = Ok (<["id" := 42]> (<["start" := -1]> (<["end" := 20]> ∅))).
Proof.
  destruct (serialize_truncates origin_404 script_41 strptime_2024
              sale_between_seconds (-1500000) 20500000 empty_world eq_refl eq_refl)
    as (d & H & _).
  rewrite H. vm_compute in H. by simplify_eq.
Defined.

(** ** ItchGame: one file per ID *)

Lemma string_app_length (s t : string) :
  String.length (s +:+ t) = (String.length s + String.length t)%nat.
Proof.
  induction s as [|a s IH]; [reflexivity|].
  change (String a s +:+ t) with (String a (s +:+ t)). cbn. by rewrite IH.
Qed.

Lemma string_app_inj_r (t s1 s2 : string) : s1 +:+ t = s2 +:+ t -> s1 = s2.
Proof.
  revert s2. induction s1 as [|a s1 IH]; intros [|b s2] H.
  - reflexivity.
  - apply (f_equal String.length) in H. rewrite !string_app_length in H. cbn in H. lia.
  - apply (f_equal String.length) in H. rewrite !string_app_length in H. cbn in H. lia.
  - change (String a (s1 +:+ t) = String b (s2 +:+ t)) in H.
    injection H as -> H. f_equal. by apply IH.
Qed.

Lemma path_join_inj (dir f1 f2 : string) :
  ItchGame.path_join dir f1 = ItchGame.path_join dir f2 -> f1 = f2.
Proof.
  unfold ItchGame.path_join. destruct dir as [|a dir]; [done|].
  destruct (ItchGame.ends_with_slash (String a dir)); intros H.
  - by apply (inj (String.app _)) in H.
  - apply (inj (String.app _)) in H. by apply (inj (String.app "/")) in H.
Qed.

Lemma depth_json (v : pyval) : depth (json_loads (json_dumps v)) = depth v.
Proof.
  revert v. fix IH 1. intros [| | | | |l|l]; try reflexivity; cbn; f_equal;
    rewrite !map_map; f_equal;
    (induction l as [|x l IHl]; cbn; [reflexivity|by rewrite IH, IHl]).
Qed.

Section FilePerId.
Variable games_dir : string.

Abbreviation filename := (ItchGame.get_default_game_filename games_dir).
Abbreviation save_to_disk := (ItchGame.save_to_disk games_dir).

(** Two games have the same cache file exactly when they have the same
    ID. *)
Lemma filename_inj (g1 g2 : Game.t) :
  filename g1 = filename g2 <-> Game.id g1 = Game.id g2.
Proof.
  unfold ItchGame.get_default_game_filename. split.
  - intros H. apply path_join_inj, string_app_inj_r in H. by apply (inj pretty).
  - by intros ->.
Qed.

(** The cache is keyed by the ID alone: saving a game leaves the file of
    every game with another ID as it was, and takes the place of the file
    of a game with the same ID, whatever else differs between the two. *)
Theorem save_to_disk_keyed_by_id (g1 g2 : Game.t) (w : World) :
  let saved1 := snd (save_to_disk g1 w) in
  let saved2 := snd (save_to_disk g2 saved1) in
  (Game.id g1 <> Game.id g2 ->
     ItchGame.load_from_disk (filename g1) saved2
     = (fst (ItchGame.load_from_disk (filename g1) saved1), saved2)) /\
  (Game.id g1 = Game.id g2 ->
     fst (ItchGame.load_from_disk (filename g1) saved2)
     = fst (ItchGame.load_from_disk (filename g2) (snd (save_to_disk g2 w)))).
Proof.
  intros saved1 saved2. subst saved1 saved2. split.
  - intros Hne.
    assert (Hfile : filename g2 <> filename g1) by (rewrite filename_inj; congruence).
    unfold ItchGame.load_from_disk, ItchGame.save_to_disk, bind, gets, modify. cbn.
    rewrite (lookup_insert_ne _ _ _ _ Hfile). rewrite lookup_insert_eq. reflexivity.
  - intros Heq. apply filename_inj in Heq.
    unfold ItchGame.load_from_disk, ItchGame.save_to_disk, bind, gets, modify. cbn.
    rewrite Heq, !lookup_insert_eq. reflexivity.
Qed.

(** No game comes back from its file as it was written: whatever
    [sale_id] held, it comes back one level deeper in a tuple. *)
Theorem load_after_save_never_same (g : Game.t) (w : World) :
  exists g',
    fst (ItchGame.load_from_disk (filename g) (snd (save_to_disk g w))) = Ok g' /\
    depth (Game.sale_id g') = S (depth (Game.sale_id g)) /\
    g' <> g.
Proof.
  rewrite load_after_save. eexists. split; [reflexivity|].
  cbn [Game.sale_id]. assert (Hd : depth (VTuple [json_loads (json_dumps (Game.sale_id g))])
                                   = S (depth (Game.sale_id g))).
  { cbn. rewrite depth_json. f_equal. lia. }
  split; [exact Hd|]. intros Heq. apply (f_equal (fun x => depth (Game.sale_id x))) in Heq.
  cbn [Game.sale_id] in Heq. rewrite Hd in Heq. lia.
Qed.
End FilePerId.

Lemma save_to_disk_keyed_by_id_witness :
  fst (ItchGame.load_from_disk (ItchGame.get_default_game_filename "games" game_7)
         (snd (ItchGame.save_to_disk "games" game_8
                 (snd (ItchGame.save_to_disk "games" game_7 empty_world)))))
  = Ok (Game.set_sale_id (VTuple [VInt 42]) game_7).
Proof.
  assert (Hne : Game.id game_7 <> Game.id game_8) by discriminate.
  destruct (save_to_disk_keyed_by_id "games" game_7 game_8 empty_world) as [H _].
  rewrite (H Hne). vm_compute. reflexivity.
Defined.

(** ** _claim_game of ItchClaim *)

(** [_claim_game] of [ItchClaim] never claims: whatever the game and the
    state, it returns normally after the one line that says the check
    failed, having sent no request and left the library as it was. *)
Theorem claim_game_never_claims (g : Game.t) (w : World) :
  exists w',
    ItchClaim._claim_game g w = (Ok tt, w') /\
    trace w' = trace w ++ [Print ("ERROR: Failed to check " +:+ Game.url g)] /\
    http_requests (trace w') = http_requests (trace w) /\
    owned_games w' = owned_games w.
Proof.
  eexists. split; [reflexivity|]. cbn. split; [reflexivity|]. split; [|reflexivity].
  rewrite http_requests_app. cbn. by rewrite app_nil_r.
Qed.

(** ** ItchGame: the requests behind a list of files *)

Section DownloadRequests.
Variable home_cookies : res (gmap string string).
Variable post_download_url : list event -> string -> string -> res Negotiation.t.
Variable get_download_page : list event -> string -> res (list ItchGame.upload_div).
Variable post_file : list event -> string -> string -> res string.
Variable unquote : string -> string.
Variable strptime : string -> res datetime.

Abbreviation downloadable_files :=
  (ItchGame.downloadable_files home_cookies post_download_url get_download_page
     post_file unquote strptime).
Abbreviation parse_all := (ItchGame.parse_all post_file unquote strptime).
Abbreviation parse_download_div := (ItchGame.parse_download_div post_file unquote strptime).


Lemma parse_download_div_trace (g : Game.t) (s : gmap string string)
    (div : ItchGame.upload_div) (w w' : World) (u : ItchGame.upload) :
  parse_download_div g div s w = (Ok u, w') ->
  trace w' = trace w ++ [file_request g (ItchGame.id u)] /\
  ItchGame.data_upload_id div = Ok (ItchGame.id u) /\
  ItchGame.strong_name div = Ok (ItchGame.name u) /\
  ItchGame.file_size_text div = Ok (ItchGame.file_size u) /\
  ItchGame.platforms u
  = match ItchGame.download_platforms div with
    | Some icons => filter (fun platform => platform ∈ icons) ItchGame.ITCHIO_PLATFORMS
    | None => []
    end.
Proof.
  unfold ItchGame.parse_download_div, ItchGame.cookie, ItchGame.request, bind, lift, ret,
    raise, file_request.
  intros H. repeat case_match; simplify_eq; cbn; done.
Qed.

Lemma parse_all_trace (g : Game.t) (s : gmap string string)
    (divs : list ItchGame.upload_div) :
  forall w w' uploads,
    parse_all g divs s w = (Ok uploads, w') ->
    trace w' = trace w ++ map (fun u => file_request g (ItchGame.id u)) uploads /\
    map ItchGame.data_upload_id divs = map (fun u => Ok (ItchGame.id u)) uploads.
Proof.
  induction divs as [|div rest IH]; intros w w' uploads H.
  - cbn in H. unfold ret in H. simplify_eq. cbn. by rewrite app_nil_r.
  - cbn [ItchGame.parse_all] in H.
    apply bind_ok in H as (u & w1 & Hdiv & H).
    apply bind_ok in H as (us & w2 & Hrest & H).
    unfold ret in H. simplify_eq.
    apply parse_download_div_trace in Hdiv as (Htr & Hid & _).
    apply IH in Hrest as (Htr' & Hids). cbn.
    rewrite Htr', Htr, <- app_assoc. cbn. by rewrite Hid, Hids.
Qed.

Lemma session_requests (g : Game.t) (s : gmap string string)
    (w w' : World) (uploads : list ItchGame.upload) :
  downloadable_files g (Some s) w = (Ok (Some uploads), w') ->
  exists download_page divs,
    get_download_page (trace (sent "POST" (Game.url g +:+ "/download_url") w))
      download_page = Ok divs /\
    map ItchGame.data_upload_id divs = map (fun u => Ok (ItchGame.id u)) uploads /\
    trace w' = trace w ++ [Http "POST" (Game.url g +:+ "/download_url");
                           Http "GET" download_page]
                       ++ map (fun u => file_request g (ItchGame.id u)) uploads.
Proof.
  intros H. unfold ItchGame.downloadable_files in H.
  apply bind_ok in H as (s' & w0 & Hs & H). unfold ret in Hs. simplify_eq.
  apply bind_ok in H as (token & w1 & Htoken & H).
  unfold ItchGame.cookie in Htoken. destruct (s' !! "itchio_token"); [|done].
  unfold ret in Htoken. simplify_eq.
  apply bind_ok in H as (resp & w2 & Hneg & H).
  unfold ItchGame.request in Hneg. simplify_eq.
  destruct (Negotiation.errors resp) as [errors|].
  { apply bind_ok in H as ([] & w3 & _ & H).
    destruct errors; [done|]. apply bind_ok in H as ([] & w4 & _ & H). done. }
  destruct (Negotiation.url resp) as [download_page|]; [|done].
  apply bind_ok in H as (divs & w3 & Hpage & H).
  apply bind_ok in H as (us & w4 & Hparse & H). unfold ret in H. simplify_eq.
  unfold ItchGame.request in Hpage. simplify_eq.
  apply parse_all_trace in Hparse as (Htr & Hids).
  exists download_page, divs. split; [by unfold sent|]. split; [done|].
  rewrite Htr. cbn. by rewrite <- !app_assoc.
Qed.


Lemma parse_download_div_malformed (g : Game.t) (s : gmap string string)
    (div : ItchGame.upload_div) (w : World) :
  ~ well_formed strptime div ->
  is_ok (fst (parse_download_div g div s w)) = false.
Proof.
  intros Hbad.
  unfold ItchGame.parse_download_div, ItchGame.cookie, ItchGame.request, bind, lift, ret,
    raise.
  destruct (ItchGame.data_upload_id div) as [id|] eqn:Hid; [|done].
  destruct (ItchGame.upload_date_title div) as [title|] eqn:Htitle; [|done].
  destruct (strptime title) as [date|] eqn:Hdate; [|done].
  destruct (s !! "itchio_token") as [token|]; [|done]. cbn.
  destruct (post_file _ _ _); [|done].
  destruct (ItchGame.strong_name div) as [name|] eqn:Hname; [|done].
  destruct (ItchGame.file_size_text div) as [size|] eqn:Hsize; [|done].
  destruct Hbad. unfold well_formed. rewrite Hid, Htitle, Hname, Hsize.
  repeat split. exists title. by rewrite Hdate.
Qed.

Lemma parse_all_malformed (g : Game.t) (s : gmap string string)
    (divs : list ItchGame.upload_div) :
  Exists (fun div => ~ well_formed strptime div) divs ->
  forall w, is_ok (fst (parse_all g divs s w)) = false.
Proof.
  induction divs as [|div rest IH]; intros Hbad w; [by apply Exists_nil in Hbad|].
  cbn [ItchGame.parse_all]. unfold bind.
  destruct (parse_download_div g div s w) as [[u|e] w1] eqn:Hdiv; [|done].
  apply Exists_cons in Hbad as [Hbad|Hbad].
  - apply (parse_download_div_malformed g s div w) in Hbad. by rewrite Hdiv in Hbad.
  - specialize (IH Hbad w1). by destruct (parse_all g rest s w1) as [[us|e] w2].
Qed.

(** The list is all or nothing: one upload div of the download page in
    which a lookup of [parse_download_div] fails (no download button, no
    date, a date that does not parse, no name, no size) makes the whole
    call end in an exception; nothing is returned for the other
    uploads. *)
Theorem downloadable_files_all_or_nothing (g : Game.t) (s : gmap string string)
    (token download_page : string) (w : World) (resp : Negotiation.t)
    (divs : list ItchGame.upload_div) :
  let neg_url := Game.url g +:+ "/download_url" in
  s !! "itchio_token" = Some token ->
  post_download_url (trace w) neg_url (unquote token) = Ok resp ->
  Negotiation.errors resp = None ->
  Negotiation.url resp = Some download_page ->
  get_download_page (trace (sent "POST" neg_url w)) download_page = Ok divs ->
  Exists (fun div => ~ well_formed strptime div) divs ->
  is_ok (fst (downloadable_files g (Some s) w)) = false.
Proof.
  intros neg_url Htoken Hneg Herr Hurl Hpage Hbad. subst neg_url.
  unfold sent in Hpage. cbn in Hpage.
  unfold ItchGame.downloadable_files, ItchGame.cookie, ItchGame.request, bind, ret.
  rewrite Htoken. cbn. rewrite Hneg, Herr, Hurl. cbn. rewrite Hpage.
  match goal with
  | |- context [ItchGame.parse_all _ _ _ g divs s ?w1] =>
      pose proof (parse_all_malformed g s divs Hbad w1) as H;
      destruct (parse_all g divs s w1) as [[us|e] w2]; [done|reflexivity]
  end.
Qed.

(** The platforms of an upload are the platforms of itch.io whose icon is
    in the div, always in the order windows8, android, tux, apple, each at
    most once, whatever the order and number of the icons; a div without
    the platform span has none. *)
Theorem upload_platforms (g : Game.t) (s : gmap string string)
    (div : ItchGame.upload_div) (w w' : World) (u : ItchGame.upload) :
  parse_download_div g div s w = (Ok u, w') ->
  ItchGame.platforms u `sublist_of` ["windows8"; "android"; "tux"; "apple"] /\
  (forall platform,
     platform ∈ ItchGame.platforms u <->
     platform ∈ ["windows8"; "android"; "tux"; "apple"] /\
     exists icons, ItchGame.download_platforms div = Some icons /\ platform ∈ icons).
Proof.
  intros H. apply parse_download_div_trace in H as (_ & _ & _ & _ & ->).
  fold ItchGame.ITCHIO_PLATFORMS.
  destruct (ItchGame.download_platforms div) as [icons|].
  - split; [apply sublist_filter|]. intros platform.
    rewrite list_elem_of_filter. split.
    + intros [Hin Hp]. split; [done|]. by exists icons.
    + intros [Hp (icons' & Heq & Hin)]. by simplify_eq.
  - split; [apply sublist_nil_l|]. intros platform. split.
    + by intros Hin%elem_of_nil.
    + by intros [_ (icons & Heq & _)].
Qed.
End DownloadRequests.



Lemma downloadable_files_all_or_nothing_witness :
  is_ok (fst (ItchGame.downloadable_files (Ok session_1) negotiates one_bad_upload
                file_url id strptime_upload game_7 (Some session_1) empty_world))
  = false.
Proof.
  assert (Hbad : Exists (fun div => ~ well_formed strptime_upload div)
                   [upload_div_1; upload_div_no_button]).
  { apply Exists_cons_tl, Exists_cons_hd. intros [Hid _]. discriminate Hid. }
  exact (downloadable_files_all_or_nothing (Ok session_1) negotiates one_bad_upload
           file_url id strptime_upload game_7 session_1 "token"
           "https://dev.itch.io/seven/download/key" empty_world
           {| Negotiation.errors := None;
              Negotiation.url := Some "https://dev.itch.io/seven/download/key" |}
           [upload_div_1; upload_div_no_button] eq_refl eq_refl eq_refl eq_refl eq_refl
           Hbad).
Defined.

Lemma upload_platforms_witness :
  match fst (ItchGame.parse_download_div file_url id strptime_upload game_7 upload_div_1
               session_1 empty_world) with
  | Ok u => ItchGame.platforms u `sublist_of` ["windows8"; "android"; "tux"; "apple"]
  | Raise _ => False
  end.
Proof.
  destruct (ItchGame.parse_download_div file_url id strptime_upload game_7 upload_div_1
              session_1 empty_world) as [[u|e] w'] eqn:Hrun.
  - exact (proj1 (upload_platforms file_url id strptime_upload game_7 session_1
                    upload_div_1 empty_world w' u Hrun)).
  - vm_compute in Hrun. discriminate Hrun.
Defined.

(** ** The retry client: what it asks for *)

Lemma only_asks_refl (method url : string) (w : World) : only_asks method url w w.
Proof. exists []. split; [|constructor]. rewrite app_nil_r. by destruct w. Qed.

Lemma only_asks_trans (method url : string) (w w1 w2 : World) :
  only_asks method url w w1 -> only_asks method url w1 w2 -> only_asks method url w w2.
Proof.
  intros (e1 & -> & H1) (e2 & -> & H2). exists (e1 ++ e2). split.
  - cbn. by rewrite app_assoc.
  - by apply Forall_app.
Qed.

Lemma only_asks_bind {A B} (method url : string) (m : M A) (k : A -> M B) :
  steps m (only_asks method url) -> (forall a, steps (k a) (only_asks method url)) ->
  steps (bind m k) (only_asks method url).
Proof.
  intros Hm Hk. eapply steps_bind; [exact Hm | exact Hk | auto |].
  apply only_asks_trans.
Qed.

Lemma only_asks_ret {A} (method url : string) (a : A) :
  steps (ret a) (only_asks method url).
Proof. intros w r w' H. unfold ret in H. simplify_eq. apply only_asks_refl. Qed.

Lemma only_asks_raise {A} (method url : string) (e : exn) :
  steps (raise (A := A) e) (only_asks method url).
Proof. intros w r w' H. unfold raise in H. simplify_eq. apply only_asks_refl. Qed.

Lemma only_asks_emit (method url : string) (e : event) :
  match e with
  | Http m u => m = method /\ u = url
  | Listing _ _ => False
  | _ => True
  end ->
  steps (emit e) (only_asks method url).
Proof.
  intros He w r w' H. unfold emit, modify in H. simplify_eq.
  exists [e]. split; [done|]. by constructor.
Qed.

Section OnlyAsks.
Variable network : list event -> string -> string -> res Response.t.
Variable user : option User.t.

Lemma only_asks_send (method url : string) :
  steps (ItchClaim.send network method url) (only_asks method url).
Proof.
  intros w r w' H. unfold ItchClaim.send in H. simplify_eq.
  exists [Http method url]. split; [done|]. by constructor.
Qed.

Lemma only_asks_attempt (type url : string) (r : option Response.t) :
  steps (ItchClaim.attempt network user type url r) (only_asks (method_of type) url).
Proof.
  unfold ItchClaim.attempt, ItchClaim.user_send, method_of.
  destruct (String.eqb_spec type "get") as [->|Hget];
    [|destruct (String.eqb_spec type "post") as [->|Hpost];
      [|destruct (String.eqb_spec type "user_get") as [->|Huget];
        [|destruct (String.eqb_spec type "user_post") as [->|Hupost]]]];
    cbn [String.eqb Ascii.eqb Bool.eqb]; destruct user;
    repeat first [ apply only_asks_ret | apply only_asks_raise | apply only_asks_send
                 | apply only_asks_bind; [|intros ?] ].
Qed.

Lemma loop_only_asks (fuel : nat) (type url : string) (r : option Response.t)
    (count : Z) :
  steps (ItchClaim._send_web_loop network user fuel type url r count)
    (only_asks (method_of type) url).
Proof.
  revert r count. induction fuel as [|fuel IH]; intros r count; cbn.
  - apply only_asks_ret.
  - apply only_asks_bind; [by apply only_asks_emit|]. intros _.
    apply only_asks_bind.
    + eapply steps_try_except.
      * apply only_asks_attempt.
      * intros e h Hh. destruct e; simplify_eq.
        apply only_asks_bind; [by apply only_asks_emit|]. intros _. apply only_asks_ret.
      * auto.
      * apply only_asks_trans.
    + intros [resp|]; [|apply only_asks_raise].
      repeat (case_match; [apply only_asks_ret|]).
      case_match.
      * apply only_asks_bind; [by apply only_asks_emit|]. intros _. apply IH.
      * case_match; [|apply IH].
        repeat (apply only_asks_bind; [by apply only_asks_emit|intros _]).
        apply only_asks_raise.
Qed.

(** The retry client asks for nothing but what it was told to: however
    long it runs and however it ends, with a response, an exception or
    [exit(1)], it leaves everything but the trace as it was, and every
    request it has sent went to the given URL with the method of the
    request type. *)
Theorem send_web_only_asks (fuel : nat) (type url : string) (w w' : World)
    (r : res (option Response.t)) :
  ItchClaim._send_web network user fuel type url w = (r, w') ->
  only_asks (method_of type) url w w'.
Proof. apply loop_only_asks. Qed.
End OnlyAsks.

Section ScrapeFuture.
Variable network : list event -> string -> string -> res Response.t.
Variable u : User.t.
Variable reload_owned_games : M unit.
Variable save_session : M unit.
Variable int : string -> res Z.

Abbreviation scrape_future_sales :=
  (ItchClaim.scrape_future_sales network (Some u) reload_owned_games save_session int).
Abbreviation resume_index_url := "https://itchclaim.tmbpeter.com/data/resume_index.txt".

(** [scrape_future_sales] never scrapes.  For a user who is logged in no
    run comes to a normal end, whatever the network, the library and the
    two session methods do; and with a library in the cache, once the
    resume index has arrived and reads as a number the call ends in the
    [UnboundLocalError] of line 582, having asked for nothing else. *)
Theorem scrape_future_sales_never_scrapes (fuel : nat) (w : World) :
  fst (scrape_future_sales fuel w) <> Ok (Some tt) /\
  (forall resp w1 n,
     owned_games w <> [] ->
     ItchClaim._send_web network (Some u) fuel "get" resume_index_url w
     = (Ok (Some resp), w1) ->
     int (Response.text resp) = Ok n ->
     scrape_future_sales fuel w = (Raise (UnboundLocalError "scrape_page"), w1) /\
     only_asks "GET" resume_index_url w w1).
Proof.
  split.
  - destruct (scrape_future_sales fuel w) as [r w'] eqn:Hrun. cbn. intros ->.
    unfold ItchClaim.scrape_future_sales in Hrun.
    apply bind_ok in Hrun as (owned & w1 & _ & Hrun).
    apply bind_ok in Hrun as ([] & w2 & _ & Hrun).
    apply bind_ok in Hrun as ([resp|] & w3 & _ & Hrun); [|done].
    apply bind_ok in Hrun as (n & w4 & _ & Hrun). done.
  - intros resp w1 n Howned Hsend Hint. split.
    + unfold ItchClaim.scrape_future_sales, bind at 1, gets at 1.
      destruct (owned_games w) as [|g0 rest]; [done|]. cbn [length Nat.eqb].
      unfold bind at 1, ret at 1. unfold bind at 1. rewrite Hsend.
      unfold bind, lift. by rewrite Hint.
    + by apply (loop_only_asks network (Some u) fuel "get" resume_index_url None 0)
        in Hsend.
Qed.
End ScrapeFuture.

Lemma send_web_only_asks_witness :
  only_asks "GET" "https://itch.io/s/1" empty_world
    (snd (ItchClaim._send_web (answers 200) (Some user_1) 1 "get" "https://itch.io/s/1"
            empty_world)).
Proof.
  apply (send_web_only_asks (answers 200) (Some user_1) 1 "get" "https://itch.io/s/1"
           empty_world _ (Ok (Some response_200))).
  vm_compute. reflexivity.
Defined.

Lemma scrape_future_sales_never_scrapes_witness :
  fst (ItchClaim.scrape_future_sales (answers 200) (Some user_1) (ret tt) (ret tt)
         (fun _ => Ok 5) 1 owning_7)
  = Raise (UnboundLocalError "scrape_page").
Proof.
  assert (Howned : owned_games owning_7 <> []) by discriminate.
  destruct (scrape_future_sales_never_scrapes (answers 200) user_1 (ret tt) (ret tt)
              (fun _ => Ok 5) 1 owning_7) as [_ H].
  destruct (H {| Response.status_code := 200;
                 Response.url := "https://itchclaim.tmbpeter.com/data/resume_index.txt";
                 Response.text := "body" |}
              (sent "GET" "https://itchclaim.tmbpeter.com/data/resume_index.txt"
                 (slept 1 owning_7))
              5 Howned eq_refl eq_refl) as [Hrun _].
  by rewrite Hrun.
Defined.

(** ** _substr: the text between two patterns *)

Lemma string_app_cons (c : ascii) (s t : string) :
  String c s +:+ t = String c (s +:+ t).
Proof. reflexivity. Qed.

Lemma string_app_nil_l (s : string) : "" +:+ s = s.
Proof. reflexivity. Qed.

Lemma string_app_nil_r (s : string) : s +:+ "" = s.
Proof. induction s as [|c s IH]; [reflexivity|]. by rewrite string_app_cons, IH. Qed.

Lemma string_app_assoc (s t u : string) : (s +:+ t) +:+ u = s +:+ t +:+ u.
Proof.
  induction s as [|c s IH]; [reflexivity|]. by rewrite !string_app_cons, IH.
Qed.

Lemma string_length_zero (s : string) : String.length s = 0%nat -> s = "".
Proof. by destruct s. Qed.

Lemma prefix_occurs (p s : string) : String.prefix p s = true <-> occurs p s 0.
Proof.
  split.
  - revert s. induction p as [|c p IH]; intros s H.
    + by exists "", s.
    + destruct s as [|d s]; [done|]. cbn in H.
      destruct (ascii_dec c d) as [->|]; [|done].
      destruct (IH s H) as (a & b & -> & Ha). apply string_length_zero in Ha as ->.
      by exists "", b.
  - intros (a & b & -> & Ha). apply string_length_zero in Ha as ->.
    rewrite string_app_nil_l. induction p as [|c p IH]; [by destruct b|].
    rewrite string_app_cons. cbn. by destruct (ascii_dec c c).
Qed.

Lemma occurs_cons (p s : string) (c : ascii) (k : nat) :
  occurs p (String c s) (S k) <-> occurs p s k.
Proof.
  split.
  - intros (a & b & Heq & Ha). destruct a as [|d a]; [done|].
    rewrite string_app_cons in Heq. simplify_eq. cbn in Ha. by exists a, b; split; [|lia].
  - intros (a & b & -> & Ha). exists (String c a), b. split; [done|]. cbn. by rewrite Ha.
Qed.

Lemma occurs_empty (p : string) (k : nat) : occurs p "" k -> p = "" /\ k = 0%nat.
Proof.
  intros (a & b & Heq & Ha). destruct a; [|done]. destruct p; [|done]. by cbn in Ha.
Qed.

Lemma index_Some (n m : nat) (p s : string) :
  String.index n p s = Some m ->
  (n <= m)%nat /\ occurs p s m /\ forall k, (n <= k)%nat -> occurs p s k -> (m <= k)%nat.
Proof.
  revert n m. induction s as [|c s IH]; intros n m H.
  - cbn in H. destruct n; [|done]. destruct p; [|done]. simplify_eq.
    split; [lia|]. split; [by exists "", ""|]. lia.
  - cbn [String.index] in H. destruct n as [|n].
    + destruct (String.prefix p (String c s)) eqn:Hpre.
      * simplify_eq. split; [lia|]. split; [by apply prefix_occurs|]. lia.
      * destruct (String.index 0 p s) as [m'|] eqn:Hidx; [|done]. simplify_eq.
        destruct (IH _ _ Hidx) as (_ & Hocc & Hmin).
        split; [lia|]. split; [by apply occurs_cons|].
        intros [|k] _ Hk.
        -- apply prefix_occurs in Hk. congruence.
        -- apply occurs_cons in Hk. apply Hmin in Hk; lia.
    + destruct (String.index n p s) as [m'|] eqn:Hidx; [|done]. simplify_eq.
      destruct (IH _ _ Hidx) as (Hle & Hocc & Hmin).
      split; [lia|]. split; [by apply occurs_cons|].
      intros [|k] Hn Hk; [lia|].
      apply occurs_cons in Hk. apply Hmin in Hk; lia.
Qed.

Lemma index_None (n : nat) (p s : string) :
  String.index n p s = None -> forall k, (n <= k)%nat -> ~ occurs p s k.
Proof.
  revert n. induction s as [|c s IH]; intros n H k Hn Hk.
  - apply occurs_empty in Hk as [-> ->]. destruct n; [cbn in H; done|lia].
  - cbn [String.index] in H. destruct n as [|n].
    + destruct (String.prefix p (String c s)) eqn:Hpre; [done|].
      destruct (String.index 0 p s) as [m'|] eqn:Hidx; [done|].
      destruct k as [|k].
      * apply prefix_occurs in Hk. congruence.
      * apply occurs_cons in Hk. by eapply (IH 0%nat Hidx k); [lia|].
    + destruct (String.index n p s) as [m'|] eqn:Hidx; [done|].
      destruct k as [|k]; [lia|].
      apply occurs_cons in Hk. by eapply (IH n Hidx k); [lia|].
Qed.

Lemma index_first (n m : nat) (p s : string) :
  (n <= m)%nat -> occurs p s m ->
  (forall k, (n <= k < m)%nat -> ~ occurs p s k) ->
  String.index n p s = Some m.
Proof.
  intros Hle Hocc Hmin. destruct (String.index n p s) as [m'|] eqn:Hidx.
  - apply index_Some in Hidx as (Hle' & Hocc' & Hmin').
    f_equal. pose proof (Hmin' m Hle Hocc).
    destruct (decide (m' < m)%nat) as [Hlt|]; [|lia].
    by destruct (Hmin m' ltac:(lia)).
  - by destruct (index_None _ _ _ Hidx m Hle).
Qed.

Lemma string_app_split (x y x' y' : string) :
  x +:+ y = x' +:+ y' -> (String.length x <= String.length x')%nat ->
  exists z, x' = x +:+ z /\ y = z +:+ y'.
Proof.
  revert x'. induction x as [|c x IH]; intros x' Heq Hlen.
  - by exists x'.
  - destruct x' as [|d x']; [cbn in Hlen; lia|].
    rewrite !string_app_cons in Heq. simplify_eq. cbn in Hlen.
    destruct (IH x' H ltac:(lia)) as (z & -> & ->). by exists z.
Qed.

Lemma substring_app_middle (x r y : string) :
  String.substring (String.length x) (String.length r) (x +:+ r +:+ y) = r.
Proof.
  induction x as [|c x IH]; [|by rewrite string_app_cons].
  rewrite string_app_nil_l. cbn [String.length]. clear.
  induction r as [|c r IH]; [by destruct y|].
  rewrite string_app_cons. cbn. by rewrite IH.
Qed.

Lemma occurs_app_skip (x t p : string) (k : nat) :
  occurs p (x +:+ t) (String.length x + k) <-> occurs p t k.
Proof.
  induction x as [|c x IH]; [done|].
  rewrite string_app_cons. cbn [String.length Nat.add]. by rewrite occurs_cons.
Qed.

Lemma find_from (s p : string) (i : nat) :
  Str.find s p (Z.of_nat i)
  = match String.index i p s with Some m => Z.of_nat m | None => -1 end.
Proof.
  unfold Str.find, Str.from_end.
  destruct (Z.ltb_spec (Z.of_nat i) 0) as [Hneg|_]; [lia|]. by rewrite Nat2Z.id.
Qed.

Lemma slice_between (s : string) (i j : nat) :
  (i <= j <= String.length s)%nat ->
  Str.slice s (Z.of_nat i) (Z.of_nat j) = String.substring i (j - i) s.
Proof.
  intros Hij. unfold Str.slice, Str.from_end, Str.len.
  destruct (Z.ltb_spec (Z.of_nat i) 0) as [Hneg|_]; [lia|].
  destruct (Z.ltb_spec (Z.of_nat j) 0) as [Hneg|_]; [lia|].
  rewrite !Z.min_l by lia. rewrite <- Nat2Z.inj_sub by lia. by rewrite !Nat2Z.id.
Qed.

Lemma occurs_length (p s : string) (k : nat) :
  occurs p s k -> (k + String.length p <= String.length s)%nat.
Proof. intros (a & b & -> & <-). rewrite !string_app_length. lia. Qed.

Lemma substr_run (s p1 p2 : string) (i : nat) :
  ItchClaim._substr s (VInt (Z.of_nat i)) p1 p2
  = match String.index i p1 s with
    | None => Ok None
    | Some m =>
        match String.index (m + String.length p1) p2 s with
        | None => Ok None
        | Some m2 =>
            Ok (Some (String.substring (m + String.length p1)
                        (m2 - (m + String.length p1)) s))
        end
    end.
Proof.
  unfold ItchClaim._substr. cbn [Str.index_arg]. rewrite find_from.
  destruct (String.index i p1 s) as [m|] eqn:H1; [|reflexivity].
  destruct (Z.eqb_spec (Z.of_nat m) (-1)) as [Hneg|_]; [lia|]. cbn zeta.
  unfold Str.len. rewrite <- Nat2Z.inj_add, find_from.
  destruct (String.index (m + String.length p1) p2 s) as [m2|] eqn:H2; [|reflexivity].
  destruct (Z.eqb_spec (Z.of_nat m2) (-1)) as [Hneg|_]; [lia|].
  apply index_Some in H2 as (Hle & Hocc & _). apply occurs_length in Hocc.
  rewrite slice_between by lia. reflexivity.
Qed.

Section Substr.

(** [_substr] gives back [r] exactly when the string reads
    [a pat1 r pat2 b], where [pat1] does not occur between the index
    [idx0] and the end of [a] (it is the first [pat1] from [idx0] on)
    and [pat2] does not occur in what follows that [pat1] before the end
    of [r] (it is the first [pat2] behind it). *)
Theorem substr_between (s p1 p2 r : string) (i : nat) :
  ItchClaim._substr s (VInt (Z.of_nat i)) p1 p2 = Ok (Some r) <->
  exists a b,
    s = a +:+ p1 +:+ r +:+ p2 +:+ b /\
    (i <= String.length a)%nat /\
    (forall k, (i <= k < String.length a)%nat -> ~ occurs p1 s k) /\
    (forall k, (k < String.length r)%nat -> ~ occurs p2 (r +:+ p2 +:+ b) k).
Proof.
  rewrite substr_run. split.
  - destruct (String.index i p1 s) as [m|] eqn:H1; [|done].
    destruct (String.index (m + String.length p1) p2 s) as [m2|] eqn:H2; [|done].
    intros Hr. simplify_eq.
    apply index_Some in H1 as (Hle1 & (a & b1 & Hs1 & Ha) & Hmin1).
    apply index_Some in H2 as (Hle2 & (a2 & b & Hs2 & Ha2) & Hmin2).
    assert (Hsplit : (a +:+ p1) +:+ b1 = a2 +:+ p2 +:+ b)
      by (rewrite string_app_assoc; congruence).
    apply string_app_split in Hsplit as (z & Hz & ->);
      [|rewrite string_app_length; lia].
    assert (Hlen : String.length z = (m2 - (m + String.length p1))%nat).
    { apply (f_equal String.length) in Hz. rewrite !string_app_length in Hz. lia. }
    assert (Hs : s = (a +:+ p1) +:+ z +:+ p2 +:+ b) by (by rewrite string_app_assoc).
    assert (Hsub : String.substring (m + String.length p1)
                     (m2 - (m + String.length p1)) s = z).
    { rewrite Hs at 1. rewrite <- Hlen, <- Ha, <- string_app_length.
      apply substring_app_middle. }
    rewrite Hsub. exists a, b. split; [exact Hs1|]. split; [lia|]. split.
    + intros k Hk Hocc. apply Hmin1 in Hocc; lia.
    + intros k Hk Hocc.
      apply (occurs_app_skip (a +:+ p1)) in Hocc. rewrite <- Hs in Hocc.
      apply Hmin2 in Hocc; rewrite string_app_length in *; lia.
  - intros (a & b & Hs & Hle & Hmin1 & Hmin2).
    assert (H1 : String.index i p1 s = Some (String.length a)).
    { apply index_first; [done| |done]. by exists a, (r +:+ p2 +:+ b). }
    rewrite H1.
    assert (Hs' : s = (a +:+ p1) +:+ r +:+ p2 +:+ b) by (by rewrite string_app_assoc).
    assert (H2 : String.index (String.length a + String.length p1) p2 s
                 = Some (String.length a + String.length p1 + String.length r)%nat).
    { apply index_first; [lia| |].
      - exists (a +:+ p1 +:+ r), b. split.
        + by rewrite !string_app_assoc.
        + rewrite !string_app_length. lia.
      - intros k Hk Hocc.
        replace k with (String.length (a +:+ p1)
                        + (k - (String.length a + String.length p1)))%nat in Hocc
          by (rewrite string_app_length; lia).
        rewrite Hs' in Hocc. apply occurs_app_skip in Hocc.
        apply Hmin2 in Hocc; [done|lia]. }
    rewrite H2. do 2 f_equal.
    replace (String.length a + String.length p1 + String.length r
             - (String.length a + String.length p1))%nat with (String.length r) by lia.
    rewrite Hs' at 1. rewrite <- string_app_length. apply substring_app_middle.
Qed.
End Substr.

Abbreviation start_date_key := (dq +:+ "start_date" +:+ dq +:+ ":" +:+ dq).
Abbreviation end_date_key := (dq +:+ "end_date" +:+ dq +:+ ":" +:+ dq).

(** The index that [_substr] searches from is read the way [str.find]
    reads it, so the start date that [_create_report] passes for it is a
    [TypeError]: a sale page on which a start date is found never gives
    its dates, and the dates that do come back are a missing start date
    and the end date found from the beginning of the page. *)
Theorem sale_dates_never_start (text : string) :
  (forall st en, ItchClaim.sale_dates text <> Ok (Some st, en)) /\
  (forall st, ItchClaim._substr text (VInt 0) start_date_key dq = Ok (Some st) ->
              ItchClaim.sale_dates text = Raise TypeError) /\
  (ItchClaim._substr text (VInt 0) start_date_key dq = Ok None ->
   exists en, ItchClaim._substr text (VInt 0) end_date_key dq = Ok en /\
              ItchClaim.sale_dates text = Ok (None, en)).
Proof.
  assert (Hstart : forall st, ItchClaim._substr text (VInt 0) start_date_key dq = Ok (Some st) ->
                              ItchClaim.sale_dates text = Raise TypeError).
  { intros st Hst. unfold ItchClaim.sale_dates. by rewrite Hst. }
  split; [|split; [exact Hstart|]].
  - intros st en Hrun.
    destruct (ItchClaim._substr text (VInt 0) start_date_key dq) as [[st'|]|e] eqn:Hst.
    + by rewrite (Hstart st' eq_refl) in Hrun.
    + unfold ItchClaim.sale_dates in Hrun. rewrite Hst in Hrun.
      by destruct (ItchClaim._substr text VNone end_date_key dq).
    + unfold ItchClaim.sale_dates in Hrun. by rewrite Hst in Hrun.
  - intros Hst. unfold ItchClaim.sale_dates. rewrite Hst.
    change (ItchClaim._substr text VNone end_date_key dq)
      with (ItchClaim._substr text (VInt 0) end_date_key dq).
    change (VInt 0) with (VInt (Z.of_nat 0)). rewrite substr_run.
    destruct (String.index 0 end_date_key text) as [m|]; [|by eexists].
    destruct (String.index _ dq text) as [m2|]; by eexists.
Qed.

Lemma substr_between_witness :
  exists a b,
    page_link = a +:+ ("href=" +:+ dq) +:+ "https://dev.itch.io/seven" +:+ dq +:+ b /\
    (0 <= String.length a)%nat /\
    (forall k, (0 <= k < String.length a)%nat -> ~ occurs ("href=" +:+ dq) page_link k) /\
    (forall k, (k < String.length "https://dev.itch.io/seven")%nat ->
               ~ occurs dq ("https://dev.itch.io/seven" +:+ dq +:+ b) k).
Proof.
  apply (proj1 (substr_between page_link ("href=" +:+ dq) dq
                  "https://dev.itch.io/seven" 0)).
  vm_compute. reflexivity.
Defined.

Lemma sale_dates_never_start_witness : ItchClaim.sale_dates sale_page_json = Raise TypeError.
Proof.
  destruct (sale_dates_never_start sale_page_json) as (_ & H & _).
  apply (H "2024-01-01"). vm_compute. reflexivity.
Defined.

(** ** _claim_reward: the price of a reward *)

Section RewardPrice.
Variable isdigit : ascii -> bool.

Lemma first_digit_shift (s : string) (idx : nat) :
  ItchClaim.first_digit isdigit s idx
  = match ItchClaim.first_digit isdigit s 0 with
    | Ok k => Ok (idx + k)%nat
    | Raise e => Raise e
    end.
Proof.
  revert idx. induction s as [|c s IH]; intros idx; cbn; [done|].
  destruct (isdigit c); [f_equal; lia|].
  rewrite (IH (S idx)), (IH 1%nat).
  destruct (ItchClaim.first_digit isdigit s 0); [f_equal; lia|done].
Qed.

Lemma first_digit_found (s : string) (k : nat) :
  ItchClaim.first_digit isdigit s 0 = Ok k <->
  exists junk c rest,
    s = junk +:+ String c rest /\ String.length junk = k /\
    no_digit isdigit junk /\ isdigit c = true.
Proof.
  revert k. induction s as [|d s IH]; intros k; cbn.
  - split; [done|]. intros (junk & c & rest & Heq & _). by destruct junk.
  - destruct (isdigit d) eqn:Hd.
    + split.
      * intros ?. simplify_eq. by exists "", d, s.
      * intros (junk & c & rest & Heq & <- & Hjunk & Hc).
        destruct junk as [|j junk]; [done|].
        rewrite string_app_cons in Heq. injection Heq as Hdj _. subst.
        destruct Hjunk as [Hj _]. congruence.
    + rewrite first_digit_shift. split.
      * destruct (ItchClaim.first_digit isdigit s 0) as [k'|] eqn:Hk'; [|done].
        intros ?. simplify_eq.
        destruct (proj1 (IH k') eq_refl) as (junk & c & rest & -> & <- & Hjunk & Hc).
        by exists (String d junk), c, rest.
      * intros (junk & c & rest & Heq & <- & Hjunk & Hc).
        destruct junk as [|j junk].
        { rewrite string_app_nil_l in Heq. injection Heq as Hdc _. subst. congruence. }
        rewrite string_app_cons in Heq. injection Heq as Hdj Hs. subst.
        destruct Hjunk as [_ Hjunk]. cbn [String.length].
        assert (Hk' : ItchClaim.first_digit isdigit (junk +:+ String c rest) 0
                      = Ok (String.length junk)) by (apply IH; by exists junk, c, rest).
        by rewrite Hk'.
Qed.

Lemma first_digit_none (s : string) :
  (exists e, ItchClaim.first_digit isdigit s 0 = Raise e) <->
  no_digit isdigit s.
Proof.
  induction s as [|d s IH]; cbn.
  - split; [done|]. by eexists.
  - destruct (isdigit d) eqn:Hd.
    + split; [by intros [e He]|by intros [? _]].
    + rewrite first_digit_shift, <- IH.
      destruct (ItchClaim.first_digit isdigit s 0) as [k|e]; split.
      * by intros [e He].
      * by intros [_ [e He]].
      * intros _. split; [done|by eexists].
      * intros _. by eexists.
Qed.

Lemma slice_to_end (junk t : string) :
  Str.slice (junk +:+ t) (Z.of_nat (String.length junk)) (Str.len (junk +:+ t)) = t.
Proof.
  unfold Str.len. rewrite slice_between by (rewrite string_app_length; lia).
  rewrite string_app_length.
  replace (String.length junk + String.length t - String.length junk)%nat
    with (String.length t) by lia.
  pose proof (substring_app_middle junk t "") as H.
  by rewrite string_app_nil_r in H.
Qed.

(** A reward is taken to be free exactly when its price reads [0.00]
    behind leading characters that are not digits, a currency sign for
    one: nothing may follow, and a digit in front ([10.00]) makes it a
    price.  A price without any digit ends the scan in an
    [IndexError]. *)
Theorem reward_free_price (price : string) :
  isdigit "0" = true ->
  (ItchClaim.reward_is_free isdigit price = Ok true <->
   exists junk, price = junk +:+ "0.00" /\ no_digit isdigit junk) /\
  (ItchClaim.reward_is_free isdigit price = Raise IndexError <-> no_digit isdigit price).
Proof.
  intros Hzero. unfold ItchClaim.reward_is_free. split.
  - split.
    + destruct (ItchClaim.first_digit isdigit price 0) as [k|] eqn:Hk; [|done].
      apply first_digit_found in Hk as (junk & c & rest & -> & <- & Hjunk & Hc).
      rewrite slice_to_end. intros Hfree. exists junk. split; [|done].
      f_equal. apply String.eqb_eq. by simplify_eq.
    + intros (junk & -> & Hjunk).
      assert (Hk : ItchClaim.first_digit isdigit (junk +:+ "0.00") 0
                   = Ok (String.length junk)).
      { apply first_digit_found. by exists junk, "0"%char, ".00". }
      rewrite Hk, slice_to_end. reflexivity.
  - rewrite <- first_digit_none. split.
    + destruct (ItchClaim.first_digit isdigit price 0) as [k|e]; [done|]. by eexists.
    + intros [e He]. rewrite He. f_equal.
      clear Hzero. revert He. generalize 0%nat.
      induction price as [|c s IH]; intros n; cbn; [congruence|].
      destruct (isdigit c); [done|]. apply IH.
Qed.
End RewardPrice.

Lemma reward_free_price_witness :
  ItchClaim.reward_is_free ascii_digit "$0.00" = Ok true.
Proof.
  destruct (reward_free_price ascii_digit "$0.00" eq_refl) as [[_ H] _].
  apply H. exists "$". split; [reflexivity|]. by split.
Defined.

(** ** make_report: the order of a report *)

Lemma ltb_false_le (x y : string) : String.ltb x y = false -> String.le y x.
Proof.
  unfold String.ltb, String.le, String.leb. rewrite (String.compare_antisym x y).
  destruct (String.compare y x); cbn; done.
Qed.

Lemma ltb_true_le (x y : string) : String.ltb x y = true -> String.le x y.
Proof.
  unfold String.ltb, String.le, String.leb. destruct (String.compare x y); cbn; done.
Qed.

Lemma goes_before_true (order : bool) (item other : ItchClaim._sale_item) :
  ItchClaim.goes_before order item other = Ok true -> in_order order item other.
Proof.
  unfold ItchClaim.goes_before, in_order.
  destruct (ItchClaim.start item) as [a|], (ItchClaim.start other) as [b|]; try done.
  intros H. simplify_eq. destruct order; by apply ltb_true_le.
Qed.

Lemma goes_before_false (order : bool) (item other : ItchClaim._sale_item) :
  ItchClaim.goes_before order item other = Ok false -> in_order order other item.
Proof.
  unfold ItchClaim.goes_before, in_order.
  destruct (ItchClaim.start item) as [a|], (ItchClaim.start other) as [b|]; try done.
  intros H. simplify_eq. destruct order; by apply ltb_false_le.
Qed.

Lemma sale_add_loop_shift (l : list ItchClaim._sale_item) (item : ItchClaim._sale_item)
    (order : bool) (idx : nat) :
  ItchClaim._sale_add_loop l item order idx
  = match ItchClaim._sale_add_loop l item order 0 with
    | Ok k => Ok (idx + k)%nat
    | Raise e => Raise e
    end.
Proof.
  revert idx. induction l as [|x l IH]; intros idx; cbn.
  - f_equal. lia.
  - destruct (ItchClaim.goes_before order item x) as [[]|e]; [f_equal; lia| |done].
    rewrite (IH (S idx)), (IH 1%nat).
    destruct (ItchClaim._sale_add_loop l item order 0); [f_equal; lia|done].
Qed.

Lemma sale_add_cons (x : ItchClaim._sale_item) (l : list ItchClaim._sale_item)
    (item : ItchClaim._sale_item) (order : bool) :
  ItchClaim._sale_add (x :: l) item order
  = match ItchClaim.goes_before order item x with
    | Raise e => Raise e
    | Ok true => Ok (item :: x :: l)
    | Ok false =>
        match ItchClaim._sale_add l item order with
        | Raise e => Raise e
        | Ok l' => Ok (x :: l')
        end
    end.
Proof.
  unfold ItchClaim._sale_add. cbn [ItchClaim._sale_add_loop].
  destruct (ItchClaim.goes_before order item x) as [[]|e]; [reflexivity| |reflexivity].
  rewrite sale_add_loop_shift.
  destruct (ItchClaim._sale_add_loop l item order 0); reflexivity.
Qed.

Lemma ltb_irrefl (x : string) : String.ltb x x = false.
Proof.
  unfold String.ltb. assert ((x ?= x)%string = Eq) as ->; [|done].
  induction x as [|c x IH]; cbn; [done|].
  unfold Ascii.compare. by rewrite N.compare_refl.
Qed.

Lemma in_order_trans (order : bool) : Transitive (in_order order).
Proof.
  intros a b c. unfold in_order.
  destruct (ItchClaim.start a) as [x|], (ItchClaim.start b) as [y|],
    (ItchClaim.start c) as [z|]; try done.
  destruct order; intros H1 H2; etrans; eauto.
Qed.

Lemma goes_before_strict (order : bool) (item x y : ItchClaim._sale_item) :
  ItchClaim.goes_before order item x = Ok true -> in_order order x y ->
  ~ same_start y item.
Proof.
  unfold ItchClaim.goes_before, in_order, same_start.
  destruct (ItchClaim.start item) as [a|], (ItchClaim.start x) as [b|],
    (ItchClaim.start y) as [c|]; try done.
  intros Hlt Hle Heq. injection Hlt as Hlt. injection Heq as ->.
  assert (a = b) as ->.
  { destruct order; apply ltb_true_le in Hlt; by apply (anti_symm String.le). }
  destruct order; by rewrite ltb_irrefl in Hlt.
Qed.

Lemma in_order_refl (order : bool) (x : ItchClaim._sale_item) :
  is_Some (ItchClaim.start x) -> in_order order x x.
Proof. intros [s Hs]. unfold in_order. rewrite Hs. by destruct order. Qed.

Section SaleAdd.
Variable item : ItchClaim._sale_item.
Variable order : bool.

(** [_sale_add] keeps a report in order: into a list that is in order by
    start date (ascending for [order = True], descending otherwise) an
    item with a start date is inserted without moving or losing any
    element, the new list is in order again, and the item goes behind
    every element that was in the list with the same date. *)
Theorem sale_add_sorted (l : list ItchClaim._sale_item) :
  is_Some (ItchClaim.start item) ->
  Forall (fun x => is_Some (ItchClaim.start x)) l ->
  Sorted (in_order order) l ->
  exists l1 l2,
    l = l1 ++ l2 /\
    ItchClaim._sale_add l item order = Ok (l1 ++ item :: l2) /\
    Sorted (in_order order) (l1 ++ item :: l2) /\
    Forall (fun x => in_order order x item) l1 /\
    Forall (fun x => in_order order item x /\ ~ same_start x item) l2.
Proof.
  intros Hitem Hdated Hsorted.
  apply (Sorted_StronglySorted (in_order_trans order)) in Hsorted.
  induction Hsorted as [|x l Hl IH Hx].
  - exists [], []. repeat split; try done. repeat constructor.
  - rewrite sale_add_cons.
    destruct (ItchClaim.goes_before order item x) as [[]|e] eqn:Hcmp.
    + exists [], (x :: l). cbn. split; [done|]. split; [done|].
      pose proof (goes_before_true _ _ _ Hcmp) as Hix. split; [|split].
      * constructor; [|by constructor].
        apply StronglySorted_Sorted. by constructor.
      * constructor.
      * constructor.
        -- split; [done|]. eapply goes_before_strict; [done|].
           apply in_order_refl. unfold in_order in Hix.
           destruct (ItchClaim.start item), (ItchClaim.start x); by eauto.
        -- eapply Forall_impl; [exact Hx|]. intros y Hxy. split.
           ++ by eapply in_order_trans.
           ++ by eapply goes_before_strict.
    + apply Forall_cons in Hdated as [_ Hdated].
      destruct (IH Hdated) as (l1 & l2 & -> & -> & Hs & H1 & H2).
      pose proof (goes_before_false _ _ _ Hcmp) as Hxi.
      exists (x :: l1), l2. cbn. split; [done|]. split; [done|]. split; [|split].
      * constructor; [done|]. destruct l1 as [|y l1]; cbn; constructor; [done|].
        by apply Forall_cons in Hx as [Hxy _].
      * by constructor.
      * done.
    + unfold ItchClaim.goes_before in Hcmp. destruct Hitem as [a Ha]. rewrite Ha in Hcmp.
      apply Forall_cons in Hdated as [[b Hb] _]. by rewrite Hb in Hcmp.
Qed.

End SaleAdd.

(** A date that is [None] cannot be compared: an item without a start
    date goes into an empty list without a comparison, and raises a
    [TypeError] with any other list, as does every item when the scan
    reaches an element without one; the list is then left as it was. *)
Theorem sale_add_without_date (l : list ItchClaim._sale_item) (item : ItchClaim._sale_item)
    (order : bool) :
  ItchClaim._sale_add [] item order = Ok [item] /\
  (ItchClaim.start item = None -> l <> [] ->
     ItchClaim._sale_add l item order = Raise TypeError) /\
  (forall l1 x l2,
     l = l1 ++ x :: l2 -> ItchClaim.start x = None ->
     Forall (fun y => ItchClaim.goes_before order item y = Ok false) l1 ->
     ItchClaim._sale_add l item order = Raise TypeError).
Proof.
  split; [reflexivity|]. split.
  - intros Hitem Hl. destruct l as [|x l]; [done|].
    rewrite sale_add_cons. unfold ItchClaim.goes_before. by rewrite Hitem.
  - intros l1 x l2 -> Hx Hl1. induction Hl1 as [|y l1 Hy _ IH].
    + cbn. rewrite sale_add_cons. unfold ItchClaim.goes_before. rewrite Hx.
      by destruct (ItchClaim.start item).
    + cbn. rewrite sale_add_cons, Hy. by rewrite IH.
Qed.

Lemma sale_add_sorted_witness :
  Sorted (in_order true) [january; february; march].
Proof.
  assert (Hitem : is_Some (ItchClaim.start february)) by (by eexists).
  assert (Hdated : Forall (fun x => is_Some (ItchClaim.start x)) [january; march])
    by (repeat (constructor; [by eexists|]); constructor).
  assert (Hsorted : Sorted (in_order true) [january; march])
    by (repeat constructor; vm_compute; exact I).
  destruct (sale_add_sorted february true [january; march] Hitem Hdated Hsorted)
    as (l1 & l2 & _ & Hrun & Hsorted' & _).
  assert (Heq : Ok (l1 ++ february :: l2) = Ok [january; february; march])
    by (rewrite <- Hrun; reflexivity).
  injection Heq as Heq. rewrite <- Heq. exact Hsorted'.
Defined.

Lemma sale_add_without_date_witness :
  ItchClaim._sale_add [january] undated false = Raise TypeError.
Proof.
  destruct (sale_add_without_date [january] undated false) as (_ & H & _).
  apply H; [reflexivity|discriminate].
Defined.
